(** * sofarDevice: polling a Sofar inverter through an LSW-3 logger

    A shallow embedding of [sofarDevice.py]: the request frame built by
    [_generateRequest], the payload decoding of [_readRegisterRange] and
    the retry loop of [getRegisterRangeData], followed by the properties
    of the protocol core.

    Conventions.
    - A Python [str] is a [list ascii]; dictionary keys are [string]s.
    - A [bytes]/[bytearray] value is a [list Z] of numbers in [0, 256).
    - A Python [int] is a [Z]; a [float] is an IEEE 754 binary64 number,
      a [spec_float] with the operations of the standard library at
      precision 53 and exponent bound 1024 (round to nearest, ties to
      even).
    - A raised exception is the [Raise] outcome of [result]. *)

From Stdlib Require Import ZArith QArith Ascii String List Lia.
From Stdlib Require Import Floats.SpecFloat.
From stdpp Require Import base option list strings gmap.
Import ListNotations.
Local Open Scope Z_scope.

(** ** Exceptions *)

Inductive exn : Type :=
| ValueError
| IndexError
| KeyError
| TypeError
| OverflowError
| BinasciiError.

Inductive result (A : Type) : Type :=
| Ok (a : A)
| Raise (e : exn).
Arguments Ok {A} a.
Arguments Raise {A} e.

#[global] Instance result_ret : MRet result := fun A a => Ok a.
#[global] Instance result_bind : MBind result := fun A B f m =>
  match m with
  | Ok a => f a
  | Raise e => Raise e
  end.

Abbreviation pystr := (list ascii).
Abbreviation bytes := (list Z).

Definition lit (s : string) : pystr := list_ascii_of_string s.

(** ** The Python built-ins used by the device class *)

Module Py.

Definition code (c : ascii) : Z := Z.of_N (N_of_ascii c).

(** One lower-case hexadecimal digit, as [hex] prints it. *)
Definition hexchar (d : Z) : ascii :=
  nth (Z.to_nat d) (lit "0123456789abcdef") "0"%char.

(** Value of a hexadecimal digit of either case. *)
Definition hexval (c : ascii) : option Z :=
  let n := code c in
  if (48 <=? n) && (n <=? 57) then Some (n - 48)
  else if (97 <=? n) && (n <=? 102) then Some (n - 87)
  else if (65 <=? n) && (n <=? 70) then Some (n - 55)
  else None.

(** Number of hexadecimal digits of a natural number (one for zero). *)
Definition ndigits (n : Z) : nat := S (Z.to_nat (Z.log2 n / 4)).

Definition hex_digit_at (n : Z) (i : nat) : ascii :=
  hexchar ((n / 16 ^ Z.of_nat i) mod 16).

Definition hex_digits (n : Z) : pystr :=
  map (hex_digit_at n) (rev (seq 0 (ndigits n))).

(** [hex(n)]: ["0x..."], with a leading minus sign below zero. *)
Definition hex (n : Z) : pystr :=
  if n <? 0 then lit "-0x" ++ hex_digits (- n) else lit "0x" ++ hex_digits n.

(** [s[a:b]] for constant bounds [0 <= a <= b]; out-of-range bounds are
    clipped to the length, as Python does. *)
Definition slice {A} (s : list A) (a b : nat) : list A := take (b - a) (drop a s).

(** [s[a:]] *)
Definition slice_from {A} (s : list A) (a : nat) : list A := drop a s.

(** [s.zfill(w)]: zeros on the left, after a leading sign if there is one. *)
Definition zfill (w : nat) (s : pystr) : pystr :=
  let pad := repeat "0"%char (w - length s) in
  match s with
  | c :: r => if (code c =? 43) || (code c =? 45) then c :: pad ++ r else pad ++ s
  | [] => pad
  end.

Definition upper_char (c : ascii) : ascii :=
  let n := code c in
  if (97 <=? n) && (n <=? 122) then ascii_of_N (Z.to_N (n - 32)) else c.

(** [s.upper()] *)
Definition upper (s : pystr) : pystr := map upper_char s.

(** Pairs of hexadecimal digits to bytes; [None] on an odd length or on a
    character that is not a hexadecimal digit. *)
Fixpoint hexpairs (s : pystr) : option bytes :=
  match s with
  | [] => Some []
  | [_] => None
  | h :: l :: r =>
      match hexval h, hexval l, hexpairs r with
      | Some a, Some b, Some bs => Some (16 * a + b :: bs)
      | _, _, _ => None
      end
  end.

(** [binascii.unhexlify(s)] *)
Definition unhexlify (s : pystr) : result bytes :=
  match hexpairs s with
  | Some bs => Ok bs
  | None => Raise BinasciiError
  end.

(** [bytearray.fromhex(s)].  Python skips blanks between the bytes; the
    arguments built here are slices of [hex(n)], which has none. *)
Definition fromhex (s : pystr) : result bytes :=
  match hexpairs s with
  | Some bs => Ok bs
  | None => Raise ValueError
  end.

(** Digits of a literal in base [base], most significant first. *)
Definition digit_in (base : Z) (c : ascii) : option Z :=
  match hexval c with
  | Some d => if d <? base then Some d else None
  | None => None
  end.

Fixpoint digits_value (base : Z) (s : pystr) (acc : Z) : option Z :=
  match s with
  | [] => Some acc
  | c :: r =>
      match digit_in base c with
      | Some d => digits_value base r (base * acc + d)
      | None => None
      end
  end.

Definition nonempty_digits (base : Z) (s : pystr) : option Z :=
  match s with
  | [] => None
  | _ => digits_value base s 0
  end.

(** An unsigned literal with base 0: a radix prefix selects base 16, 8 or
    2; without one the literal is decimal and has no leading zero unless
    it is zero. *)
Definition unsigned_literal (s : pystr) : option Z :=
  match s with
  | z :: p :: r =>
      if code z =? 48 then
        if (code p =? 120) || (code p =? 88) then nonempty_digits 16 r
        else if (code p =? 111) || (code p =? 79) then nonempty_digits 8 r
        else if (code p =? 98) || (code p =? 66) then nonempty_digits 2 r
        else match nonempty_digits 10 s with
             | Some 0 => Some 0
             | _ => None
             end
      else nonempty_digits 10 s
  | _ => nonempty_digits 10 s
  end.

(** [int(s, 0)] on a string.  Surrounding blanks and digit-grouping
    underscores, which Python also accepts, are read as malformed. *)
Definition int0 (s : pystr) : result Z :=
  let signed :=
    match s with
    | c :: r =>
        if code c =? 45 then option_map Z.opp (unsigned_literal r)
        else if code c =? 43 then unsigned_literal r
        else unsigned_literal s
    | [] => None
    end in
  match signed with
  | Some v => Ok v
  | None => Raise ValueError
  end.

(** Big-endian value of a byte string. *)
Definition be_value (bs : bytes) : Z := fold_left (fun acc b => 256 * acc + b) bs 0.

(** [int.from_bytes(bs, "big", signed=flag)] *)
Definition from_bytes_big (signed : bool) (bs : bytes) : Z :=
  let u := be_value bs in
  let bits := 8 * Z.of_nat (length bs) in
  if signed && (0 <? bits) && (2 ^ (bits - 1) <=? u) then u - 2 ^ bits else u.

(** [bytearray(n)] *)
Definition bytearray (n : nat) : bytes := repeat 0 n.

(** [b[a:c] = v] on a bytearray, for constant bounds [0 <= a <= c]: the
    slice, clipped to the current length, is replaced by [v], so the
    array changes length when [v] is not as long as the slice. *)
Definition set_slice (b : bytes) (a c : nat) (v : bytes) : bytes :=
  take a b ++ v ++ drop c b.

(** [b[i]] *)
Definition getitem (b : bytes) (i : nat) : result Z :=
  match b !! i with
  | Some x => Ok x
  | None => Raise IndexError
  end.

(** [b[i] = v] *)
Definition setitem (b : bytes) (i : nat) (v : Z) : result bytes :=
  if decide (i < length b)%nat then Ok (<[i := v]> b) else Raise IndexError.

(** A number is an [int] or a [float]. *)
Inductive number : Type :=
| Int (n : Z)
| Float (x : spec_float).

Definition fmul : spec_float → spec_float → spec_float := SFmul 53 1024.

Definition fadd : spec_float → spec_float → spec_float := SFadd 53 1024.

(** The float nearest to an integer. *)
Definition nearest (n : Z) : spec_float := binary_normalize 53 1024 n 0 false.

(** An [int] operand of a mixed operation is converted to the nearest
    float; the conversion raises [OverflowError] when that lies beyond
    the largest float. *)
Definition float_of_int (n : Z) : result spec_float :=
  match nearest n with
  | S754_infinity _ => Raise OverflowError
  | x => Ok x
  end.

Definition to_float (a : number) : result spec_float :=
  match a with
  | Int n => float_of_int n
  | Float x => Ok x
  end.

(** [a * b] *)
Definition mul (a b : number) : result number :=
  match a, b with
  | Int m, Int n => Ok (Int (m * n))
  | _, _ => x ← to_float a; y ← to_float b; Ok (Float (fmul x y))
  end.

(** [a + b] *)
Definition add (a b : number) : result number :=
  match a, b with
  | Int m, Int n => Ok (Int (m + n))
  | _, _ => x ← to_float a; y ← to_float b; Ok (Float (fadd x y))
  end.

(** An [int] against a [float]: Python compares the two values exactly,
    without converting the [int]. *)
Definition compare_int_float (n : Z) (x : spec_float) : option comparison :=
  match x with
  | S754_nan => None
  | S754_infinity s => Some (if s then Gt else Lt)
  | S754_zero _ => Some (n ?= 0)
  | S754_finite s m e =>
      let v := cond_Zopp s (Zpos m) in
      Some (if 0 <=? e then n ?= v * 2 ^ e else n * 2 ^ (- e) ?= v)
  end.

(** The order of two numbers; none when one of them is not a number. *)
Definition compare (a b : number) : option comparison :=
  match a, b with
  | Int m, Int n => Some (m ?= n)
  | Int m, Float y => compare_int_float m y
  | Float x, Int n => option_map CompOpp (compare_int_float n x)
  | Float x, Float y => SFcompare x y
  end.

(** [a > b] *)
Definition gt (a b : number) : bool :=
  match compare a b with
  | Some Gt => true
  | _ => false
  end.

(** [a < b] *)
Definition lt (a b : number) : bool :=
  match compare a b with
  | Some Lt => true
  | _ => false
  end.

(** Truth value of a number: false for zero only. *)
Definition truth (a : number) : bool :=
  match a with
  | Int n => negb (n =? 0)
  | Float (S754_zero _) => false
  | Float _ => true
  end.

End Py.

#[global] Instance spec_float_eq_dec : EqDecision spec_float := ltac:(solve_decision).

#[global] Instance number_eq_dec : EqDecision Py.number := ltac:(solve_decision).

(** ** CRC-16/MODBUS, the checksum [libscrc.modbus] computes

    Reflected polynomial [0xA001], initial value [0xFFFF], no final xor. *)

Module Crc.

Definition shift (crc : Z) : Z :=
  if Z.testbit crc 0 then Z.lxor (Z.shiftr crc 1) 0xA001 else Z.shiftr crc 1.

Definition update (crc : Z) (b : Z) : Z := Nat.iter 8 shift (Z.lxor crc b).

Definition modbus (data : bytes) : Z := fold_left update data 0xFFFF.

End Crc.

(** ** The register map

    [sofarProtocol] maps a range name to its definition: the bounds
    [registerStart] and [registerEnd] (radix-prefixed literals, either of
    which may be absent) and, under the key ["0x"] followed by four
    upper-case hexadecimal digits, the definition of the register at that
    address.  A register definition is an object whose entries [name]
    and [valueType], strings where they are there, may be absent; its
    [factor] is the float [float(regDef['factor'])] gives, and [None] when
    the entry is absent or [float] rejects it. *)

Record FieldDef : Type := {
  name : option string;
  valueType : option string;
  factor : option spec_float;
}.

Record RegisterRange : Type := {
  registerStart : option pystr;
  registerEnd : option pystr;
  registers : gmap string FieldDef;
}.

(** ** Request frames: [_generateRequest] *)

(** [padhex(s)] *)
Definition padhex (s : pystr) : pystr :=
  lit "0x" ++ Py.zfill 4 (Py.slice_from s 2).

(** [hex_zfill(intval)] *)
Definition hex_zfill (intval : Z) : pystr :=
  let hexvalue := Py.hex intval in
  lit "0x" ++ Py.zfill 4 (Py.slice_from hexvalue 2).

(** The right-hand side of [requestBytes[7:11] = ...]: the serial number,
    two hexadecimal digits at a time, last pair first. *)
Definition serial_field (mySerialNumber : Z) : result bytes :=
  let h := Py.hex mySerialNumber in
  Py.fromhex (Py.slice h 8 10 ++ Py.slice h 6 8 ++ Py.slice h 4 6 ++ Py.slice h 2 4).

(** [businessfield]: function code 3, first register, register count. *)
Definition businessfield_of (regStart regEnd : Z) : result bytes :=
  Py.unhexlify (lit "0003" ++ Py.slice_from (hex_zfill regStart) 2
                           ++ Py.slice_from (hex_zfill (regEnd - regStart + 1)) 2).

(** The right-hand side of [requestBytes[32:34] = ...]. *)
Definition crc_field (businessfield : bytes) : result bytes :=
  let h := padhex (Py.hex (Crc.modbus businessfield)) in
  Py.unhexlify (Py.slice h 4 6 ++ Py.slice h 2 4).

(** [for i in range(1, 34, 1): checksum += requestBytes[i] & 255] *)
Fixpoint checksum_loop (requestBytes : bytes) (idxs : list nat) (checksum : Z) : result Z :=
  match idxs with
  | [] => Ok checksum
  | i :: rest =>
      b ← Py.getitem requestBytes i;
      checksum_loop requestBytes rest (checksum + Z.land b 255)
  end.

(** [_generateRequest]: [Ok None] is the returned [False]. *)
Definition _generateRequest (mySerialNumber : Z) (regRangeDef : RegisterRange)
  : result (option bytes) :=
  match registerStart regRangeDef, registerEnd regRangeDef with
  | Some rs, Some re =>
      regStart ← Py.int0 rs;
      regEnd ← Py.int0 re;
      let requestBytes := Py.bytearray 36 in
      v ← Py.unhexlify (lit "A5");
      let requestBytes := Py.set_slice requestBytes 0 1 v in
      v ← Py.unhexlify (lit "1700");
      let requestBytes := Py.set_slice requestBytes 1 3 v in
      v ← Py.unhexlify (lit "1045");
      let requestBytes := Py.set_slice requestBytes 3 5 v in
      v ← Py.unhexlify (lit "0000");
      let requestBytes := Py.set_slice requestBytes 5 7 v in
      v ← serial_field mySerialNumber;
      let requestBytes := Py.set_slice requestBytes 7 11 v in
      v ← Py.unhexlify (lit "020000000000000000000000000000");
      let requestBytes := Py.set_slice requestBytes 11 26 v in
      businessfield ← businessfield_of regStart regEnd;
      let requestBytes := Py.set_slice requestBytes 26 32 businessfield in
      v ← crc_field businessfield;
      let requestBytes := Py.set_slice requestBytes 32 34 v in
      checksum ← checksum_loop requestBytes (seq 1 33) 0;
      requestBytes ← Py.setitem requestBytes 34 (Z.land checksum 255);
      v ← Py.unhexlify (lit "15");
      let requestBytes := Py.set_slice requestBytes 35 36 v in
      Ok (Some requestBytes)
  | _, _ => Ok None
  end.

(** ** Decoding a response: the parsing loop of [_readRegisterRange] *)

(** Truth value of a Python string, as the [signed=] argument is read. *)
Definition truth_of_str (s : pystr) : bool :=
  match s with
  | [] => false
  | _ => true
  end.

(** [hexpos]: the register-map key of the register at [idx + regStart]. *)
Definition hexpos (idx regStart : Z) : string :=
  string_of_list_ascii
    (lit "0x" ++ Py.upper (Py.zfill 4 (Py.slice_from (Py.hex (idx + regStart)) 2))).

(** [data[a:b]] for indices that are not negative. *)
Definition data_slice (data : bytes) (a b : Z) : bytes :=
  Py.slice data (Z.to_nat a) (Z.to_nat b).

(** [regDef[key]] for an entry that may be absent. *)
Definition entry {A} (v : option A) : result A :=
  match v with
  | Some a => Ok a
  | None => Raise KeyError
  end.

(** [factor]: the float of the entry, and the [int] 1 of the [except]
    branch without one. *)
Definition factor_of (regDef : FieldDef) : Py.number :=
  match factor regDef with
  | Some x => Py.Float x
  | None => Py.Int 1
  end.

(** The [if]/[elif] chain on [regDef['valueType']]: the value to store, or
    [None] for a type that is none of the four ([continue]). *)
Definition decode_value (data : bytes) (idxStart idxEnd16 idxEnd32 : Z)
    (regDef : FieldDef) : result (option Py.number) :=
  let factor := factor_of regDef in
  ty ← entry (valueType regDef);
  if String.eqb ty "u16" then
    val ← Py.mul (Py.Int (Py.from_bytes_big (truth_of_str (lit "False"))
                            (data_slice data idxStart idxEnd16))) factor;
    Ok (Some val)
  else if String.eqb ty "u32" then
    val ← Py.mul (Py.Int (Py.from_bytes_big (truth_of_str (lit "False"))
                            (data_slice data idxStart idxEnd32))) factor;
    Ok (Some val)
  else if String.eqb ty "i16" then
    val ← Py.mul (Py.Int (Py.from_bytes_big (truth_of_str (lit "True"))
                            (data_slice data idxStart idxEnd16))) factor;
    Ok (Some val)
  else if String.eqb ty "i32" then
    val ← Py.mul (Py.Int (Py.from_bytes_big (truth_of_str (lit "True"))
                            (data_slice data idxStart idxEnd32))) factor;
    Ok (Some val)
  else Ok None.

(** One register: [output[regDef['name']] = val] after the chain. *)
Definition store_value (data : bytes) (idx : Z) (regDef : FieldDef)
    (output : gmap string Py.number) : result (gmap string Py.number) :=
  let idxStart := 28 + idx * 2 in
  val ← decode_value data idxStart (idxStart + 2) (idxStart + 4) regDef;
  match val with
  | Some val => n ← entry (name regDef); Ok (<[n := val]> output)
  | None => Ok output
  end.

(** [for idx in range(0, regEnd - regStart + 1, 1): ...] over the indices
    still to visit, with the [output] built so far. *)
Fixpoint parse_loop (data : bytes) (regStart : Z) (regRangeDef : RegisterRange)
    (idxs : list Z) (output : gmap string Py.number) : result (gmap string Py.number) :=
  match idxs with
  | [] => Ok output
  | idx :: rest =>
      let idxStart := 28 + idx * 2 in
      let idxEnd16 := idxStart + 2 in
      if Z.of_nat (length data) <? idxEnd16 then Ok output
      else
        match registers regRangeDef !! hexpos idx regStart with
        | None => parse_loop data regStart regRangeDef rest output
        | Some regDef =>
            output ← store_value data idx regDef output;
            parse_loop data regStart regRangeDef rest output
        end
  end.

(** The decoding step: lines "parse data from the inverter" to the end. *)
Definition parse_data (data : bytes) (regStart regEnd : Z) (regRangeDef : RegisterRange)
  : result (gmap string Py.number) :=
  parse_loop data regStart regRangeDef (seqZ 0 (regEnd - regStart + 1)) ∅.

(** ** The device and its surroundings

    The network is a script of outcomes, one list per socket operation,
    consumed in order; an exhausted script is a dead peer (connection
    refused, send failing, receive timing out). *)

Inductive connect_outcome : Type :=
| ConnOk
| ConnError (strerror : option pystr).

Inductive recv_outcome : Type :=
| RecvChunk (chunk : bytes)
| RecvTimeout
| RecvError.

Record world : Type := {
  connects : list (list connect_outcome);
  sends : list bool;
  recvs : list recv_outcome;
}.

Inductive event : Type :=
| EvTry (retryCounter : Z)
| EvSend (requestBytes : bytes)
| EvSleep (seconds : Z)
| EvClose.

Record config : Type := {
  mySerialNumber : Z;
  mySystemSize : spec_float;
  sofarProtocol : gmap string RegisterRange;
}.

(** The mutable part of a [sofarDevice]: the connection flag, the truth
    value of [mySocket] (a socket object is true; [None] and [[]] are
    false), the network still to come and the journal of what was done. *)
Record device : Type := {
  _connectedToInverterFlag : bool;
  mySocket : bool;
  env : world;
  journal : list event;
}.

Definition new_device (w : world) : device :=
  {| _connectedToInverterFlag := false; mySocket := false; env := w; journal := [] |}.

Definition emit (e : event) (d : device) : device :=
  {| _connectedToInverterFlag := _connectedToInverterFlag d; mySocket := mySocket d;
     env := env d; journal := journal d ++ [e] |}.

Definition set_flag (b : bool) (d : device) : device :=
  {| _connectedToInverterFlag := b; mySocket := mySocket d;
     env := env d; journal := journal d |}.

Definition set_env (w : world) (d : device) : device :=
  {| _connectedToInverterFlag := _connectedToInverterFlag d; mySocket := mySocket d;
     env := w; journal := journal d |}.

(** [self.mySocket.close(); self._connectedToInverterFlag = False] *)
Definition hang_up (d : device) : device := set_flag false (emit EvClose d).

(** [time.sleep(s)] *)
Definition sleep (s : Z) (d : device) : device := emit (EvSleep s) d.

(** The loop of [_connect] over the addresses [getaddrinfo] returns: a
    success sets the flag and goes on to the next address, a failure is
    logged and leaves the loop.  The log message appends [msg.strerror],
    which fails with a [TypeError] when the error carries none. *)
Fixpoint connect_loop (addrs : list connect_outcome) (sock flag : bool)
  : result (bool * bool) :=
  match addrs with
  | [] => Ok (sock, flag)
  | ConnOk :: rest => connect_loop rest true true
  | ConnError (Some _) :: _ => Ok (true, flag)
  | ConnError None :: _ => Raise TypeError
  end.

(** [_connect] *)
Definition _connect (d : device) : result device :=
  let w := env d in
  let addrs := default [ConnError (Some (lit "Connection refused"))] (head (connects w)) in
  let w' := {| connects := tail (connects w); sends := sends w; recvs := recvs w |} in
  '(sock, flag) ← connect_loop addrs false false;
  Ok {| _connectedToInverterFlag := flag; mySocket := sock; env := w';
        journal := journal d |}.

(** How the receive loop of [_readRegisterRange] was left. *)
Inductive recv_exit : Type :=
| ExitBreak       (* enough data, or a timeout *)
| ExitPeerClosed  (* empty chunk: socket closed, flag cleared *)
| ExitFailed.     (* another exception: flag cleared *)

(** [while okFlag: ...]: chunks accumulate in [data] until there are at
    least [enough] bytes. *)
Fixpoint recv_loop (enough : Z) (script : list recv_outcome) (data : bytes)
  : bytes * list recv_outcome * recv_exit :=
  match script with
  | [] => (data, [], ExitBreak)
  | RecvChunk chunk :: rest =>
      match chunk with
      | [] => (data, rest, ExitPeerClosed)
      | _ =>
          let data := data ++ chunk in
          if enough <=? Z.of_nat (length data) then (data, rest, ExitBreak)
          else recv_loop enough rest data
      end
  | RecvTimeout :: rest => (data, rest, ExitBreak)
  | RecvError :: rest => (data, rest, ExitFailed)
  end.

(** [_readRegisterRange]: [None] is the returned [False]. *)
Definition _readRegisterRange (d : device) (regRangeDef : RegisterRange)
  : result (device * option (gmap string Py.number)) :=
  if negb (_connectedToInverterFlag d) || negb (mySocket d) then Ok (d, None)
  else
    match registerStart regRangeDef, registerEnd regRangeDef with
    | Some rs, Some re =>
        regStart ← Py.int0 rs;
        regEnd ← Py.int0 re;
        let w := env d in
        let '(data, rest, how) := recv_loop (regEnd - regStart + 1 + 15) (recvs w) [] in
        let d := set_env {| connects := connects w; sends := sends w; recvs := rest |} d in
        let d := match how with
                 | ExitBreak => d
                 | ExitPeerClosed => hang_up d
                 | ExitFailed => set_flag false d
                 end in
        let d := match data with
                 | [] => hang_up d
                 | _ => d
                 end in
        if negb (_connectedToInverterFlag d) then Ok (d, None)
        else
          output ← parse_data data regStart regEnd regRangeDef;
          Ok (d, Some output)
    | _, _ => Ok (d, None)
    end.

(** ** Polling: [getRegisterRangeData] *)

(** The argument of [getRegisterRangeData]: one name or a list of names. *)
Inductive requested : Type :=
| OneName (s : string)
| Names (l : list string).

Definition is_space (c : ascii) : bool :=
  let n := Py.code c in
  ((9 <=? n) && (n <=? 13)) || ((28 <=? n) && (n <=? 32)) || (n =? 133) || (n =? 160).

(** [isValidString(s)] on a string: not empty and not only blanks. *)
Definition isValidString (s : string) : bool :=
  let cs := list_ascii_of_string s in
  negb (bool_decide (cs = [])) && negb (forallb is_space cs).

(** What [set(...)] iterates over: the names of a list, the one name of a
    valid string, and the characters of any other string. *)
Definition names_of (r : requested) : list string :=
  match r with
  | OneName s =>
      if isValidString s then [s]
      else map (fun c => String c EmptyString) (list_ascii_of_string s)
  | Names l => l
  end.

(** [list(set(...))].  Python leaves the order of the result open; the
    model keeps the order of the argument, so that a list without
    repetition stands for itself and every order is reached by some
    argument. *)
Definition unique_names (r : requested) : list string := remove_dups (names_of r).

Definition requiredRegRanges : list string := ["EnergyTodayTotals"; "PVOutput"]%string.

(** [for reqRange in requiredRegRanges: if reqRange not in
    requestedRegRangeDefs: requestedRegRangeDefs += [requiredRegRanges[0]]] *)
Definition add_required (requestedRegRangeDefs : list string) : list string :=
  fold_left
    (fun l reqRange =>
       if bool_decide (reqRange ∈ l) then l
       else l ++ [default ""%string (requiredRegRanges !! 0%nat)])
    requiredRegRanges requestedRegRangeDefs.

(** [l.remove(x)]: the first occurrence of [x] goes. *)
Fixpoint list_remove (x : string) (l : list string) : list string :=
  match l with
  | [] => []
  | y :: r => if bool_decide (x = y) then r else y :: list_remove x r
  end.

(** [for reqRange in requestedRegRangeDefs: if reqRange not in
    self.sofarProtocol: requestedRegRangeDefs.remove(reqRange)]: the
    iterator is a position [i] in the list being changed.  [fuel] bounds
    the number of rounds; the length of the list is enough. *)
Fixpoint remove_unknown_loop (proto : gmap string RegisterRange) (fuel i : nat)
    (l : list string) : list string :=
  match fuel with
  | O => l
  | S fuel' =>
      match l !! i with
      | None => l
      | Some reqRange =>
          if bool_decide (is_Some (proto !! reqRange))
          then remove_unknown_loop proto fuel' (S i) l
          else remove_unknown_loop proto fuel' (S i) (list_remove reqRange l)
      end
  end.

Definition remove_unknown (proto : gmap string RegisterRange) (l : list string)
  : list string :=
  remove_unknown_loop proto (length l) 0 l.

(** The list of ranges the retry loop works on, from [list(set(...))]. *)
Definition normalize (proto : gmap string RegisterRange) (uniq : list string)
  : list string :=
  remove_unknown proto (add_required uniq).

(** [self.mySocket.sendall(requestBytes)] inside its [try]: [true] when
    the frame went out.  Sending the [False] that [_generateRequest]
    returned is a [TypeError], caught like any failure to send. *)
Definition sendall (d : device) (requestBytes : option bytes) : device * bool :=
  match requestBytes with
  | None => (d, false)
  | Some frame =>
      let w := env d in
      let d := set_env {| connects := connects w; sends := tail (sends w);
                          recvs := recvs w |} d in
      if default false (head (sends w)) then (emit (EvSend frame) d, true)
      else (d, false)
  end.

(** A Python dictionary subscript. *)
Definition subscript {V} (m : gmap string V) (k : string) : result V :=
  match m !! k with
  | Some v => Ok v
  | None => Raise KeyError
  end.

Abbreviation poll_output := (gmap string (gmap string Py.number)).

(** [for regRangeName in requestedRegRangeDefs: ...], the fetching loop. *)
Fixpoint fetch_loop (cfg : config) (names : list string) (d : device)
    (output : poll_output) : result (device * poll_output) :=
  match names with
  | [] => Ok (d, output)
  | regRangeName :: rest =>
      regRangeDef ← subscript (sofarProtocol cfg) regRangeName;
      requestBytes ← _generateRequest (mySerialNumber cfg) regRangeDef;
      let '(d, sent) := sendall d requestBytes in
      if negb sent then Ok (hang_up d, output)
      else
        let d := sleep 1 d in
        '(d, regRangeVals) ← _readRegisterRange d regRangeDef;
        match regRangeVals with
        | Some vals =>
            if bool_decide (vals = ∅) then Ok (hang_up d, output)
            else fetch_loop cfg rest d (<[regRangeName := vals]> output)
        | None => Ok (hang_up d, output)
        end
  end.

(** The "sanity check" loop: its [continue] belongs to this inner loop. *)
Fixpoint sanity_loop (names : list string) (output : poll_output) (d : device) : device :=
  match names with
  | [] => d
  | regRangeName :: rest =>
      if bool_decide (is_Some (output !! regRangeName)) then sanity_loop rest output d
      else sanity_loop rest output (sleep 10 (hang_up d))
  end.

(** [k * self.mySystemSize] for an [int] constant [k]. *)
Definition times_size (k : Z) (cfg : config) : result Py.number :=
  Py.mul (Py.Int k) (Py.Float (mySystemSize cfg)).

(** The condition of the plausibility [if], evaluated left to right. *)
Definition implausible (cfg : config) (output : poll_output) (power_total : Py.number)
  : result bool :=
  if Py.truth (Py.Float (mySystemSize cfg)) then
    ett ← subscript output "EnergyTodayTotals"%string;
    energy ← subscript ett "PV_Generation_Today"%string;
    most ← times_size 10 cfg;
    if Py.gt energy most then Ok true
    else
      most ← times_size 1200 cfg;
      Ok (Py.gt power_total most)
  else Ok false.

(** What follows the fetching loop once the flag is still set. *)
Definition check_and_finish (cfg : config) (names : list string) (d : device)
    (output : poll_output) : result (device * option poll_output) :=
  let d := sanity_loop names output d in
  pv ← subscript output "PVOutput"%string;
  p1 ← subscript pv "Power_PV1"%string;
  pv ← subscript output "PVOutput"%string;
  p2 ← subscript pv "Power_PV2"%string;
  power_total ← Py.add p1 p2;
  bad ← implausible cfg output power_total;
  if (bad : bool) then Ok (sleep 10 (hang_up d), None)
  else Ok (d, Some output).

(** [if not self._connectedToInverterFlag: self._connect()] *)
Definition ensure_connected (d : device) : result device :=
  if negb (_connectedToInverterFlag d) then _connect d else Ok d.

(** One round of the retry loop; [None] stands for [continue]. *)
Definition attempt (cfg : config) (names : list string) (d : device) (retryCounter : Z)
  : result (device * option poll_output) :=
  let d := emit (EvTry retryCounter) d in
  d ← ensure_connected d;
  if negb (_connectedToInverterFlag d) then Ok (sleep 10 d, None)
  else
    '(d, output) ← fetch_loop cfg names d ∅;
    if negb (_connectedToInverterFlag d) then Ok (sleep 10 d, None)
    else check_and_finish cfg names d output.

(** [for retryCounter in range(1, maxRetries, 1): ...]; [None] at the end
    is the final [return False]. *)
Fixpoint retry_loop (cfg : config) (names : list string) (d : device) (counters : list Z)
  : result (device * option poll_output) :=
  match counters with
  | [] => Ok (d, None)
  | retryCounter :: rest =>
      '(d, r) ← attempt cfg names d retryCounter;
      match r with
      | Some output => Ok (d, Some output)
      | None => retry_loop cfg names d rest
      end
  end.

Definition maxRetries : Z := 10.

(** [getRegisterRangeData] from the line after [list(set(...))]. *)
Definition poll_from (cfg : config) (d : device) (uniq : list string)
  : result (device * option poll_output) :=
  retry_loop cfg (normalize (sofarProtocol cfg) uniq) d (seqZ 1 (maxRetries - 1)).

(** [getRegisterRangeData] *)
Definition getRegisterRangeData (cfg : config) (d : device) (r : requested)
  : result (device * option poll_output) :=
  poll_from cfg d (unique_names r).

(** Number of rounds of the retry loop recorded in a journal. *)
Definition is_try (e : event) : bool :=
  match e with
  | EvTry _ => true
  | _ => false
  end.

Definition attempts (j : list event) : nat := length (List.filter is_try j).

(** ** A small register map and canned responses, for the examples *)

(** The float a decimal literal [a/b] stands for, for integers that are
    floats themselves: the float nearest to the quotient. *)
Definition decimal (a b : Z) : spec_float := SFdiv 53 1024 (Py.nearest a) (Py.nearest b).

Definition u16_field (n : string) (f : option spec_float) : FieldDef :=
  {| name := Some n; valueType := Some "u16"%string; factor := f |}.

Definition energy_range : RegisterRange :=
  {| registerStart := Some (lit "0x0019"); registerEnd := Some (lit "0x0019");
     registers := {[ "0x0019"%string := u16_field "PV_Generation_Today" (Some (decimal 1 100)) ]} |}.

Definition pv_range : RegisterRange :=
  {| registerStart := Some (lit "0x000A"); registerEnd := Some (lit "0x000B");
     registers := {[ "0x000A"%string := u16_field "Power_PV1" (Some (Py.nearest 10));
                     "0x000B"%string := u16_field "Power_PV2" (Some (Py.nearest 10)) ]} |}.

Definition grid_range : RegisterRange :=
  {| registerStart := Some (lit "0x000F"); registerEnd := Some (lit "0x000F");
     registers := {[ "0x000F"%string := u16_field "Voltage_Phase_R" (Some (decimal 1 10)) ]} |}.

Definition sample_protocol : gmap string RegisterRange :=
  {[ "EnergyTodayTotals"%string := energy_range;
     "PVOutput"%string := pv_range;
     "GridOutput"%string := grid_range ]}.

Definition sample_config (size : spec_float) : config :=
  {| mySerialNumber := 1712345678; mySystemSize := size; sofarProtocol := sample_protocol |}.

(** A response: 28 bytes of header, then the register values. *)
Definition response (values : bytes) : bytes := repeat 0 28 ++ values.

(** ** Predicates and sample data for the statements *)

(** A character that [hex] prints for a digit. *)
Definition is_hex_digit (c : ascii) : Prop := ∃ d, 0 <= d < 16 ∧ c = Py.hexchar d.

Definition is_byte (b : Z) : Prop := 0 <= b < 256.

(** The plain sum of a byte string. *)
Definition byte_sum (bs : bytes) : Z := foldr Z.add 0 bs.

(** A 16-bit value, low byte first: the big-endian pair with its two
    bytes swapped. *)
Definition swapped16 (v : Z) : bytes := [v mod 256; v / 256].

(** What a request frame has to satisfy: 36 bytes, byte 34 the sum of
    bytes 1 to 33 modulo 256, bytes 32 and 33 the swapped CRC-16/MODBUS of
    bytes 26 to 31. *)
Record frame_ok (frame : bytes) : Prop := {
  frame_length : length frame = 36%nat;
  frame_checksum : frame !! 34%nat = Some (byte_sum (Py.slice frame 1 34) mod 256);
  frame_crc : Py.slice frame 32 34 = swapped16 (Crc.modbus (Py.slice frame 26 32));
}.

(** The checksum loop adds up the bytes it visits, each masked to eight
    bits. *)
Definition masked_sum (bs : bytes) : Z := foldr (λ b s, Z.land b 255 + s) 0 bs.

(** A range whose end lies below its start. *)
Definition inverted_range : RegisterRange :=
  {| registerStart := Some (lit "0x0010"); registerEnd := Some (lit "0x0000");
     registers := ∅ |}.

(** Two unsigned registers without a factor. *)
Definition frequency_range : RegisterRange :=
  {| registerStart := Some (lit "0x000E"); registerEnd := Some (lit "0x000F");
     registers := {[ "0x000E"%string :=
                       {| name := Some "Frequency"%string; valueType := Some "u16"%string;
                          factor := None |};
                     "0x000F"%string :=
                       {| name := Some "Counter"%string; valueType := Some "u32"%string;
                          factor := None |} ]} |}.

(** A refused connection, as [connect] reports it. *)
Definition refused : connect_outcome := ConnError (Some (lit "Connection refused")).

(** Ten refused connections in a row. *)
Definition dead_network : world :=
  {| connects := repeat [refused] 10; sends := []; recvs := [] |}.

(** One connection and three answered requests. *)
Definition answering_network : world :=
  {| connects := [[ConnOk]]; sends := [true; true; true];
     recvs := [RecvChunk (response [9; 0]); RecvChunk (response [1; 244]);
               RecvChunk (response [1; 244])] |}.

(** An offset fits when its two bytes lie within the payload. *)
Definition fits (data : bytes) (idx : Z) : Prop :=
  28 + idx * 2 + 2 <= Z.of_nat (length data).

(** The number of offsets whose two bytes lie within the payload (zero
    or less when there is none). *)
Definition fitting (data : bytes) : Z := (Z.of_nat (length data) - 28) / 2.

(** Decoding every offset of a list, with no test on the payload length:
    what the loop does on offsets that fit. *)
Fixpoint decode_offsets (data : bytes) (regStart : Z) (regRangeDef : RegisterRange)
    (idxs : list Z) (output : gmap string Py.number) : result (gmap string Py.number) :=
  match idxs with
  | [] => Ok output
  | idx :: rest =>
      match registers regRangeDef !! hexpos idx regStart with
      | None => decode_offsets data regStart regRangeDef rest output
      | Some regDef =>
          output ← store_value data idx regDef output;
          decode_offsets data regStart regRangeDef rest output
      end
  end.

(** A register map as its schema has it: every register definition
    carries a name and a value type. *)
Definition conformant (regRangeDef : RegisterRange) : Prop :=
  ∀ key regDef, registers regRangeDef !! key = Some regDef →
                is_Some (name regDef) ∧ is_Some (valueType regDef).

(** What is stored for the integer [v] read from the payload: [v * factor],
    a float with a factor and the [int] itself without one. *)
Definition scaled (v : Z) (regDef : FieldDef) : Py.number :=
  match factor regDef with
  | Some x => Py.Float (Py.fmul (Py.nearest v) x)
  | None => Py.Int v
  end.

(** The value a register of one of the four types holds in a payload:
    its two or four bytes, read as a signed number, times the factor. *)
Definition reading (data : bytes) (idx : Z) (regDef : FieldDef) : option Py.number :=
  match valueType regDef with
  | Some ty =>
      if String.eqb ty "u16" || String.eqb ty "i16" then
        Some (scaled (Py.from_bytes_big true
                        (data_slice data (28 + idx * 2) (28 + idx * 2 + 2))) regDef)
      else if String.eqb ty "u32" || String.eqb ty "i32" then
        Some (scaled (Py.from_bytes_big true
                        (data_slice data (28 + idx * 2) (28 + idx * 2 + 4))) regDef)
      else None
  | None => None
  end.

(** The map after the registers at a list of offsets have been stored,
    each reading under its name. *)
Fixpoint stored_offsets (data : bytes) (regStart : Z) (regRangeDef : RegisterRange)
    (idxs : list Z) (output : gmap string Py.number) : gmap string Py.number :=
  match idxs with
  | [] => output
  | idx :: rest =>
      match registers regRangeDef !! hexpos idx regStart with
      | None => stored_offsets data regStart regRangeDef rest output
      | Some regDef =>
          match reading data idx regDef, name regDef with
          | Some val, Some n =>
              stored_offsets data regStart regRangeDef rest (<[n := val]> output)
          | _, _ => stored_offsets data regStart regRangeDef rest output
          end
      end
  end.

(** A register without a value type, and one without a name. *)
Definition untyped_range : RegisterRange :=
  {| registerStart := Some (lit "0x0010"); registerEnd := Some (lit "0x0010");
     registers := {[ "0x0010"%string :=
                       {| name := Some "Counter"%string; valueType := None;
                          factor := None |} ]} |}.

Definition unnamed_range : RegisterRange :=
  {| registerStart := Some (lit "0x0010"); registerEnd := Some (lit "0x0010");
     registers := {[ "0x0010"%string :=
                       {| name := None; valueType := Some "u16"%string;
                          factor := None |} ]} |}.

(** A 32-bit counter at the start of a range of two registers. *)
Definition counter_range : RegisterRange :=
  {| registerStart := Some (lit "0x0010"); registerEnd := Some (lit "0x0011");
     registers := {[ "0x0010"%string :=
                       {| name := Some "Counter"%string; valueType := Some "u32"%string;
                          factor := None |} ]} |}.


(** A network whose answers decode to 60 kWh today and 1500 W. *)
Definition sixty_kwh_network : world :=
  {| connects := [[ConnOk]]; sends := [true; true];
     recvs := [RecvChunk (response [0; 100; 0; 50]); RecvChunk (response [23; 112])] |}.

Definition sixty_names : list string := ["PVOutput"; "EnergyTodayTotals"]%string.

Definition sixty_connected : device :=
  Eval vm_compute in
    match ensure_connected (emit (EvTry 1) (new_device sixty_kwh_network)) with
    | Ok d => d
    | Raise _ => new_device sixty_kwh_network
    end.

Definition sixty_fetched : device * poll_output :=
  Eval vm_compute in
    match fetch_loop (sample_config (Py.nearest 5)) sixty_names sixty_connected ∅ with
    | Ok r => r
    | Raise _ => (sixty_connected, ∅)
    end.

(** The float product [k * self.mySystemSize] for a small constant. *)
Definition limit (k : Z) (cfg : config) : Py.number :=
  Py.Float (Py.fmul (Py.nearest k) (mySystemSize cfg)).

(** The power fields are there and add up, and the plausibility test has
    passed: with a system size that is not zero, neither the energy nor
    the sum of the powers is greater than its limit. *)
Definition checks_passed (cfg : config) (output : poll_output) : Prop :=
  ∃ pv p1 p2 power_total,
    output !! "PVOutput"%string = Some pv
    ∧ pv !! "Power_PV1"%string = Some p1
    ∧ pv !! "Power_PV2"%string = Some p2
    ∧ Py.add p1 p2 = Ok power_total
    ∧ (Py.truth (Py.Float (mySystemSize cfg)) = true →
       ∃ ett energy,
         output !! "EnergyTodayTotals"%string = Some ett
         ∧ ett !! "PV_Generation_Today"%string = Some energy
         ∧ Py.gt energy (limit 10 cfg) = false
         ∧ Py.gt power_total (limit 1200 cfg) = false).

(** A network whose answers decode to 5 kWh today and 1500 W. *)
Definition five_kwh_network : world :=
  {| connects := [[ConnOk]]; sends := [true; true];
     recvs := [RecvChunk (response [0; 100; 0; 50]); RecvChunk (response [1; 244])] |}.

Definition five_kwh_poll : device * poll_output :=
  Eval vm_compute in
    match getRegisterRangeData (sample_config (Py.nearest 5)) (new_device five_kwh_network)
            (Names ["PVOutput"%string]) with
    | Ok (d, Some output) => (d, output)
    | _ => (new_device five_kwh_network, ∅)
    end.




(** A register map without ["EnergyTodayTotals"], a system size of zero,
    and a network that answers one request. *)
Definition pv_only_config : config :=
  {| mySerialNumber := 1712345678; mySystemSize := Py.nearest 0;
     sofarProtocol := {[ "PVOutput"%string := pv_range ]} |}.

Definition one_answer : world :=
  {| connects := [[ConnOk]]; sends := [true];
     recvs := [RecvChunk (response [0; 100; 0; 50])] |}.

Definition pv_only_poll : device * poll_output :=
  Eval vm_compute in
    match getRegisterRangeData pv_only_config (new_device one_answer)
            (Names ["PVOutput"%string]) with
    | Ok (d, Some output) => (d, output)
    | _ => (new_device one_answer, ∅)
    end.

(** A register map whose ["PVOutput"] range has lost its start address. *)
Definition pv_without_start : RegisterRange :=
  {| registerStart := None; registerEnd := registerEnd pv_range;
     registers := registers pv_range |}.

Definition damaged_config : config :=
  {| mySerialNumber := 1712345678; mySystemSize := Py.nearest 5;
     sofarProtocol := {[ "EnergyTodayTotals"%string := energy_range;
                         "PVOutput"%string := pv_without_start ]} |}.

(** A network on which every operation succeeds, round after round. *)
Definition willing_network : world :=
  {| connects := repeat [ConnOk] 9; sends := repeat true 18;
     recvs := repeat (RecvChunk (response [1; 244; 0; 50])) 18 |}.

(** The journal entries that record a request going out. *)
Definition is_send (e : event) : bool :=
  match e with
  | EvSend _ => true
  | _ => false
  end.

(** A network on which no connection is ever established. *)
Definition never_connects (w : world) : Prop :=
  Forall (λ addrs, ∃ sock, connect_loop addrs false false = Ok (sock, false)) (connects w).

(** ** The frame a request should be, field by field *)

(** A 32-bit number, low byte first. *)
Definition le32 (v : Z) : bytes :=
  [v mod 256; v / 256 mod 256; v / 65536 mod 256; v / 16777216 mod 256].

(** A 16-bit number, high byte first. *)
Definition be16 (v : Z) : bytes := [v / 256; v mod 256].

(** Function code 3, first register, number of registers. *)
Definition modbus_read (regStart count : Z) : bytes :=
  [0; 3] ++ be16 regStart ++ be16 count.

(** Bytes 0 to 33: start code, length, control code, two zero bytes, the
    serial number, the fixed block, the Modbus request and its CRC. *)
Definition frame_head (sn regStart count : Z) : bytes :=
  [165; 23; 0; 16; 69; 0; 0] ++ le32 sn
  ++ [2; 0; 0; 0; 0; 0; 0; 0; 0; 0; 0; 0; 0; 0; 0]
  ++ modbus_read regStart count
  ++ swapped16 (Crc.modbus (modbus_read regStart count)).

(** The whole frame: the head, its checksum and the end code. *)
Definition request_frame (sn regStart count : Z) : bytes :=
  frame_head sn regStart count
  ++ [byte_sum (drop 1 (frame_head sn regStart count)) mod 256; 21].

(** ** Reading registers *)

(** The four value types the decoder knows. *)
Definition known_type (t : option string) : Prop :=
  t = Some "u16"%string ∨ t = Some "u32"%string ∨ t = Some "i16"%string
  ∨ t = Some "i32"%string.

(** An unsigned number of [bits] bits read as two's complement. *)
Definition twos_complement (bits u : Z) : Z :=
  if 2 ^ (bits - 1) <=? u then u - 2 ^ bits else u.

(** ** The removal loop, read as a pass over the list

    An unknown name is dropped, and the name after it is kept without
    being looked at. *)
Fixpoint drop_and_skip (proto : gmap string RegisterRange) (l : list string)
  : list string :=
  match l with
  | [] => []
  | x :: r =>
      if bool_decide (is_Some (proto !! x)) then x :: drop_and_skip proto r
      else match r with
           | [] => []
           | y :: r' => y :: drop_and_skip proto r'
           end
  end.

(** The bytes an outcome of [recv] brings. *)
Definition chunk_bytes (o : recv_outcome) : bytes :=
  match o with
  | RecvChunk chunk => chunk
  | _ => []
  end.

(** A connected device about to receive one answer and then nothing. *)
Definition listening_device : device :=
  {| _connectedToInverterFlag := true; mySocket := true;
     env := {| connects := []; sends := [];
               recvs := [RecvChunk (response [0; 100; 0; 50]); RecvTimeout] |};
     journal := [] |}.

(** ** The script [sofar2PVO.py]: what it asks for and what it does with
    the answer *)

(** [s.split('.')] *)
Fixpoint split_dot (s : pystr) : list pystr :=
  match s with
  | [] => [[]]
  | c :: r =>
      if Py.code c =? 46 then [] :: split_dot r
      else match split_dot r with
           | h :: t => (c :: h) :: t
           | [] => [[c]]
           end
  end.

Definition allRegRanges : list string :=
  ["GridOutput"; "SystemInfo"; "EnergyTodayTotals"; "PVOutput"]%string.

(** [requiredRegRanges] of the script, before the options are read. *)
Definition script_required : list string :=
  ["GridOutput"; "EnergyTodayTotals"; "PVOutput"]%string.

(** One round of the loop over [pvo_v7] to [pvo_v12], for the value [tmp]
    of the option: a value of the form [range.field] with a range of
    [allRegRanges] adds the range. *)
Definition add_optional (required : list string) (tmp : string) : list string :=
  if isValidString tmp then
    match split_dot (list_ascii_of_string tmp) with
    | [a; _] =>
        if bool_decide (string_of_list_ascii a ∈ allRegRanges)
        then required ++ [string_of_list_ascii a]
        else required
    | _ => required
    end
  else required.

(** The ranges the script asks for, from the values of its six options:
    the loop, then [list(set(...))]. *)
Definition script_ranges (pvo_v : list string) : list string :=
  remove_dups (fold_left add_optional pvo_v script_required).

(** How the script goes on after the poll: it leaves with exit code 1, or
    it uploads. *)
Inductive verdict : Type :=
| Exit1
| Upload (powerTotal : Py.number).

(** [for regRangeName in sofarProtocol: if regRangeName not in
    currentValues: ... sys.exit(1)]: [true] when the loop runs to its end. *)
Fixpoint all_read (keys : list string) (currentValues : poll_output) : bool :=
  match keys with
  | [] => true
  | regRangeName :: rest =>
      if bool_decide (is_Some (currentValues !! regRangeName))
      then all_read rest currentValues
      else false
  end.

(** The script from the poll to the upload, for the system size, the
    range names of the register map and the value the poll returned
    ([None] for [False]). *)
Definition after_poll (size : spec_float) (keys : list string)
    (currentValues : option poll_output) : result verdict :=
  match currentValues with
  | None => Ok Exit1
  | Some cv =>
      if bool_decide (cv = ∅) then Ok Exit1
      else if negb (all_read keys cv) then Ok Exit1
      else
        too_much ← (if Py.gt (Py.Float size) (Py.Int 0) then
                      ett ← subscript cv "EnergyTodayTotals"%string;
                      energy ← subscript ett "PV_Generation_Today"%string;
                      most ← Py.mul (Py.Int 10) (Py.Float size);
                      Ok (Py.gt energy most)
                    else Ok false);
        if (too_much : bool) then Ok Exit1
        else
          pv ← subscript cv "PVOutput"%string;
          p1 ← subscript pv "Power_PV1"%string;
          pv ← subscript cv "PVOutput"%string;
          p2 ← subscript pv "Power_PV2"%string;
          powerTotal ← Py.add p1 p2;
          if Py.lt powerTotal (Py.Int 10) then Ok Exit1
          else
            too_much ← (if Py.gt (Py.Float size) (Py.Int 0) then
                          most ← Py.mul (Py.Int 1200) (Py.Float size);
                          Ok (Py.gt powerTotal most)
                        else Ok false);
            if (too_much : bool) then Ok Exit1
            else Ok (Upload powerTotal)
  end.

(** The range names of a register map. *)
Definition range_names (proto : gmap string RegisterRange) : list string :=
  (map_to_list proto).*1.

(** A register map with the four ranges of the script, and a network
    that answers three requests. *)
Definition system_range : RegisterRange :=
  {| registerStart := Some (lit "0x001B"); registerEnd := Some (lit "0x001B");
     registers := {[ "0x001B"%string := u16_field "Temperature_Env1" None ]} |}.

Definition four_range_config (size : spec_float) : config :=
  {| mySerialNumber := 1712345678; mySystemSize := size;
     sofarProtocol := <[ "SystemInfo"%string := system_range ]> sample_protocol |}.

Definition three_answers : world :=
  {| connects := [[ConnOk]]; sends := [true; true; true];
     recvs := [RecvChunk (response [9; 0]); RecvChunk (response [1; 244]);
               RecvChunk (response [0; 100; 0; 50])] |}.

Definition three_range_poll : device * option poll_output :=
  Eval vm_compute in
    match getRegisterRangeData (four_range_config (Py.nearest 5)) (new_device three_answers)
            (Names script_required) with
    | Ok r => r
    | Raise _ => (new_device three_answers, None)
    end.

(** Whether the first of the addresses of a connection attempt connects. *)
Definition first_connects (addrs : list connect_outcome) : bool :=
  match addrs with
  | ConnOk :: _ => true
  | _ => false
  end.

(** * Properties *)

Example hex_255 : Py.hex 255 = lit "0xff".
Proof. reflexivity. Qed.

Example hex_0 : Py.hex 0 = lit "0x0".
Proof. reflexivity. Qed.

Example hex_neg15 : Py.hex (-15) = lit "-0xf".
Proof. reflexivity. Qed.

Example hex_serial : Py.hex 1712345678 = lit "0x6610524e".
Proof. reflexivity. Qed.

Example int0_hex : Py.int0 (lit "0x0019") = Ok 25.
Proof. reflexivity. Qed.

Example crc_check_value : Crc.modbus (map Py.code (lit "123456789")) = 0x4B37.
Proof. reflexivity. Qed.

Example request_for_first_forty_registers :
  _generateRequest 1712345678
    {| registerStart := Some (lit "0x0000"); registerEnd := Some (lit "0x0027");
       registers := ∅ |}
  = Ok (Some [165; 23; 0; 16; 69; 0; 0; 78; 82; 16; 102; 2; 0; 0; 0; 0; 0; 0;
              0; 0; 0; 0; 0; 0; 0; 0; 0; 3; 0; 0; 0; 40; 68; 5; 248; 21]).
Proof. reflexivity. Qed.

(** * Hexadecimal text *)

Lemma small_cases (d : Z) (P : Z → Prop) :
  0 <= d < 16 →
  P 0 → P 1 → P 2 → P 3 → P 4 → P 5 → P 6 → P 7 →
  P 8 → P 9 → P 10 → P 11 → P 12 → P 13 → P 14 → P 15 → P d.
Proof.
  intros Hd. intros.
  assert (Hc : d = 0 ∨ d = 1 ∨ d = 2 ∨ d = 3 ∨ d = 4 ∨ d = 5 ∨ d = 6 ∨ d = 7 ∨
               d = 8 ∨ d = 9 ∨ d = 10 ∨ d = 11 ∨ d = 12 ∨ d = 13 ∨ d = 14 ∨ d = 15)
    by lia.
  repeat (destruct Hc as [-> | Hc]; [assumption |]). subst d. assumption.
Qed.

Lemma hexval_hexchar (d : Z) : 0 <= d < 16 → Py.hexval (Py.hexchar d) = Some d.
Proof. intros Hd. apply (small_cases d (λ d, Py.hexval (Py.hexchar d) = Some d) Hd); reflexivity. Qed.

Lemma hexchar_no_sign (d : Z) :
  0 <= d < 16 →
  (Py.code (Py.hexchar d) =? 43) || (Py.code (Py.hexchar d) =? 45) = false.
Proof.
  intros Hd.
  apply (small_cases d
    (λ d, (Py.code (Py.hexchar d) =? 43) || (Py.code (Py.hexchar d) =? 45) = false) Hd);
    reflexivity.
Qed.

Lemma hexval_range (c : ascii) (v : Z) : Py.hexval c = Some v → 0 <= v < 16.
Proof.
  unfold Py.hexval. intros H.
  repeat match type of H with
         | (if ?b then _ else _) = _ => destruct b eqn:?
         end; inversion H; subst; lia.
Qed.

Lemma hex_digit_at_is_hex (n : Z) (i : nat) : is_hex_digit (Py.hex_digit_at n i).
Proof.
  exists ((n / 16 ^ Z.of_nat i) mod 16). split; [| reflexivity].
  apply Z.mod_pos_bound. lia.
Qed.

Lemma hex_digits_length (n : Z) : length (Py.hex_digits n) = Py.ndigits n.
Proof. unfold Py.hex_digits. by rewrite length_map, length_rev, length_seq. Qed.

Lemma hex_digits_all_hex (n : Z) : Forall is_hex_digit (Py.hex_digits n).
Proof.
  unfold Py.hex_digits. apply Forall_forall. intros c Hc.
  apply list_elem_of_In, in_map_iff in Hc. destruct Hc as (i & <- & _).
  apply hex_digit_at_is_hex.
Qed.

(** The number of digits, from the size of the number. *)
Lemma ndigits_of_range (n : Z) (k : nat) :
  16 ^ Z.of_nat k <= n < 16 ^ (Z.of_nat k + 1) → Py.ndigits n = S k.
Proof.
  intros [Hlo Hhi]. unfold Py.ndigits. f_equal.
  assert (Hpos : 0 < n) by (pose proof (Z.pow_pos_nonneg 16 (Z.of_nat k)); lia).
  assert (H16 : ∀ m, 0 <= m → 16 ^ m = 2 ^ (4 * m)).
  { intros m Hm. rewrite Z.pow_mul_r by lia. reflexivity. }
  rewrite H16 in Hlo by lia. rewrite H16 in Hhi by lia.
  apply Z.log2_le_pow2 in Hlo; [| lia].
  apply Z.log2_lt_pow2 in Hhi; [| lia].
  assert (Z.of_nat k = Z.log2 n / 4) as <-.
  { apply Z.div_unique with (r := Z.log2 n - 4 * Z.of_nat k); lia. }
  apply Nat2Z.id.
Qed.

Lemma ndigits_zero : Py.ndigits 0 = 1%nat.
Proof. reflexivity. Qed.

Lemma ndigits_at_least_eight (n : Z) : 16 ^ 7 <= n → (8 <= Py.ndigits n)%nat.
Proof.
  intros Hn. unfold Py.ndigits.
  assert (28 <= Z.log2 n).
  { apply Z.log2_le_pow2; [lia |]. change (2 ^ 28) with (16 ^ 7). lia. }
  assert (7 <= Z.log2 n / 4) by (apply Z.div_le_lower_bound; lia).
  lia.
Qed.

(** Four digits, zero-filled: the text of a 16-bit number. *)
Lemma zfill_hex_digits_16bit (v : Z) :
  0 <= v < 65536 →
  Py.zfill 4 (Py.hex_digits v)
  = [Py.hexchar (v / 4096 mod 16); Py.hexchar (v / 256 mod 16);
     Py.hexchar (v / 16 mod 16); Py.hexchar (v mod 16)].
Proof.
  intros Hv.
  assert (Hcase : v = 0 ∨ (16 ^ Z.of_nat 0 <= v < 16 ^ (Z.of_nat 0 + 1))
                  ∨ (16 ^ Z.of_nat 1 <= v < 16 ^ (Z.of_nat 1 + 1))
                  ∨ (16 ^ Z.of_nat 2 <= v < 16 ^ (Z.of_nat 2 + 1))
                  ∨ (16 ^ Z.of_nat 3 <= v < 16 ^ (Z.of_nat 3 + 1))).
  { simpl. lia. }
  unfold Py.hex_digits, Py.hex_digit_at.
  destruct Hcase as [-> | [H | [H | [H | H]]]];
    [ rewrite ndigits_zero | rewrite (ndigits_of_range _ _ H) ..];
    try (simpl in H); simpl rev; simpl map;
    unfold Py.zfill; rewrite ?hexchar_no_sign by (apply Z.mod_pos_bound; lia);
    simpl length; simpl repeat; simpl app;
    change (16 ^ Z.of_nat 0) with 1; change (16 ^ Z.of_nat 1) with 16;
    change (16 ^ Z.of_nat 2) with 256; change (16 ^ Z.of_nat 3) with 4096;
    rewrite ?Z.div_1_r.
  all: rewrite ?(Z.div_small v 4096), ?(Z.div_small v 256), ?(Z.div_small v 16) by lia.
  all: reflexivity.
Qed.

(** * Bytes from hexadecimal text *)

Lemma hexpairs_cons2 (a b : Z) (r : pystr) :
  0 <= a < 16 → 0 <= b < 16 →
  Py.hexpairs (Py.hexchar a :: Py.hexchar b :: r)
  = match Py.hexpairs r with
    | Some bs => Some (16 * a + b :: bs)
    | None => None
    end.
Proof.
  intros Ha Hb. cbn [Py.hexpairs]. by rewrite !hexval_hexchar.
Qed.

Lemma hexpairs_bytes (n : nat) :
  ∀ (s : pystr) (bs : bytes),
    (length s <= n)%nat → Py.hexpairs s = Some bs → Forall is_byte bs.
Proof.
  induction n as [| n IH]; intros s bs Hlen Hs.
  - destruct s; [| simpl in Hlen; lia]. inversion Hs. constructor.
  - destruct s as [| h [| l r]]; simpl in Hs.
    + inversion Hs. constructor.
    + discriminate.
    + destruct (Py.hexval h) as [a |] eqn:Ha; [| discriminate].
      destruct (Py.hexval l) as [b |] eqn:Hb; [| discriminate].
      destruct (Py.hexpairs r) as [bs' |] eqn:Hr; [| discriminate].
      inversion Hs; subst. constructor.
      * apply hexval_range in Ha, Hb. unfold is_byte. lia.
      * apply (IH r); [simpl in Hlen; lia | assumption].
Qed.

(** The two bytes of a 16-bit number in its zero-filled text. *)
Lemma hexpairs_16bit (v : Z) (r : pystr) :
  0 <= v < 65536 →
  Py.hexpairs (Py.zfill 4 (Py.hex_digits v) ++ r)
  = match Py.hexpairs r with
    | Some bs => Some (v / 256 :: v mod 256 :: bs)
    | None => None
    end.
Proof.
  intros Hv. rewrite zfill_hex_digits_16bit by assumption.
  cbn [app].
  rewrite hexpairs_cons2 by (apply Z.mod_pos_bound; lia).
  rewrite hexpairs_cons2 by (apply Z.mod_pos_bound; lia).
  destruct (Py.hexpairs r); [| reflexivity].
  f_equal. f_equal; [| f_equal]; Z.div_mod_to_equations; lia.
Qed.

Lemma hex_nonneg (v : Z) : 0 <= v → Py.hex v = lit "0x" ++ Py.hex_digits v.
Proof. intros Hv. unfold Py.hex. destruct (Z.ltb_spec v 0); [lia | reflexivity]. Qed.

Lemma hex_zfill_16bit (v : Z) :
  0 <= v → Py.slice_from (hex_zfill v) 2 = Py.zfill 4 (Py.hex_digits v).
Proof. intros Hv. unfold hex_zfill. rewrite hex_nonneg by assumption. reflexivity. Qed.

(** Function code, first register and register count, big-endian. *)
Lemma businessfield_of_16bit (regStart regEnd : Z) :
  0 <= regStart < 65536 → 0 <= regEnd - regStart + 1 < 65536 →
  businessfield_of regStart regEnd
  = Ok [0; 3; regStart / 256; regStart mod 256;
        (regEnd - regStart + 1) / 256; (regEnd - regStart + 1) mod 256].
Proof.
  intros Hs Hc. unfold businessfield_of, Py.unhexlify.
  rewrite !hex_zfill_16bit by lia.
  change (lit "0003" ++ ?x) with ("0"%char :: "0"%char :: "0"%char :: "3"%char :: x).
  assert (Hp : ∀ r, Py.hexpairs ("0"%char :: "0"%char :: "0"%char :: "3"%char :: r)
              = match Py.hexpairs r with Some bs => Some (0 :: 3 :: bs) | None => None end).
  { intros r. cbn. destruct (Py.hexpairs r); reflexivity. }
  rewrite Hp, hexpairs_16bit by assumption.
  rewrite <- (app_nil_r (Py.zfill 4 (Py.hex_digits (regEnd - regStart + 1)))).
  rewrite hexpairs_16bit by assumption. reflexivity.
Qed.

(** * The CRC stays within sixteen bits *)

Lemma lxor_below (a b n : Z) :
  0 < n → 0 <= a < 2 ^ n → 0 <= b < 2 ^ n → 0 <= Z.lxor a b < 2 ^ n.
Proof.
  intros Hn Ha Hb.
  assert (Hx : 0 <= Z.lxor a b) by (apply Z.lxor_nonneg; lia).
  split; [assumption |].
  destruct (Z.eq_dec (Z.lxor a b) 0) as [-> | Hne]; [apply Z.pow_pos_nonneg; lia |].
  apply Z.log2_lt_pow2; [lia |].
  eapply Z.le_lt_trans; [apply Z.log2_lxor; lia |].
  assert (La : Z.log2 a < n).
  { destruct (Z.eq_dec a 0) as [-> | ?]; [simpl; lia | apply Z.log2_lt_pow2; lia]. }
  assert (Lb : Z.log2 b < n).
  { destruct (Z.eq_dec b 0) as [-> | ?]; [simpl; lia | apply Z.log2_lt_pow2; lia]. }
  lia.
Qed.

Lemma crc_shift_bound (crc : Z) : 0 <= crc < 65536 → 0 <= Crc.shift crc < 65536.
Proof.
  intros Hc. unfold Crc.shift.
  assert (Hs : 0 <= Z.shiftr crc 1 < 32768).
  { rewrite Z.shiftr_div_pow2 by lia. change (2 ^ 1) with 2.
    Z.div_mod_to_equations; lia. }
  destruct (Z.testbit crc 0); [| lia].
  apply (lxor_below _ _ 16); lia.
Qed.

Lemma crc_update_bound (crc b : Z) :
  0 <= crc < 65536 → is_byte b → 0 <= Crc.update crc b < 65536.
Proof.
  intros Hc Hb. unfold Crc.update. unfold is_byte in Hb.
  assert (H0 : 0 <= Z.lxor crc b < 65536) by (apply (lxor_below _ _ 16); lia).
  simpl Nat.iter. do 8 apply crc_shift_bound. exact H0.
Qed.

Lemma crc_fold_bound (data : bytes) :
  Forall is_byte data → ∀ crc, 0 <= crc < 65536 →
  0 <= fold_left Crc.update data crc < 65536.
Proof.
  induction 1 as [| b data Hb _ IH]; intros crc Hc; simpl; [assumption |].
  apply IH, crc_update_bound; assumption.
Qed.

Lemma modbus_bound (data : bytes) : Forall is_byte data → 0 <= Crc.modbus data < 65536.
Proof. intros H. apply crc_fold_bound; [assumption | lia]. Qed.

(** The CRC field holds the low byte first. *)
Lemma crc_field_bytes (businessfield : bytes) :
  Forall is_byte businessfield →
  crc_field businessfield
  = Ok [Crc.modbus businessfield mod 256; Crc.modbus businessfield / 256].
Proof.
  intros Hb. pose proof (modbus_bound _ Hb) as Hc.
  unfold crc_field, padhex, Py.unhexlify. set (crc := Crc.modbus businessfield) in *.
  rewrite hex_nonneg by lia.
  change (Py.slice_from (lit "0x" ++ Py.hex_digits crc) 2) with (Py.hex_digits crc).
  rewrite zfill_hex_digits_16bit by assumption.
  cbn [lit list_ascii_of_string app Py.slice drop take Nat.sub].
  rewrite hexpairs_cons2 by (apply Z.mod_pos_bound; lia).
  rewrite hexpairs_cons2 by (apply Z.mod_pos_bound; lia).
  cbn [Py.hexpairs]. f_equal. f_equal; [| f_equal]; Z.div_mod_to_equations; lia.
Qed.

(** The serial field of a serial number of eight hexadecimal digits or
    more is four bytes long. *)
Lemma serial_field_bytes (sn : Z) :
  16 ^ 7 <= sn →
  ∃ b0 b1 b2 b3, serial_field sn = Ok [b0; b1; b2; b3]
                 ∧ is_byte b0 ∧ is_byte b1 ∧ is_byte b2 ∧ is_byte b3.
Proof.
  intros Hsn. unfold serial_field, Py.fromhex.
  rewrite hex_nonneg by lia.
  pose proof (ndigits_at_least_eight sn Hsn) as Hlen.
  rewrite <- hex_digits_length in Hlen.
  pose proof (hex_digits_all_hex sn) as Hall.
  destruct (Py.hex_digits sn) as [| c0 [| c1 [| c2 [| c3 [| c4 [| c5 [| c6 [| c7 r]]]]]]]];
    simpl in Hlen; try lia.
  repeat match goal with
         | H : Forall _ (_ :: _) |- _ => inversion H; clear H; subst
         end.
  repeat match goal with
         | H : is_hex_digit _ |- _ => destruct H as (? & ? & ->)
         end.
  cbn [lit list_ascii_of_string app Py.slice drop take Nat.sub].
  change (take 0 r) with (@nil ascii). cbn [app].
  rewrite !hexpairs_cons2 by assumption. cbn [Py.hexpairs].
  do 4 eexists. split; [reflexivity |]. unfold is_byte. lia.
Qed.

(** * Request frames *)

Lemma checksum_loop_seq (rb : bytes) (n : nat) :
  ∀ (a : nat) (acc : Z),
    (a + n <= length rb)%nat →
    checksum_loop rb (seq a n) acc = Ok (acc + masked_sum (take n (drop a rb))).
Proof.
  induction n as [| n IH]; intros a acc Hlen.
  - simpl. by rewrite Z.add_0_r.
  - destruct (lookup_lt_is_Some_2 rb a) as [x Hx]; [lia |].
    cbn [seq checksum_loop]. unfold Py.getitem. rewrite Hx. cbn [mbind result_bind].
    rewrite IH by lia. rewrite (drop_S _ _ _ Hx). cbn [take masked_sum foldr].
    f_equal. fold (masked_sum (take n (drop (S a) rb))). lia.
Qed.

Lemma land_255 (x : Z) : Z.land x 255 = x mod 256.
Proof. change 255 with (Z.ones 8). by rewrite Z.land_ones. Qed.

Lemma masked_sum_mod (bs : bytes) : masked_sum bs mod 256 = byte_sum bs mod 256.
Proof.
  induction bs as [| b bs IH]; [reflexivity |].
  cbn [masked_sum byte_sum foldr].
  fold (masked_sum bs). fold (byte_sum bs).
  rewrite land_255, Z.add_mod, Z.mod_mod, IH, <- Z.add_mod by lia. reflexivity.
Qed.

Lemma checksum_byte (bs : bytes) : Z.land (0 + masked_sum bs) 255 = byte_sum bs mod 256.
Proof. rewrite Z.add_0_l, land_255. apply masked_sum_mod. Qed.

Lemma bind_ok {A B} (a : A) (f : A → result B) : (Ok a ≫= f) = f a.
Proof. reflexivity. Qed.

Lemma unhex_start : Py.unhexlify (lit "A5") = Ok [165].
Proof. reflexivity. Qed.

Lemma unhex_length : Py.unhexlify (lit "1700") = Ok [23; 0].
Proof. reflexivity. Qed.

Lemma unhex_control : Py.unhexlify (lit "1045") = Ok [16; 69].
Proof. reflexivity. Qed.

Lemma unhex_zero : Py.unhexlify (lit "0000") = Ok [0; 0].
Proof. reflexivity. Qed.

Lemma unhex_block :
  Py.unhexlify (lit "020000000000000000000000000000")
  = Ok [2; 0; 0; 0; 0; 0; 0; 0; 0; 0; 0; 0; 0; 0; 0].
Proof. reflexivity. Qed.

Lemma unhex_end : Py.unhexlify (lit "15") = Ok [21].
Proof. reflexivity. Qed.

(** C1, as amended.  For a register range whose start and end are integer
    literals with the start and the register count [end - start + 1] both
    within sixteen bits, and a serial number of at least eight hexadecimal
    digits, [_generateRequest] returns a frame of exactly 36 bytes whose
    byte 34 is the sum of bytes 1 to 33 modulo 256 and whose bytes 32 and 33
    are the CRC-16/MODBUS of bytes 26 to 31, low byte first. *)
Theorem generateRequest_frame_ok (sn : Z) (regRangeDef : RegisterRange)
    (rs re : pystr) (regStart regEnd : Z) :
  registerStart regRangeDef = Some rs →
  registerEnd regRangeDef = Some re →
  Py.int0 rs = Ok regStart →
  Py.int0 re = Ok regEnd →
  0 <= regStart < 65536 →
  0 <= regEnd - regStart + 1 < 65536 →
  0x10000000 <= sn →
  ∃ frame, _generateRequest sn regRangeDef = Ok (Some frame) ∧ frame_ok frame.
Proof.
  intros Hrs Hre Hs He Hstart Hcount Hsn.
  change 0x10000000 with (16 ^ 7) in Hsn.
  destruct (serial_field_bytes sn Hsn) as (b0 & b1 & b2 & b3 & Hser & H0 & H1 & H2 & H3).
  pose proof (businessfield_of_16bit regStart regEnd Hstart Hcount) as Hbf.
  set (bf := [0; 3; regStart / 256; regStart mod 256;
              (regEnd - regStart + 1) / 256; (regEnd - regStart + 1) mod 256]) in *.
  assert (Hbytes : Forall is_byte bf).
  { unfold bf, is_byte. repeat constructor; Z.div_mod_to_equations; lia. }
  pose proof (crc_field_bytes bf Hbytes) as Hcrc.
  pose proof (modbus_bound bf Hbytes) as Hm.
  remember (Crc.modbus bf) as crc eqn:Ecrc.
  assert (Hlo : is_byte (crc mod 256)) by (unfold is_byte; Z.div_mod_to_equations; lia).
  assert (Hhi : is_byte (crc / 256)) by (unfold is_byte; Z.div_mod_to_equations; lia).
  unfold _generateRequest. rewrite Hrs, Hre, Hs.
  rewrite bind_ok, He, bind_ok, unhex_start, bind_ok, unhex_length, bind_ok.
  rewrite unhex_control, bind_ok, unhex_zero, bind_ok, Hser, bind_ok.
  rewrite unhex_block, bind_ok, Hbf, bind_ok, Hcrc, bind_ok.
  subst bf.
  cbn [Py.set_slice Py.bytearray repeat take drop app].
  match goal with
  | |- context [ checksum_loop ?rb _ _ ] =>
      rewrite (checksum_loop_seq rb 33 1 0) by (cbn [length]; lia);
      rewrite bind_ok;
      remember (Z.land (0 + masked_sum (take 33 (drop 1 rb))) 255) as chk eqn:Echk
  end.
  unfold Py.setitem. cbn [length].
  destruct (decide _) as [_ | Hno]; [| lia].
  rewrite bind_ok, unhex_end, bind_ok.
  eexists. split; [reflexivity |].
  rewrite checksum_byte in Echk.
  cbn [take drop] in Echk.
  split.
  - reflexivity.
  - cbn [list_insert insert Py.set_slice Py.slice take drop app Nat.sub lookup list_lookup].
    by rewrite Echk.
  - cbn [list_insert insert Py.set_slice Py.slice take drop app Nat.sub].
    by rewrite <- Ecrc.
Qed.

Lemma generateRequest_frame_ok_witness :
  ∃ frame, _generateRequest 1712345678 pv_range = Ok (Some frame) ∧ frame_ok frame.
Proof.
  apply (generateRequest_frame_ok 1712345678 pv_range (lit "0x000A") (lit "0x000B") 10 11);
    first [reflexivity | lia].
Defined.

(** C1, as stated, fails: a range with both addresses defined, the end
    below the start, makes [_generateRequest] raise instead of returning a
    frame. *)
Lemma generateRequest_inverted_range_raises :
  is_Some (registerStart inverted_range) ∧ is_Some (registerEnd inverted_range)
  ∧ _generateRequest 1712345678 inverted_range = Raise BinasciiError
  ∧ ¬ ∃ frame, _generateRequest 1712345678 inverted_range = Ok (Some frame)
               ∧ frame_ok frame.
Proof.
  assert (H : _generateRequest 1712345678 inverted_range = Raise BinasciiError)
    by reflexivity.
  split; [by eexists |]. split; [by eexists |]. split; [exact H |].
  intros (frame & Hf & _). rewrite H in Hf. discriminate.
Qed.

(** A start address beyond sixteen bits, or a serial number of fewer than
    eight hexadecimal digits, is not turned into a frame either. *)
Example generateRequest_wide_start :
  _generateRequest 1712345678
    {| registerStart := Some (lit "0x10000"); registerEnd := Some (lit "0x10001");
       registers := ∅ |} = Raise BinasciiError.
Proof. reflexivity. Qed.

Example generateRequest_short_serial :
  _generateRequest 0x1234567 pv_range = Raise ValueError
  ∧ _generateRequest 0x1234 pv_range = Raise IndexError.
Proof. split; reflexivity. Qed.

(** * Decoding *)

(** C2 at a failing input: the [u16] register holding [0xFFFF] is stored
    as [-1], not as [65535], and so is the [u32] register holding
    [0xFFFFFFFF]: [signed="False"] is a true value. *)
Theorem unsigned_types_decoded_signed :
  (∃ output,
     parse_data (response [255; 255]) 14 14 frequency_range = Ok output
     ∧ output !! "Frequency"%string = Some (Py.Int (-1)))
  ∧ (∃ output,
       parse_data (response [0; 0; 255; 255; 255; 255]) 14 15 frequency_range = Ok output
       ∧ output !! "Counter"%string = Some (Py.Int (-1))).
Proof. split; eexists; (split; [reflexivity | reflexivity]). Qed.

(** * Normalising the requested ranges *)

(** A list without repetition is its own list of unique names, so the
    statements about [unique_names] cover every order [set] may produce. *)
Lemma unique_names_fixed (l : list string) : NoDup l → unique_names (Names l) = l.
Proof.
  unfold unique_names. cbn [names_of].
  induction 1 as [| x l Hx _ IH]; [reflexivity |].
  cbn [remove_dups]. destruct (decide_rel elem_of x l); [contradiction |].
  by rewrite IH.
Qed.

(** C8 at failing inputs.  Asked for ["GridOutput"] alone, the loop adds
    ["EnergyTodayTotals"] twice and ["PVOutput"] never; asked for two names
    the register map does not have, it drops only one of them, in either
    order. *)
Theorem normalize_misses :
  normalize sample_protocol (unique_names (Names ["GridOutput"%string]))
  = ["GridOutput"; "EnergyTodayTotals"; "EnergyTodayTotals"]%string
  ∧ normalize sample_protocol ["Foo"; "Bar"]%string
    = ["Bar"; "EnergyTodayTotals"; "EnergyTodayTotals"]%string
  ∧ normalize sample_protocol ["Bar"; "Foo"]%string
    = ["Foo"; "EnergyTodayTotals"; "EnergyTodayTotals"]%string.
Proof. repeat split; reflexivity. Qed.

(** * The retry loop *)

(** C4 at the failing input: with ten refused connections in store, the
    poll gives up after nine rounds; the tenth is never tried. *)
Theorem nine_attempts_not_ten :
  match getRegisterRangeData (sample_config (Py.nearest 5)) (new_device dead_network)
          (Names ["GridOutput"; "EnergyTodayTotals"; "PVOutput"]%string) with
  | Ok (d, None) =>
      attempts (journal d) = 9%nat ∧ connects (env d) = [[refused]]
  | _ => False
  end.
Proof. vm_compute. split; reflexivity. Qed.

(** The same count on every network that never connects, whatever is
    requested: nine rounds, each a connection attempt and a sleep. *)
Lemma attempt_never_connects (cfg : config) (names : list string) (d : device) (c : Z) :
  _connectedToInverterFlag d = false →
  never_connects (env d) →
  ∃ d', attempt cfg names d c = Ok (d', None)
        ∧ _connectedToInverterFlag d' = false
        ∧ never_connects (env d')
        ∧ journal d' = journal d ++ [EvTry c; EvSleep 10].
Proof.
  intros Hflag Hnever. unfold attempt, ensure_connected, _connect.
  cbn [emit _connectedToInverterFlag env journal]. rewrite Hflag. cbn [negb].
  assert (Hhead : ∃ sock,
             connect_loop (default [ConnError (Some (lit "Connection refused"))]
                             (head (connects (env d)))) false false = Ok (sock, false)).
  { unfold never_connects in Hnever.
    destruct (connects (env d)) as [| addrs rest]; [by exists true |].
    by inversion Hnever. }
  destruct Hhead as [sock ->]. cbn [mbind result_bind _connectedToInverterFlag negb].
  eexists. split; [reflexivity |]. split; [reflexivity |]. split.
  - unfold never_connects in *. cbn [sleep emit env connects].
    destruct (connects (env d)); [constructor | by inversion Hnever].
  - cbn [sleep emit journal]. by rewrite <- app_assoc.
Qed.

Lemma retry_loop_never_connects (cfg : config) (names : list string) (counters : list Z) :
  ∀ d, _connectedToInverterFlag d = false →
       never_connects (env d) →
       ∃ d', retry_loop cfg names d counters = Ok (d', None)
             ∧ attempts (journal d') = (attempts (journal d) + length counters)%nat.
Proof.
  induction counters as [| c rest IH]; intros d Hflag Hnever.
  - exists d. split; [reflexivity |]. simpl. lia.
  - destruct (attempt_never_connects cfg names d c Hflag Hnever)
      as (d1 & Hatt & Hflag1 & Hnever1 & Hj).
    destruct (IH d1 Hflag1 Hnever1) as (d' & Hrun & Hcount).
    exists d'. cbn [retry_loop]. rewrite Hatt. cbn [mbind result_bind].
    split; [exact Hrun |]. rewrite Hcount, Hj. unfold attempts.
    rewrite List.filter_app, length_app. simpl. lia.
Qed.

Lemma never_connects_nine_attempts (cfg : config) (w : world) (r : requested) :
  never_connects w →
  ∃ d, getRegisterRangeData cfg (new_device w) r = Ok (d, None)
       ∧ attempts (journal d) = 9%nat.
Proof.
  intros Hnever. unfold getRegisterRangeData, poll_from.
  destruct (retry_loop_never_connects cfg
              (normalize (sofarProtocol cfg) (unique_names r))
              (seqZ 1 (maxRetries - 1)) (new_device w) eq_refl Hnever)
    as (d & Hrun & Hcount).
  exists d. split; [exact Hrun |]. rewrite Hcount. reflexivity.
Qed.

(** C7 at a failing input: asked for ["GridOutput"], with every socket
    operation succeeding, the poll ends in a [KeyError]. *)
Theorem key_error_escapes :
  getRegisterRangeData (sample_config (Py.nearest 5)) (new_device answering_network)
    (Names ["GridOutput"%string])
  = Raise KeyError.
Proof. reflexivity. Qed.

(** A connection that times out carries no [strerror]; the log message of
    [_connect] then fails and the [TypeError] leaves the poll. *)
Example connect_timeout_escapes :
  getRegisterRangeData (sample_config (Py.nearest 5))
    (new_device {| connects := [[ConnError None]]; sends := []; recvs := [] |})
    (Names ["GridOutput"; "EnergyTodayTotals"; "PVOutput"]%string)
  = Raise TypeError.
Proof. reflexivity. Qed.

(** * Decoding is total and stops where the payload ends *)

Lemma fits_iff_below (data : bytes) (idx : Z) : fits data idx ↔ idx < fitting data.
Proof. unfold fits, fitting. split; intros H; Z.div_mod_to_equations; lia. Qed.

Lemma parse_loop_stop (data : bytes) (regStart : Z) (def : RegisterRange)
    (idx : Z) (rest : list Z) (output : gmap string Py.number) :
  ¬ fits data idx → parse_loop data regStart def (idx :: rest) output = Ok output.
Proof.
  unfold fits. intros H. cbn [parse_loop].
  destruct (Z.ltb_spec (Z.of_nat (length data)) (28 + idx * 2 + 2)); [reflexivity | lia].
Qed.

Lemma parse_loop_app (data : bytes) (regStart : Z) (def : RegisterRange)
    (l1 l2 : list Z) :
  Forall (fits data) l1 →
  ∀ output, parse_loop data regStart def (l1 ++ l2) output
            = decode_offsets data regStart def l1 output
              ≫= parse_loop data regStart def l2.
Proof.
  induction 1 as [| idx l1 Hidx _ IH]; intros output; [reflexivity |].
  unfold fits in Hidx. cbn [app parse_loop decode_offsets].
  destruct (Z.ltb_spec (Z.of_nat (length data)) (28 + idx * 2 + 2)); [lia |].
  destruct (registers def !! hexpos idx regStart) as [regDef |]; [| apply IH].
  destruct (store_value data idx regDef output) as [output' | e]; [| reflexivity].
  rewrite !bind_ok. apply IH.
Qed.

Lemma seqZ_fits (data : bytes) (m : Z) : m <= fitting data → Forall (fits data) (seqZ 0 m).
Proof.
  intros Hm. apply Forall_forall. intros idx Hidx.
  apply elem_of_seqZ in Hidx. apply fits_iff_below. lia.
Qed.

Lemma bind_ret {A} (m : result A) : (m ≫= Ok) = m.
Proof. by destruct m. Qed.

Lemma bind_stop {A} (m : result A) (f : A → result A) :
  (∀ a, f a = Ok a) → (m ≫= f) = m.
Proof. intros Hf. destruct m as [a | e]; [apply Hf | reflexivity]. Qed.

(** The loop decodes the offsets that fit in the payload and no other,
    and fails where decoding them fails. *)
Lemma parse_data_prefix (data : bytes) (regStart regEnd : Z)
    (regRangeDef : RegisterRange) :
  parse_data data regStart regEnd regRangeDef
  = decode_offsets data regStart regRangeDef
      (seqZ 0 (Z.min (regEnd - regStart + 1) (fitting data))) ∅.
Proof.
  unfold parse_data. set (count := regEnd - regStart + 1).
  destruct (Z.le_gt_cases count (fitting data)) as [Hle | Hgt].
  - rewrite Z.min_l by assumption.
    rewrite <- (app_nil_r (seqZ 0 count)) at 1.
    rewrite parse_loop_app by (by apply seqZ_fits). apply bind_ret.
  - rewrite Z.min_r by lia.
    destruct (Z.le_gt_cases (fitting data) 0) as [Hneg | Hpos].
    + rewrite (seqZ_nil 0 (fitting data)) by lia. cbn [decode_offsets].
      destruct (Z.le_gt_cases count 0) as [Hnone | Hsome].
      * by rewrite seqZ_nil.
      * rewrite (seqZ_cons 0 count) by lia.
        apply parse_loop_stop. rewrite fits_iff_below. lia.
    + replace count with (fitting data + (count - fitting data)) at 1 by lia.
      rewrite seqZ_app by lia.
      rewrite parse_loop_app by (apply seqZ_fits; lia).
      rewrite (seqZ_cons _ (count - fitting data)) by lia.
      apply bind_stop. intros output.
      apply parse_loop_stop. rewrite fits_iff_below. lia.
Qed.

(** ** Integers that are floats *)

Lemma digits2_pos_bound (m : positive) :
  ∀ n, 0 <= n → Zpos m < 2 ^ n → Zpos (digits2_pos m) <= n.
Proof.
  induction m as [m IH | m IH |]; intros n Hn Hm; cbn [digits2_pos].
  - assert (0 < n) by (destruct (Z.eq_dec n 0) as [-> |]; [cbn in Hm |]; lia).
    replace n with (Z.succ (n - 1)) in Hm by lia. rewrite Z.pow_succ_r in Hm by lia.
    specialize (IH (n - 1)). lia.
  - assert (0 < n) by (destruct (Z.eq_dec n 0) as [-> |]; [cbn in Hm |]; lia).
    replace n with (Z.succ (n - 1)) in Hm by lia. rewrite Z.pow_succ_r in Hm by lia.
    specialize (IH (n - 1)). lia.
  - assert (0 < n) by (destruct (Z.eq_dec n 0) as [-> |]; [cbn in Hm |]; lia). lia.
Qed.

Lemma digits2_pos_iter (m k : positive) :
  digits2_pos (Pos.iter xO m k) = (digits2_pos m + k)%positive.
Proof.
  induction k as [| k IH] using Pos.peano_ind.
  - cbn. lia.
  - rewrite Pos.iter_succ. cbn [digits2_pos]. rewrite IH. lia.
Qed.

(** A mantissa of 53 digits is not shifted. *)
Lemma shr_fexp_exact (m : positive) (e : Z) :
  Zpos (digits2_pos m) = 53 → -1074 <= e →
  shr_fexp 53 1024 (Zpos m) e loc_Exact
  = ({| shr_m := Zpos m; shr_r := false; shr_s := false |}, e).
Proof.
  intros Hd He. unfold shr_fexp, fexp, emin. cbn [Zdigits2]. rewrite Hd.
  replace (Z.max (53 + e - 53) (3 - 1024 - 53) - e) with 0 by lia.
  reflexivity.
Qed.

Lemma binary_round_aux_exact (s : bool) (m : positive) (e : Z) :
  Zpos (digits2_pos m) = 53 → -1074 <= e <= 971 →
  binary_round_aux 53 1024 s (Zpos m) e loc_Exact = S754_finite s m e.
Proof.
  intros Hd He. unfold binary_round_aux.
  rewrite shr_fexp_exact by (assumption || lia).
  cbn [shr_m loc_of_shr_record shr_r shr_s round_nearest_even].
  rewrite shr_fexp_exact by (assumption || lia). cbn [shr_m].
  destruct (Z.leb_spec e (1024 - 53)); [reflexivity | lia].
Qed.

Lemma binary_round_small (s : bool) (m : positive) :
  Zpos m < 2 ^ 53 →
  ∃ m' e, binary_round 53 1024 s m 0 = S754_finite s m' e.
Proof.
  intros Hm. pose proof (digits2_pos_bound m 53 ltac:(lia) Hm) as Hd.
  unfold binary_round.
  assert (Hf : fexp 53 1024 (Zpos (digits2_pos m) + 0) = Zpos (digits2_pos m) - 53)
    by (unfold fexp, emin; lia).
  rewrite Hf. unfold shl_align.
  destruct (Zpos (digits2_pos m) - 53 - 0) as [| k | k] eqn:Hk.
  - eexists _, _. apply binary_round_aux_exact; lia.
  - lia.
  - eexists _, _. apply binary_round_aux_exact; [| lia].
    rewrite digits2_pos_iter. lia.
Qed.

(** An integer of fewer than 54 bits is converted without an error. *)
Lemma float_of_int_small (n : Z) :
  - 2 ^ 53 < n < 2 ^ 53 → Py.float_of_int n = Ok (Py.nearest n).
Proof.
  intros Hn. unfold Py.float_of_int, Py.nearest, binary_normalize.
  destruct n as [| m | m]; [reflexivity | |].
  - destruct (binary_round_small false m) as (m' & e & ->); [lia | reflexivity].
  - destruct (binary_round_small true m) as (m' & e & ->); [lia | reflexivity].
Qed.

(** [v * factor] for an integer read from the payload. *)
Lemma mul_factor (v : Z) (regDef : FieldDef) :
  - 2 ^ 53 < v < 2 ^ 53 →
  Py.mul (Py.Int v) (factor_of regDef) = Ok (scaled v regDef).
Proof.
  intros Hv. unfold factor_of, scaled, Py.mul.
  destruct (factor regDef) as [x |].
  - cbn [Py.to_float]. by rewrite float_of_int_small, !bind_ok by exact Hv.
  - by rewrite Z.mul_1_r.
Qed.

(** ** Registers read from bytes *)

Lemma from_bytes_small (signed : bool) (bs : bytes) :
  Forall is_byte bs → (length bs <= 4)%nat →
  - 2 ^ 53 < Py.from_bytes_big signed bs < 2 ^ 53.
Proof.
  intros Hbs Hlen. unfold Py.from_bytes_big, Py.be_value.
  destruct bs as [| b0 [| b1 [| b2 [| b3 [| b4 bs]]]]]; cbn [length] in Hlen; [| | | | | lia];
    repeat match goal with
           | H : Forall is_byte (_ :: _) |- _ => apply Forall_cons in H as [? H]
           end;
    unfold is_byte in *; cbn [fold_left length];
    match goal with
    | |- context [8 * Z.of_nat ?n] =>
        let bits := eval cbv in (8 * Z.of_nat n) in
        change (8 * Z.of_nat n) with bits
    end;
    cbn [Z.sub Z.add Z.opp Z.pos_sub Pos.pred_double Z.pow Z.pow_pos Pos.iter Z.mul Pos.mul
         Z.ltb Z.compare Pos.compare Pos.compare_cont andb];
    destruct signed; cbn [andb];
    repeat match goal with
           | |- context [if ?c <=? ?u then _ else _] => destruct (Z.leb_spec c u)
           end;
    lia.
Qed.

Lemma data_slice_bytes (data : bytes) (a : Z) (w : nat) :
  Forall is_byte data → 0 <= a →
  Forall is_byte (data_slice data a (a + Z.of_nat w))
  ∧ (length (data_slice data a (a + Z.of_nat w)) <= w)%nat.
Proof.
  intros Hdata Ha. unfold data_slice, Py.slice. split.
  - by apply Forall_take, Forall_drop.
  - rewrite length_take. lia.
Qed.

Lemma slice_value_small (data : bytes) (signed : bool) (idx : Z) (w : nat) :
  Forall is_byte data → 0 <= idx → (w <= 4)%nat →
  - 2 ^ 53
  < Py.from_bytes_big signed (data_slice data (28 + idx * 2) (28 + idx * 2 + Z.of_nat w))
  < 2 ^ 53.
Proof.
  intros Hdata Hidx Hw.
  destruct (data_slice_bytes data (28 + idx * 2) w Hdata ltac:(lia)) as [Hb Hl].
  apply from_bytes_small; [exact Hb | lia].
Qed.

(** On a register with a name and a value type, in a payload of bytes,
    storing does not fail, and stores the reading. *)
Lemma store_value_conformant (data : bytes) (idx : Z) (regDef : FieldDef) (n : string)
    (output : gmap string Py.number) :
  Forall is_byte data → 0 <= idx →
  name regDef = Some n → is_Some (valueType regDef) →
  store_value data idx regDef output
  = Ok (match reading data idx regDef with
        | Some val => <[n := val]> output
        | None => output
        end).
Proof.
  intros Hdata Hidx Hname [ty Hty].
  unfold store_value, decode_value, reading. rewrite Hty, Hname.
  cbn [entry]. rewrite bind_ok. unfold truth_of_str. cbn [lit list_ascii_of_string].
  pose proof (slice_value_small data true idx 2 Hdata Hidx ltac:(lia)) as H2.
  pose proof (slice_value_small data true idx 4 Hdata Hidx ltac:(lia)) as H4.
  change (Z.of_nat 2) with 2 in H2. change (Z.of_nat 4) with 4 in H4.
  destruct (String.eqb_spec ty "u16") as [-> | _]; cbn [orb].
  { by rewrite mul_factor, !bind_ok by exact H2. }
  destruct (String.eqb_spec ty "u32") as [-> | _].
  { change (String.eqb "u32" "i16") with false. cbn [orb].
    by rewrite mul_factor, !bind_ok by exact H4. }
  destruct (String.eqb_spec ty "i16") as [-> | _]; cbn [orb].
  { by rewrite mul_factor, !bind_ok by exact H2. }
  destruct (String.eqb_spec ty "i32") as [-> | _]; cbn [orb].
  { by rewrite mul_factor, !bind_ok by exact H4. }
  reflexivity.
Qed.

Lemma decode_offsets_conformant (data : bytes) (regStart : Z) (def : RegisterRange)
    (idxs : list Z) :
  conformant def → Forall is_byte data → Forall (λ idx, 0 <= idx) idxs →
  ∀ output, decode_offsets data regStart def idxs output
            = Ok (stored_offsets data regStart def idxs output).
Proof.
  intros Hdef Hdata. induction 1 as [| idx idxs Hidx _ IH]; intros output; [reflexivity |].
  cbn [decode_offsets stored_offsets].
  destruct (registers def !! hexpos idx regStart) as [regDef |] eqn:Hreg; [| apply IH].
  destruct (Hdef _ _ Hreg) as [[n Hn] Hty].
  rewrite (store_value_conformant data idx regDef n output Hdata Hidx Hn Hty), bind_ok.
  rewrite Hn. destruct (reading data idx regDef); apply IH.
Qed.

Lemma seqZ_nonneg (m : Z) : Forall (λ idx, 0 <= idx) (seqZ 0 m).
Proof. apply Forall_forall. intros idx Hidx. apply elem_of_seqZ in Hidx. lia. Qed.

(** What decoding returns on a conformant range. *)
Lemma parse_data_conformant (data : bytes) (regStart regEnd : Z)
    (regRangeDef : RegisterRange) :
  conformant regRangeDef → Forall is_byte data →
  parse_data data regStart regEnd regRangeDef
  = Ok (stored_offsets data regStart regRangeDef
          (seqZ 0 (Z.min (regEnd - regStart + 1) (fitting data))) ∅).
Proof.
  intros Hdef Hdata. rewrite parse_data_prefix.
  apply decode_offsets_conformant; [exact Hdef | exact Hdata | apply seqZ_nonneg].
Qed.

(** C3 as it is stated fails: a register definition without a value type,
    or one of a known type without a name, makes decoding raise
    [KeyError]. *)
Theorem decoding_raises_on_incomplete_register :
  parse_data (response [0; 1]) 16 16 untyped_range = Raise KeyError
  ∧ parse_data (response [0; 1]) 16 16 unnamed_range = Raise KeyError.
Proof. split; reflexivity. Qed.

(** C3, amended.  On a range definition whose registers carry a name and
    a value type, decoding returns a map for every payload of bytes,
    whatever its length: the map obtained by decoding, in order, the
    offsets of the range that fit in the payload, and nothing from the
    first offset that does not fit, so that cutting the range down to the
    offsets that fit leaves the result as it is. *)
Theorem decoding_total_and_stops (data : bytes) (regStart regEnd : Z)
    (regRangeDef : RegisterRange) :
  conformant regRangeDef →
  Forall is_byte data →
  ∃ output,
    parse_data data regStart regEnd regRangeDef = Ok output
    ∧ decode_offsets data regStart regRangeDef
        (seqZ 0 (Z.min (regEnd - regStart + 1) (fitting data))) ∅ = Ok output
    ∧ parse_data data regStart
        (regStart + Z.min (regEnd - regStart + 1) (fitting data) - 1) regRangeDef
      = Ok output.
Proof.
  intros Hdef Hdata. eexists. split; [by apply parse_data_conformant |]. split.
  - apply decode_offsets_conformant; [exact Hdef | exact Hdata | apply seqZ_nonneg].
  - rewrite parse_data_conformant by assumption. do 3 f_equal. lia.
Qed.

Lemma pv_range_conformant : conformant pv_range.
Proof.
  intros key regDef Hreg. unfold pv_range in Hreg. cbn [registers] in Hreg.
  apply lookup_insert_Some in Hreg as [[_ <-] | [_ Hreg]]; [split; by eexists |].
  apply lookup_singleton_Some in Hreg as [_ <-]. split; by eexists.
Qed.

Lemma response_bytes (values : bytes) : Forall is_byte values → Forall is_byte (response values).
Proof.
  intros H. unfold response. apply Forall_app. split; [| exact H].
  generalize 28%nat. intros k.
  induction k as [| k IH]; cbn [repeat]; constructor; [unfold is_byte; lia | exact IH].
Qed.

Ltac bytes_listed :=
  repeat (apply Forall_cons; split; [unfold is_byte; lia |]); apply Forall_nil_2.

Lemma decoding_total_and_stops_witness :
  ∃ output,
    parse_data (response [0; 100; 7]) 10 11 pv_range = Ok output
    ∧ decode_offsets (response [0; 100; 7]) 10 pv_range
        (seqZ 0 (Z.min (11 - 10 + 1) (fitting (response [0; 100; 7])))) ∅ = Ok output
    ∧ parse_data (response [0; 100; 7]) 10
        (10 + Z.min (11 - 10 + 1) (fitting (response [0; 100; 7])) - 1) pv_range
      = Ok output.
Proof.
  apply (decoding_total_and_stops (response [0; 100; 7]) 10 11 pv_range).
  - apply pv_range_conformant.
  - apply response_bytes. bytes_listed.
Defined.

(** A payload that ends before the first register decodes to nothing. *)
Corollary decoding_short_payload (data : bytes) (regStart regEnd : Z)
    (regRangeDef : RegisterRange) :
  (length data < 30)%nat → parse_data data regStart regEnd regRangeDef = Ok ∅.
Proof.
  intros Hlen. rewrite parse_data_prefix.
  rewrite seqZ_nil; [reflexivity |].
  assert (fitting data <= 0) by (unfold fitting; Z.div_mod_to_equations; lia). lia.
Qed.

Lemma stored_offsets_app (data : bytes) (regStart : Z) (def : RegisterRange)
    (l1 l2 : list Z) :
  ∀ output, stored_offsets data regStart def (l1 ++ l2) output
            = stored_offsets data regStart def l2 (stored_offsets data regStart def l1 output).
Proof.
  induction l1 as [| idx l1 IH]; intros output; [reflexivity |].
  cbn [app stored_offsets].
  destruct (registers def !! hexpos idx regStart) as [regDef |]; [| apply IH].
  destruct (reading data idx regDef), (name regDef); apply IH.
Qed.

(** A 32-bit type reads the four-byte slice, as a signed number. *)
Lemma reading_wide (data : bytes) (idx : Z) (regDef : FieldDef) :
  valueType regDef = Some "u32"%string ∨ valueType regDef = Some "i32"%string →
  reading data idx regDef
  = Some (scaled (Py.from_bytes_big true
                    (data_slice data (28 + idx * 2) (28 + idx * 2 + 4))) regDef).
Proof. unfold reading. intros [-> | ->]; reflexivity. Qed.

(** C10.  A 32-bit register whose position leaves two or three bytes in
    the payload passes the length test, which asks for two bytes only; it
    is decoded from those remaining bytes and stored under its name. *)
Theorem wide_field_from_short_slice (data : bytes) (regStart regEnd idx : Z)
    (regRangeDef : RegisterRange) (regDef : FieldDef) (n : string) :
  conformant regRangeDef →
  Forall is_byte data →
  0 <= idx <= regEnd - regStart →
  registers regRangeDef !! hexpos idx regStart = Some regDef →
  valueType regDef = Some "u32"%string ∨ valueType regDef = Some "i32"%string →
  name regDef = Some n →
  28 + idx * 2 + 2 <= Z.of_nat (length data) < 28 + idx * 2 + 4 →
  let remaining := drop (Z.to_nat (28 + idx * 2)) data in
  (2 <= length remaining < 4)%nat
  ∧ data_slice data (28 + idx * 2) (28 + idx * 2 + 4) = remaining
  ∧ ∃ output,
      parse_data data regStart regEnd regRangeDef = Ok output
      ∧ output !! n = Some (scaled (Py.from_bytes_big true remaining) regDef).
Proof.
  intros Hconf Hdata Hidx Hdef Htype Hname Hlen remaining.
  assert (Hrem : (2 <= length remaining < 4)%nat).
  { unfold remaining. rewrite length_drop. lia. }
  assert (Hslice : data_slice data (28 + idx * 2) (28 + idx * 2 + 4) = remaining).
  { unfold data_slice, Py.slice. fold remaining. apply take_ge. lia. }
  split; [exact Hrem |]. split; [exact Hslice |].
  eexists. split; [by apply parse_data_conformant |].
  assert (Hfit : fitting data = idx + 1)
    by (unfold fitting; Z.div_mod_to_equations; lia).
  rewrite Hfit, Z.min_r by lia.
  rewrite seqZ_app by lia.
  rewrite stored_offsets_app.
  rewrite (seqZ_cons (0 + idx) 1) by lia.
  rewrite (seqZ_nil _ (Z.pred 1)) by lia.
  rewrite Z.add_0_l. cbn [stored_offsets].
  rewrite Hdef, (reading_wide _ _ _ Htype), Hname, Hslice.
  apply lookup_insert_eq.
Qed.

Lemma counter_range_conformant : conformant counter_range.
Proof.
  intros key regDef Hreg. unfold counter_range in Hreg. cbn [registers] in Hreg.
  apply lookup_singleton_Some in Hreg as [_ <-]. split; by eexists.
Qed.

Lemma wide_field_from_short_slice_witness :
  let data := response [1; 2; 3] in
  let remaining := drop (Z.to_nat (28 + 0 * 2)) data in
  (2 <= length remaining < 4)%nat
  ∧ data_slice data (28 + 0 * 2) (28 + 0 * 2 + 4) = remaining
  ∧ ∃ output,
      parse_data data 16 17 counter_range = Ok output
      ∧ output !! "Counter"%string
        = Some (scaled (Py.from_bytes_big true remaining)
                  {| name := Some "Counter"%string; valueType := Some "u32"%string;
                     factor := None |}).
Proof.
  apply (wide_field_from_short_slice (response [1; 2; 3]) 16 17 0 counter_range
           {| name := Some "Counter"%string; valueType := Some "u32"%string;
              factor := None |} "Counter"%string).
  - apply counter_range_conformant.
  - apply response_bytes. bytes_listed.
  - lia.
  - reflexivity.
  - left. reflexivity.
  - reflexivity.
  - simpl. lia.
Defined.

Example wide_field_three_bytes :
  parse_data (response [1; 2; 3]) 16 17 counter_range
  = Ok {[ "Counter"%string := Py.Int 66051 ]}.
Proof. reflexivity. Qed.

(** * Plausibility *)

(** The product of a small [int] and a float is a float product: the
    [int] is converted without an error. *)
Lemma mul_int_float (k : Z) (x : spec_float) :
  - 2 ^ 53 < k < 2 ^ 53 →
  Py.mul (Py.Int k) (Py.Float x) = Ok (Py.Float (Py.fmul (Py.nearest k) x)).
Proof.
  intros Hk. unfold Py.mul. cbn [Py.to_float].
  by rewrite float_of_int_small, !bind_ok by exact Hk.
Qed.

(** The products [10 * self.mySystemSize] and [1200 * self.mySystemSize]. *)
Lemma times_size_limit (k : Z) (cfg : config) :
  - 2 ^ 53 < k < 2 ^ 53 → times_size k cfg = Ok (limit k cfg).
Proof. intros Hk. unfold times_size, limit. by apply mul_int_float. Qed.

(** A size above zero is a true value. *)
Lemma positive_size_true (x : spec_float) :
  Py.gt (Py.Float x) (Py.Int 0) = true → Py.truth (Py.Float x) = true.
Proof. destruct x as [s | s | | s m e]; [discriminate | reflexivity ..]. Qed.

Lemma subscript_some {V} (m : gmap string V) (k : string) (v : V) :
  m !! k = Some v → subscript m k = Ok v.
Proof. unfold subscript. by intros ->. Qed.






(** * What a round returns *)

Lemma fetch_loop_cons_inv (cfg : config) (n : string) (rest : list string)
    (d d' : device) (out out' : poll_output) :
  fetch_loop cfg (n :: rest) d out = Ok (d', out') →
  ∃ def req d1 sent,
    sofarProtocol cfg !! n = Some def
    ∧ _generateRequest (mySerialNumber cfg) def = Ok req
    ∧ sendall d req = (d1, sent)
    ∧ ((sent = false ∧ d' = hang_up d1 ∧ out' = out)
       ∨ (sent = true
          ∧ ∃ d3 r, _readRegisterRange (sleep 1 d1) def = Ok (d3, r)
              ∧ ((∃ vals, r = Some vals ∧ vals ≠ ∅
                          ∧ fetch_loop cfg rest d3 (<[n := vals]> out) = Ok (d', out'))
                 ∨ ((r = None ∨ r = Some ∅) ∧ d' = hang_up d3 ∧ out' = out)))).
Proof.
  cbn [fetch_loop]. unfold subscript.
  destruct (sofarProtocol cfg !! n) as [def |]; [| discriminate].
  cbn [mbind result_bind].
  destruct (_generateRequest (mySerialNumber cfg) def) as [req | e] eqn:Hgen;
    [| discriminate].
  cbn [mbind result_bind].
  destruct (sendall d req) as [d1 sent] eqn:Hsend.
  intros H. exists def, req, d1, sent.
  split; [reflexivity |]. split; [exact Hgen |]. split; [exact Hsend |].
  destruct sent; cbn [negb] in H.
  - right. split; [reflexivity |].
    destruct (_readRegisterRange (sleep 1 d1) def) as [[d3 r] | e]; [| discriminate].
    cbn [mbind result_bind] in H. exists d3, r. split; [reflexivity |].
    destruct r as [vals |].
    + destruct (bool_decide (vals = ∅)) eqn:Hempty.
      * apply bool_decide_eq_true in Hempty. subst vals.
        right. inversion H. auto.
      * apply bool_decide_eq_false in Hempty. left. eauto.
    + right. inversion H. auto.
  - left. inversion H. auto.
Qed.

(** A fetching loop that ends with the flag set has stored every range of
    its list, and has kept what was stored before. *)
Lemma fetch_loop_complete (cfg : config) (names : list string) :
  ∀ (d d' : device) (out out' : poll_output),
    fetch_loop cfg names d out = Ok (d', out') →
    _connectedToInverterFlag d' = true →
    (∀ n, is_Some (out !! n) → is_Some (out' !! n))
    ∧ (∀ n, n ∈ names → is_Some (out' !! n)).
Proof.
  induction names as [| n rest IH]; intros d d' out out' Hrun Hflag.
  - inversion Hrun; subst. split; [auto |]. intros n Hn. by apply elem_of_nil in Hn.
  - apply fetch_loop_cons_inv in Hrun.
    destruct Hrun as (def & req & d1 & sent & _ & _ & _ & Hcase).
    destruct Hcase as [(_ & -> & _) | (_ & d3 & r & _ & Hcase)]; [discriminate |].
    destruct Hcase as [(vals & _ & _ & Hrest) | (_ & -> & _)]; [| discriminate].
    destruct (IH _ _ _ _ Hrest Hflag) as [Hkeep Hall].
    assert (Hn : is_Some (out' !! n)).
    { apply Hkeep. rewrite lookup_insert_eq. by eexists. }
    split.
    + intros m Hm. apply Hkeep.
      destruct (decide (n = m)) as [-> | Hne].
      * rewrite lookup_insert_eq. by eexists.
      * by rewrite lookup_insert_ne.
    + intros m Hm. apply elem_of_cons in Hm as [-> | Hm]; [exact Hn | by apply Hall].
Qed.

Lemma implausible_false (cfg : config) (output : poll_output) (power_total : Py.number) :
  implausible cfg output power_total = Ok false →
  Py.truth (Py.Float (mySystemSize cfg)) = true →
  ∃ ett energy,
    output !! "EnergyTodayTotals"%string = Some ett
    ∧ ett !! "PV_Generation_Today"%string = Some energy
    ∧ Py.gt energy (limit 10 cfg) = false
    ∧ Py.gt power_total (limit 1200 cfg) = false.
Proof.
  unfold implausible, subscript. intros H Hsize. rewrite Hsize in H.
  destruct (output !! "EnergyTodayTotals"%string) as [ett |] eqn:Hett; [| discriminate].
  rewrite bind_ok in H.
  destruct (ett !! "PV_Generation_Today"%string) as [energy |] eqn:Hen; [| discriminate].
  rewrite bind_ok in H.
  rewrite (times_size_limit 10), (times_size_limit 1200), bind_ok in H by lia.
  destruct (Py.gt energy (limit 10 cfg)) eqn:He; [discriminate |].
  rewrite bind_ok in H. injection H as Hp.
  exists ett, energy.
  split; [reflexivity |]. split; [exact Hen |]. by split.
Qed.

Lemma check_and_finish_some (cfg : config) (names : list string) (d d' : device)
    (out out' : poll_output) :
  check_and_finish cfg names d out = Ok (d', Some out') →
  out' = out ∧ checks_passed cfg out.
Proof.
  unfold check_and_finish, subscript. intros H.
  destruct (out !! "PVOutput"%string) as [pv |] eqn:Hpv; [| discriminate].
  cbn [mbind result_bind] in H.
  destruct (pv !! "Power_PV1"%string) as [p1 |] eqn:Hp1; [| discriminate].
  cbn [mbind result_bind] in H.
  destruct (pv !! "Power_PV2"%string) as [p2 |] eqn:Hp2; [| discriminate].
  cbn [mbind result_bind] in H.
  destruct (Py.add p1 p2) as [power_total | e] eqn:Hsum; [| discriminate].
  cbn [mbind result_bind] in H.
  destruct (implausible cfg out power_total) as [[|] | e] eqn:Himp;
    cbn [mbind result_bind] in H; try discriminate.
  injection H as _ <-. split; [reflexivity |].
  exists pv, p1, p2, power_total.
  split; [exact Hpv |]. split; [exact Hp1 |]. split; [exact Hp2 |].
  split; [exact Hsum |].
  intros Hsize. by apply implausible_false.
Qed.

Lemma attempt_some (cfg : config) (names : list string) (d d' : device)
    (retryCounter : Z) (out : poll_output) :
  attempt cfg names d retryCounter = Ok (d', Some out) →
  ∃ d1 d2, fetch_loop cfg names d1 ∅ = Ok (d2, out)
           ∧ _connectedToInverterFlag d2 = true
           ∧ checks_passed cfg out.
Proof.
  unfold attempt. intros H.
  destruct (ensure_connected (emit (EvTry retryCounter) d)) as [d1 | e]; [| discriminate].
  cbn [mbind result_bind] in H.
  destruct (_connectedToInverterFlag d1); cbn [negb] in H; [| discriminate].
  destruct (fetch_loop cfg names d1 ∅) as [[d2 out2] | e] eqn:Hfetch; [| discriminate].
  cbn [mbind result_bind] in H.
  destruct (_connectedToInverterFlag d2) eqn:Hflag; cbn [negb] in H; [| discriminate].
  apply check_and_finish_some in H as [-> Hok].
  exists d1, d2. auto.
Qed.

Lemma retry_loop_some (cfg : config) (names : list string) (counters : list Z) :
  ∀ (d d' : device) (out : poll_output),
    retry_loop cfg names d counters = Ok (d', Some out) →
    ∃ d0 retryCounter, attempt cfg names d0 retryCounter = Ok (d', Some out).
Proof.
  induction counters as [| c rest IH]; intros d d' out H; [discriminate |].
  cbn [retry_loop] in H.
  destruct (attempt cfg names d c) as [[d1 [o |]] | e] eqn:Hatt;
    cbn [mbind result_bind] in H; try discriminate.
  - inversion H; subst. eauto.
  - eauto.
Qed.

(** * The normalised list keeps what the register map knows *)

Lemma list_remove_other (x n : string) (l : list string) :
  n ∈ l → n ≠ x → n ∈ list_remove x l.
Proof.
  induction l as [| y l IH]; intros Hn Hne; [by apply elem_of_nil in Hn |].
  cbn [list_remove]. apply elem_of_cons in Hn. case_bool_decide; subst.
  - destruct Hn as [-> | Hn]; [done | exact Hn].
  - destruct Hn as [-> | Hn]; [left | right; auto].
Qed.

Lemma remove_unknown_loop_keeps (proto : gmap string RegisterRange) (n : string) (fuel : nat) :
  is_Some (proto !! n) →
  ∀ i l, n ∈ l → n ∈ remove_unknown_loop proto fuel i l.
Proof.
  intros Hknown. induction fuel as [| fuel IH]; intros i l Hn; [exact Hn |].
  cbn [remove_unknown_loop]. destruct (l !! i) as [x |]; [| exact Hn].
  case_bool_decide as Hx; apply IH; [exact Hn |].
  apply list_remove_other; [exact Hn |]. intros ->. contradiction.
Qed.

Lemma add_required_keeps (l : list string) (n : string) : n ∈ l → n ∈ add_required l.
Proof.
  intros Hn. unfold add_required, requiredRegRanges. cbn [fold_left].
  repeat case_bool_decide; rewrite ?elem_of_app; auto.
Qed.

Lemma add_required_has_energy (l : list string) :
  "EnergyTodayTotals"%string ∈ add_required l.
Proof.
  unfold add_required, requiredRegRanges. cbn [fold_left].
  cbn [lookup list_lookup default from_option].
  repeat case_bool_decide; rewrite ?elem_of_app, ?list_elem_of_singleton; auto.
Qed.

(** The loop never adds ["PVOutput"]: it is in the list afterwards only
    if it was there before. *)
Lemma add_required_never_adds_pv (l : list string) :
  "PVOutput"%string ∈ add_required l → "PVOutput"%string ∈ l.
Proof.
  assert (Hstep : ∀ l' : list string,
             "PVOutput"%string ∈ l' ++ ["EnergyTodayTotals"%string] →
             "PVOutput"%string ∈ l').
  { intros l' Hin. apply elem_of_app in Hin as [Hin | Hin]; [exact Hin |].
    apply list_elem_of_singleton in Hin. discriminate. }
  unfold add_required, requiredRegRanges. cbn [fold_left].
  cbn [lookup list_lookup default from_option].
  repeat case_bool_decide; intros Hpv; repeat apply Hstep in Hpv; exact Hpv.
Qed.

Lemma normalize_keeps (proto : gmap string RegisterRange) (uniq : list string) (n : string) :
  n ∈ uniq → is_Some (proto !! n) → n ∈ normalize proto uniq.
Proof.
  intros Hn Hknown. unfold normalize, remove_unknown.
  by apply remove_unknown_loop_keeps, add_required_keeps.
Qed.

(** More rounds than the list is long change nothing: the fuel of
    [remove_unknown] is enough. *)
Lemma remove_unknown_loop_fuel (proto : gmap string RegisterRange) (fuel : nat) :
  ∀ i l extra, (length l <= i + fuel)%nat →
    remove_unknown_loop proto (fuel + extra) i l = remove_unknown_loop proto fuel i l.
Proof.
  induction fuel as [| fuel IH]; intros i l extra Hlen.
  - cbn [Nat.add remove_unknown_loop]. destruct extra; [reflexivity |].
    cbn [remove_unknown_loop]. by rewrite lookup_ge_None_2 by lia.
  - cbn [Nat.add remove_unknown_loop]. destruct (l !! i) as [x |] eqn:Hx; [| reflexivity].
    case_bool_decide; apply IH; [lia |].
    assert (length (list_remove x l) <= length l)%nat; [| lia].
    clear. induction l as [| y l IHl]; [reflexivity |].
    cbn [list_remove]. case_bool_decide; simpl; lia.
Qed.

(** C6 as it is stated fails: with a register map that does not define
    ["EnergyTodayTotals"] and a system size of zero, the poll returns a
    result without that range, which the plausibility test requires. *)
Theorem result_without_energy_totals :
  getRegisterRangeData pv_only_config (new_device one_answer) (Names ["PVOutput"%string])
  = Ok (pv_only_poll.1, Some pv_only_poll.2)
  ∧ pv_only_poll.2 !! "EnergyTodayTotals"%string = None
  ∧ is_Some (pv_only_poll.2 !! "PVOutput"%string).
Proof. split; [vm_compute; reflexivity |]. split; [reflexivity | by eexists]. Qed.

(** C6, amended.  A result that [getRegisterRangeData] returns holds every
    range of the normalised list the rounds work on, hence every requested
    range the register map knows and ["EnergyTodayTotals"] when the map
    knows it; it holds ["PVOutput"] with both power fields and has passed
    the plausibility test.  Any other outcome returns no data at all. *)
Theorem poll_result_complete (cfg : config) (d d' : device) (r : requested)
    (output : poll_output) :
  getRegisterRangeData cfg d r = Ok (d', Some output) →
  (∀ n, n ∈ normalize (sofarProtocol cfg) (unique_names r) → is_Some (output !! n))
  ∧ (∀ n, n ∈ names_of r → is_Some (sofarProtocol cfg !! n) → is_Some (output !! n))
  ∧ (is_Some (sofarProtocol cfg !! "EnergyTodayTotals"%string) →
     is_Some (output !! "EnergyTodayTotals"%string))
  ∧ checks_passed cfg output.
Proof.
  unfold getRegisterRangeData, poll_from. intros Hpoll.
  apply retry_loop_some in Hpoll as (d0 & c & Hatt).
  apply attempt_some in Hatt as (d1 & d2 & Hfetch & Hflag & Hok).
  destruct (fetch_loop_complete _ _ _ _ _ _ Hfetch Hflag) as [_ Hall].
  split; [exact Hall |]. split; [| split; [| exact Hok]].
  - intros n Hn Hknown. apply Hall, normalize_keeps; [| exact Hknown].
    unfold unique_names. by apply elem_of_remove_dups.
  - intros Hknown. apply Hall. unfold normalize, remove_unknown.
    apply remove_unknown_loop_keeps; [exact Hknown |]. apply add_required_has_energy.
Qed.

Lemma poll_result_complete_witness :
  (∀ n, n ∈ normalize sample_protocol (unique_names (Names ["PVOutput"%string])) →
        is_Some (five_kwh_poll.2 !! n))
  ∧ (∀ n, n ∈ names_of (Names ["PVOutput"%string]) → is_Some (sample_protocol !! n) →
          is_Some (five_kwh_poll.2 !! n))
  ∧ (is_Some (sample_protocol !! "EnergyTodayTotals"%string) →
     is_Some (five_kwh_poll.2 !! "EnergyTodayTotals"%string))
  ∧ checks_passed (sample_config (Py.nearest 5)) five_kwh_poll.2.
Proof.
  apply (poll_result_complete (sample_config (Py.nearest 5)) (new_device five_kwh_network)
           five_kwh_poll.1 (Names ["PVOutput"%string]) five_kwh_poll.2).
  vm_compute. reflexivity.
Defined.

Example five_kwh_poll_fields :
  five_kwh_poll.2 !! "PVOutput"%string
  = Some {[ "Power_PV1"%string := Py.Float (Py.nearest 1000);
            "Power_PV2"%string := Py.Float (Py.nearest 500) ]}
  ∧ five_kwh_poll.2 !! "EnergyTodayTotals"%string
    = Some {[ "PV_Generation_Today"%string := Py.Float (Py.nearest 5) ]}.
Proof. split; vm_compute; reflexivity. Qed.

(** * A poll that was not asked for ["PVOutput"] *)

Lemma list_remove_subset (x n : string) (l : list string) :
  n ∈ list_remove x l → n ∈ l.
Proof.
  induction l as [| y l IH]; [done |].
  cbn [list_remove]. case_bool_decide; rewrite !elem_of_cons; [auto |].
  intros [-> | Hn]; auto.
Qed.

Lemma remove_unknown_loop_subset (proto : gmap string RegisterRange) (n : string)
    (fuel : nat) :
  ∀ i l, n ∈ remove_unknown_loop proto fuel i l → n ∈ l.
Proof.
  induction fuel as [| fuel IH]; intros i l Hn; [exact Hn |].
  cbn [remove_unknown_loop] in Hn. destruct (l !! i) as [x |]; [| exact Hn].
  case_bool_decide; apply IH in Hn; [exact Hn |].
  by apply list_remove_subset in Hn.
Qed.

(** The fetching loop stores ranges of its list only. *)
Lemma fetch_loop_keys (cfg : config) (names : list string) :
  ∀ (d d' : device) (out out' : poll_output),
    fetch_loop cfg names d out = Ok (d', out') →
    ∀ n, is_Some (out' !! n) → is_Some (out !! n) ∨ n ∈ names.
Proof.
  induction names as [| m rest IH]; intros d d' out out' Hrun n Hn.
  - injection Hrun as _ <-. by left.
  - apply fetch_loop_cons_inv in Hrun.
    destruct Hrun as (def & req & d1 & sent & _ & _ & _ & Hcase).
    destruct Hcase as [(_ & _ & ->) | (_ & d3 & r & _ & Hcase)]; [by left |].
    destruct Hcase as [(vals & _ & _ & Hrest) | (_ & _ & ->)]; [| by left].
    destruct (IH _ _ _ _ Hrest n Hn) as [Hin | Hin].
    + destruct (decide (m = n)) as [-> | Hne]; [right; left |].
      rewrite lookup_insert_ne in Hin by exact Hne. by left.
    + right. by right.
Qed.

(** Since the normalisation never adds ["PVOutput"], a poll that was not
    asked for it cannot return data: a round that fetches everything ends
    at [output['PVOutput']]. *)
Lemma poll_without_pv_returns_nothing (cfg : config) (d d' : device) (r : requested)
    (output : poll_output) :
  "PVOutput"%string ∉ names_of r →
  getRegisterRangeData cfg d r ≠ Ok (d', Some output).
Proof.
  intros Hnot Hpoll. unfold getRegisterRangeData, poll_from in Hpoll.
  apply retry_loop_some in Hpoll as (d0 & c & Hatt).
  apply attempt_some in Hatt as (d1 & d2 & Hfetch & _ & (pv & _ & _ & _ & Hpv & _)).
  destruct (fetch_loop_keys _ _ _ _ _ _ Hfetch "PVOutput"%string) as [Hin | Hin].
  - by eexists.
  - rewrite lookup_empty in Hin. by destruct Hin.
  - apply Hnot. unfold normalize, remove_unknown in Hin.
    apply remove_unknown_loop_subset, add_required_never_adds_pv in Hin.
    unfold unique_names in Hin. rewrite elem_of_remove_dups in Hin. exact Hin.
Qed.

(** * A range without its bounds *)

Lemma generateRequest_without_bounds (sn : Z) (def : RegisterRange) :
  registerStart def = None ∨ registerEnd def = None →
  _generateRequest sn def = Ok None.
Proof.
  unfold _generateRequest. intros [-> | ->]; [reflexivity |].
  by destruct (registerStart def).
Qed.

Lemma fetch_loop_without_bounds (cfg : config) (bad : string) (def : RegisterRange) :
  sofarProtocol cfg !! bad = Some def →
  registerStart def = None ∨ registerEnd def = None →
  ∀ rest d output, fetch_loop cfg (bad :: rest) d output = Ok (hang_up d, output).
Proof.
  intros Hdef Hmiss rest d output. cbn [fetch_loop]. unfold subscript.
  rewrite Hdef. cbn [mbind result_bind].
  rewrite (generateRequest_without_bounds _ _ Hmiss). reflexivity.
Qed.

(** A fetching loop whose list holds such a range ends with the flag
    cleared. *)
Lemma fetch_loop_flag_cleared (cfg : config) (bad : string) (def : RegisterRange) :
  sofarProtocol cfg !! bad = Some def →
  registerStart def = None ∨ registerEnd def = None →
  ∀ names d d' out out',
    bad ∈ names →
    fetch_loop cfg names d out = Ok (d', out') →
    _connectedToInverterFlag d' = false.
Proof.
  intros Hdef Hmiss names.
  induction names as [| n rest IH]; intros d d' out out' Hin Hrun;
    [by apply elem_of_nil in Hin |].
  destruct (decide (n = bad)) as [-> | Hne].
  - rewrite (fetch_loop_without_bounds _ _ _ Hdef Hmiss) in Hrun.
    by injection Hrun as <- _.
  - apply elem_of_cons in Hin as [-> | Hin]; [done |].
    apply fetch_loop_cons_inv in Hrun.
    destruct Hrun as (def' & req & d1 & sent & _ & _ & _ & Hcase).
    destruct Hcase as [(_ & -> & _) | (_ & d3 & r & _ & Hcase)]; [reflexivity |].
    destruct Hcase as [(vals & _ & _ & Hrest) | (_ & -> & _)]; [| reflexivity].
    by apply (IH _ _ _ _ Hin Hrest).
Qed.

(** C9, as amended.  For a range definition that lacks its start or its
    end address, [_generateRequest] returns [False] instead of a frame; the
    fetching loop leaves at that range, closing the socket and clearing the
    flag without sending anything and without visiting the ranges that
    follow; and a poll whose list of ranges holds such a range never
    returns data. *)
Theorem missing_bound_ends_round (cfg : config) (bad : string) (def : RegisterRange) :
  sofarProtocol cfg !! bad = Some def →
  registerStart def = None ∨ registerEnd def = None →
  _generateRequest (mySerialNumber cfg) def = Ok None
  ∧ (∀ rest d output, fetch_loop cfg (bad :: rest) d output = Ok (hang_up d, output))
  ∧ (∀ names d counters d' output,
       bad ∈ names → retry_loop cfg names d counters ≠ Ok (d', Some output)).
Proof.
  intros Hdef Hmiss.
  split; [by apply generateRequest_without_bounds |].
  split; [by apply (fetch_loop_without_bounds cfg bad def) |].
  intros names d counters d' output Hin Hpoll.
  apply retry_loop_some in Hpoll as (d0 & c & Hatt).
  apply attempt_some in Hatt as (d1 & d2 & Hfetch & Hflag & _).
  rewrite (fetch_loop_flag_cleared cfg bad def Hdef Hmiss _ _ _ _ _ Hin Hfetch) in Hflag.
  discriminate.
Qed.

Lemma missing_bound_ends_round_witness :
  _generateRequest (mySerialNumber damaged_config) pv_without_start = Ok None
  ∧ (∀ rest d output,
       fetch_loop damaged_config ("PVOutput"%string :: rest) d output
       = Ok (hang_up d, output))
  ∧ (∀ names d counters d' output,
       "PVOutput"%string ∈ names →
       retry_loop damaged_config names d counters ≠ Ok (d', Some output)).
Proof.
  apply (missing_bound_ends_round damaged_config "PVOutput"%string pv_without_start).
  - reflexivity.
  - left. reflexivity.
Defined.

(** C9, as stated, fails: the poll works on ["PVOutput"] and then
    ["EnergyTodayTotals"]; the first has no start address, and although
    the network answers everything, no request is ever sent, for
    ["EnergyTodayTotals"] or otherwise, and the poll returns no data. *)
Lemma missing_bound_stops_other_ranges :
  normalize (sofarProtocol damaged_config) (unique_names (Names ["PVOutput"%string]))
  = ["PVOutput"; "EnergyTodayTotals"]%string
  ∧ _generateRequest (mySerialNumber damaged_config) energy_range
    = Ok (Some [165; 23; 0; 16; 69; 0; 0; 78; 82; 16; 102; 2; 0; 0; 0; 0; 0; 0;
                0; 0; 0; 0; 0; 0; 0; 0; 0; 3; 0; 25; 0; 1; 84; 28; 17; 21])
  ∧ match getRegisterRangeData damaged_config (new_device willing_network)
            (Names ["PVOutput"%string]) with
    | Ok (d, None) => existsb is_send (journal d) = false
    | _ => False
    end.
Proof.
  split; [reflexivity |]. split; [reflexivity |].
  vm_compute. reflexivity.
Qed.

(** * The request frame, field by field *)

Lemma hex_digits_of_length (n : Z) (k : nat) :
  16 ^ Z.of_nat k <= n < 16 ^ (Z.of_nat k + 1) →
  Py.hex_digits n = map (Py.hex_digit_at n) (rev (seq 0 (S k))).
Proof. intros H. unfold Py.hex_digits. by rewrite (ndigits_of_range n k H). Qed.

(** Two neighbouring hexadecimal digits are one byte of the number. *)
Lemma digit_pair_byte (n j : Z) :
  0 <= n → 0 <= j →
  16 * (n / 16 ^ (2 * j + 1) mod 16) + n / 16 ^ (2 * j) mod 16 = n / 256 ^ j mod 256.
Proof.
  intros Hn Hj.
  replace (16 ^ (2 * j)) with (256 ^ j) by (rewrite Z.pow_mul_r by lia; reflexivity).
  replace (16 ^ (2 * j + 1)) with (256 ^ j * 16)
    by (rewrite Z.pow_add_r, Z.pow_mul_r by lia; reflexivity).
  rewrite <- Z.div_div by (try apply Z.pow_pos_nonneg; lia).
  generalize (n / 256 ^ j). intros m. Z.div_mod_to_equations. lia.
Qed.

Lemma serial_field_eight_digits (sn : Z) :
  0x10000000 <= sn < 0x100000000 → serial_field sn = Ok (le32 sn).
Proof.
  intros Hsn. unfold serial_field, Py.fromhex.
  rewrite hex_nonneg by lia.
  rewrite (hex_digits_of_length sn 7) by (simpl; lia).
  cbn [seq rev app map lit list_ascii_of_string Py.slice drop take Nat.sub].
  unfold Py.hex_digit_at.
  rewrite !hexpairs_cons2 by (apply Z.mod_pos_bound; lia). cbn [Py.hexpairs].
  change (Z.of_nat 0) with (2 * 0); change (Z.of_nat 1) with (2 * 0 + 1).
  change (Z.of_nat 2) with (2 * 1); change (Z.of_nat 3) with (2 * 1 + 1).
  change (Z.of_nat 4) with (2 * 2); change (Z.of_nat 5) with (2 * 2 + 1).
  change (Z.of_nat 6) with (2 * 3); change (Z.of_nat 7) with (2 * 3 + 1).
  rewrite !digit_pair_byte by lia.
  unfold le32. change (256 ^ 0) with 1. rewrite Z.div_1_r. reflexivity.
Qed.

Lemma serial_field_six_digits (sn : Z) :
  0x100000 <= sn < 0x1000000 →
  serial_field sn = Ok [sn mod 256; sn / 256 mod 256; sn / 65536 mod 256]
  ∧ le32 sn = [sn mod 256; sn / 256 mod 256; sn / 65536 mod 256; 0].
Proof.
  intros Hsn. split.
  - unfold serial_field, Py.fromhex.
    rewrite hex_nonneg by lia.
    rewrite (hex_digits_of_length sn 5) by (simpl; lia).
    cbn [seq rev app map lit list_ascii_of_string Py.slice drop take Nat.sub].
    unfold Py.hex_digit_at.
    rewrite !hexpairs_cons2 by (apply Z.mod_pos_bound; lia). cbn [Py.hexpairs].
    change (Z.of_nat 0) with (2 * 0); change (Z.of_nat 1) with (2 * 0 + 1).
    change (Z.of_nat 2) with (2 * 1); change (Z.of_nat 3) with (2 * 1 + 1).
    change (Z.of_nat 4) with (2 * 2); change (Z.of_nat 5) with (2 * 2 + 1).
    rewrite !digit_pair_byte by lia.
    change (256 ^ 0) with 1. rewrite Z.div_1_r. reflexivity.
  - unfold le32. do 3 f_equal. rewrite Z.div_small by lia. reflexivity.
Qed.

(** The steps of [_generateRequest] up to the checksum, once its three
    computed fields are known. *)
Ltac run_request Hrs Hre Hs He Hser Hbf Hcrc :=
  unfold _generateRequest; rewrite Hrs, Hre, Hs;
  rewrite bind_ok, He, bind_ok, unhex_start, bind_ok, unhex_length, bind_ok;
  rewrite unhex_control, bind_ok, unhex_zero, bind_ok, Hser, bind_ok;
  rewrite unhex_block, bind_ok, Hbf, bind_ok, Hcrc, bind_ok;
  cbn [Py.set_slice Py.bytearray repeat take drop app];
  match goal with
  | |- context [ checksum_loop ?rb _ _ ] =>
      rewrite (checksum_loop_seq rb 33 1 0) by (cbn [length]; lia);
      rewrite bind_ok, checksum_byte
  end;
  unfold Py.setitem; cbn [length].

Section assembling.

Variables (sn : Z) (regRangeDef : RegisterRange) (rs re : pystr) (regStart regEnd : Z).
Hypothesis Hrs : registerStart regRangeDef = Some rs.
Hypothesis Hre : registerEnd regRangeDef = Some re.
Hypothesis Hs : Py.int0 rs = Ok regStart.
Hypothesis He : Py.int0 re = Ok regEnd.
Hypothesis Hstart : 0 <= regStart < 65536.
Hypothesis Hcount : 0 <= regEnd - regStart + 1 < 65536.

Let count := regEnd - regStart + 1.

Lemma modbus_read_fields :
  businessfield_of regStart regEnd = Ok (modbus_read regStart count)
  ∧ crc_field (modbus_read regStart count)
    = Ok (swapped16 (Crc.modbus (modbus_read regStart count))).
Proof.
  split; [by apply businessfield_of_16bit |].
  apply crc_field_bytes. unfold modbus_read, be16, is_byte. cbn [app].
  repeat constructor; subst count; Z.div_mod_to_equations; lia.
Qed.

Lemma assemble_four (b0 b1 b2 b3 : Z) :
  serial_field sn = Ok [b0; b1; b2; b3] →
  let head := [165; 23; 0; 16; 69; 0; 0; b0; b1; b2; b3]
              ++ [2; 0; 0; 0; 0; 0; 0; 0; 0; 0; 0; 0; 0; 0; 0]
              ++ modbus_read regStart count
              ++ swapped16 (Crc.modbus (modbus_read regStart count)) in
  _generateRequest sn regRangeDef
  = Ok (Some (head ++ [byte_sum (drop 1 head) mod 256; 21])).
Proof.
  intros Hser head. destruct modbus_read_fields as [Hbf Hcrc].
  subst head. revert Hbf Hcrc.
  generalize (Crc.modbus (modbus_read regStart count)). intros crc.
  unfold modbus_read, be16, swapped16. cbn [app]. intros Hbf Hcrc.
  run_request Hrs Hre Hs He Hser Hbf Hcrc.
  destruct (decide _) as [_ | Hno]; [| lia].
  rewrite bind_ok, unhex_end, bind_ok. reflexivity.
Qed.

Lemma assemble_three (b0 b1 b2 : Z) :
  serial_field sn = Ok [b0; b1; b2] →
  let head := [165; 23; 0; 16; 69; 0; 0; b0; b1; b2; 0]
              ++ [2; 0; 0; 0; 0; 0; 0; 0; 0; 0; 0; 0; 0; 0; 0]
              ++ modbus_read regStart count
              ++ swapped16 (Crc.modbus (modbus_read regStart count)) in
  _generateRequest sn regRangeDef
  = Ok (Some (head ++ [byte_sum (drop 1 head) mod 256; 21])).
Proof.
  intros Hser head. destruct modbus_read_fields as [Hbf Hcrc].
  subst head. revert Hbf Hcrc.
  generalize (Crc.modbus (modbus_read regStart count)). intros crc.
  unfold modbus_read, be16, swapped16. cbn [app]. intros Hbf Hcrc.
  run_request Hrs Hre Hs He Hser Hbf Hcrc.
  destruct (decide _) as [_ | Hno]; [| lia].
  rewrite bind_ok, unhex_end, bind_ok. reflexivity.
Qed.

Lemma assemble_two (b0 b1 : Z) :
  serial_field sn = Ok [b0; b1] → _generateRequest sn regRangeDef = Raise IndexError.
Proof.
  intros Hser. destruct modbus_read_fields as [Hbf Hcrc].
  revert Hbf Hcrc.
  generalize (Crc.modbus (modbus_read regStart count)). intros crc.
  unfold modbus_read, be16, swapped16. cbn [app]. intros Hbf Hcrc.
  run_request Hrs Hre Hs He Hser Hbf Hcrc.
  destruct (decide _) as [Hyes | _]; [lia | reflexivity].
Qed.

Lemma assemble_one (b0 : Z) :
  serial_field sn = Ok [b0] → _generateRequest sn regRangeDef = Raise IndexError.
Proof.
  intros Hser. destruct modbus_read_fields as [Hbf Hcrc].
  revert Hbf Hcrc.
  generalize (Crc.modbus (modbus_read regStart count)). intros crc.
  unfold modbus_read, be16, swapped16. cbn [app]. intros Hbf Hcrc.
  run_request Hrs Hre Hs He Hser Hbf Hcrc.
  destruct (decide _) as [Hyes | _]; [lia | reflexivity].
Qed.

End assembling.

(** X1.  For a range within sixteen bits and a serial number of eight or
    of six hexadecimal digits, the frame is the fixed layout: start code,
    length, control code, two zero bytes, the serial number low byte
    first, the fixed block, function code 3 with first register and
    register count high byte first, the CRC low byte first, the checksum
    and the end code. *)
Theorem generateRequest_layout (sn : Z) (regRangeDef : RegisterRange)
    (rs re : pystr) (regStart regEnd : Z) :
  registerStart regRangeDef = Some rs →
  registerEnd regRangeDef = Some re →
  Py.int0 rs = Ok regStart →
  Py.int0 re = Ok regEnd →
  0 <= regStart < 65536 →
  0 <= regEnd - regStart + 1 < 65536 →
  0x10000000 <= sn < 0x100000000 ∨ 0x100000 <= sn < 0x1000000 →
  _generateRequest sn regRangeDef
  = Ok (Some (request_frame sn regStart (regEnd - regStart + 1))).
Proof.
  intros Hrs Hre Hs He Hstart Hcount [Hsn | Hsn].
  - rewrite (assemble_four sn regRangeDef rs re regStart regEnd Hrs Hre Hs He Hstart Hcount
               _ _ _ _ (serial_field_eight_digits sn Hsn)).
    reflexivity.
  - destruct (serial_field_six_digits sn Hsn) as [Hser Hle].
    rewrite (assemble_three sn regRangeDef rs re regStart regEnd Hrs Hre Hs He Hstart Hcount
               _ _ _ Hser).
    unfold request_frame, frame_head. rewrite Hle. reflexivity.
Qed.

Lemma generateRequest_layout_witness :
  _generateRequest 1712345678 pv_range = Ok (Some (request_frame 1712345678 10 (11 - 10 + 1))).
Proof.
  apply (generateRequest_layout 1712345678 pv_range (lit "0x000A") (lit "0x000B") 10 11);
    first [reflexivity | lia].
Defined.

(** * Serial numbers that give no frame *)

Lemma bind_raise {A B} (e : exn) (f : A → result B) : (Raise e ≫= f) = Raise e.
Proof. reflexivity. Qed.

Lemma hexpairs_odd (n : nat) :
  ∀ s : pystr, (length s <= n)%nat → Nat.Odd (length s) → Py.hexpairs s = None.
Proof.
  induction n as [| n IH]; intros s Hlen Hodd.
  - destruct s; [| simpl in Hlen; lia]. destruct Hodd as [m Hm]. simpl in Hm. lia.
  - destruct s as [| h [| l r]]; [destruct Hodd as [m Hm]; simpl in Hm; lia | reflexivity |].
    cbn [Py.hexpairs]. rewrite (IH r).
    + by destruct (Py.hexval h), (Py.hexval l).
    + simpl in Hlen. lia.
    + destruct Hodd as [m Hm]. simpl in Hm. exists (m - 1)%nat. lia.
Qed.

Lemma hexpairs_hex_only (n : nat) :
  ∀ (s : pystr) (bs : bytes),
    (length s <= n)%nat → Py.hexpairs s = Some bs → Forall (λ c, is_Some (Py.hexval c)) s.
Proof.
  induction n as [| n IH]; intros s bs Hlen Hs.
  - destruct s; [constructor | simpl in Hlen; lia].
  - destruct s as [| h [| l r]]; [constructor | discriminate |].
    cbn [Py.hexpairs] in Hs.
    destruct (Py.hexval h) eqn:Hh; [| discriminate].
    destruct (Py.hexval l) eqn:Hl; [| discriminate].
    destruct (Py.hexpairs r) as [bs' |] eqn:Hr; [| discriminate].
    repeat constructor; [by rewrite Hh | by rewrite Hl |].
    apply (IH r bs'); [simpl in Hlen; lia | exact Hr].
Qed.

(** Below zero, [hex] starts with a minus sign and the letter [x] ends up
    among the digits. *)
Lemma serial_field_negative (sn : Z) : sn < 0 → serial_field sn = Raise ValueError.
Proof.
  intros Hsn. unfold serial_field, Py.fromhex, Py.hex.
  destruct (Z.ltb_spec sn 0); [| lia].
  destruct (Py.hexpairs _) as [bs |] eqn:Hp; [| reflexivity].
  apply (hexpairs_hex_only _ _ _ (le_n _)) in Hp.
  rewrite !Forall_app in Hp. destruct Hp as (_ & _ & _ & Hx).
  cbn [lit list_ascii_of_string app Py.slice drop take Nat.sub] in Hx.
  inversion Hx as [| ? ? Hbad _]. by destruct Hbad.
Qed.

Lemma serial_field_odd_digits (sn : Z) (k : nat) :
  (sn = 0 ∧ k = 0%nat) ∨ 16 ^ Z.of_nat k <= sn < 16 ^ (Z.of_nat k + 1) →
  (k < 8)%nat → Nat.Even k →
  serial_field sn = Raise ValueError.
Proof.
  intros Hsn Hk Heven. unfold serial_field, Py.fromhex.
  assert (Hpos : 0 <= sn).
  { destruct Hsn as [[-> _] | [Hlo _]]; [lia |].
    pose proof (Z.pow_pos_nonneg 16 (Z.of_nat k)). lia. }
  assert (Hlen : length (Py.hex_digits sn) = S k).
  { rewrite hex_digits_length. destruct Hsn as [[-> ->] | Hsn]; [reflexivity |].
    by apply ndigits_of_range. }
  rewrite hex_nonneg by exact Hpos.
  rewrite hexpairs_odd with (n := 8%nat); [reflexivity | |].
  - rewrite !length_app. unfold Py.slice. rewrite !length_take. lia.
  - unfold Py.slice. rewrite !length_app, !length_take, !length_drop, length_app, Hlen.
    cbn [lit list_ascii_of_string length].
    destruct Heven as [m ->]. exists m.
    do 8 (destruct m as [| m]; [simpl; lia |]). lia.
Qed.

Lemma serial_field_two_digits (sn : Z) :
  16 <= sn < 256 → serial_field sn = Ok [sn mod 256].
Proof.
  intros Hsn. unfold serial_field, Py.fromhex.
  rewrite hex_nonneg by lia.
  rewrite (hex_digits_of_length sn 1) by (simpl; lia).
  cbn [seq rev app map lit list_ascii_of_string Py.slice drop take Nat.sub].
  unfold Py.hex_digit_at.
  rewrite !hexpairs_cons2 by (apply Z.mod_pos_bound; lia). cbn [Py.hexpairs].
  change (Z.of_nat 0) with (2 * 0); change (Z.of_nat 1) with (2 * 0 + 1).
  rewrite !digit_pair_byte by lia.
  change (256 ^ 0) with 1. rewrite Z.div_1_r. reflexivity.
Qed.

Lemma serial_field_four_digits (sn : Z) :
  4096 <= sn < 65536 → serial_field sn = Ok [sn mod 256; sn / 256 mod 256].
Proof.
  intros Hsn. unfold serial_field, Py.fromhex.
  rewrite hex_nonneg by lia.
  rewrite (hex_digits_of_length sn 3) by (simpl; lia).
  cbn [seq rev app map lit list_ascii_of_string Py.slice drop take Nat.sub].
  unfold Py.hex_digit_at.
  rewrite !hexpairs_cons2 by (apply Z.mod_pos_bound; lia). cbn [Py.hexpairs].
  change (Z.of_nat 0) with (2 * 0); change (Z.of_nat 1) with (2 * 0 + 1).
  change (Z.of_nat 2) with (2 * 1); change (Z.of_nat 3) with (2 * 1 + 1).
  rewrite !digit_pair_byte by lia.
  change (256 ^ 0) with 1. rewrite Z.div_1_r. reflexivity.
Qed.

Lemma generateRequest_serial_raises (sn : Z) (regRangeDef : RegisterRange)
    (rs re : pystr) (regStart regEnd : Z) :
  registerStart regRangeDef = Some rs →
  registerEnd regRangeDef = Some re →
  Py.int0 rs = Ok regStart →
  Py.int0 re = Ok regEnd →
  serial_field sn = Raise ValueError →
  _generateRequest sn regRangeDef = Raise ValueError.
Proof.
  intros Hrs Hre Hs He Hser. unfold _generateRequest. rewrite Hrs, Hre, Hs.
  rewrite bind_ok, He, bind_ok, unhex_start, bind_ok, unhex_length, bind_ok.
  rewrite unhex_control, bind_ok, unhex_zero, bind_ok, Hser. apply bind_raise.
Qed.

(** X2.  For a range within sixteen bits, a serial number below zero, or
    with fewer than eight hexadecimal digits other than six, is turned
    into no frame: [_generateRequest] raises [ValueError] (from
    [fromhex]) or [IndexError] (from storing the checksum). *)
Theorem generateRequest_serial_rejected (sn : Z) (regRangeDef : RegisterRange)
    (rs re : pystr) (regStart regEnd : Z) :
  registerStart regRangeDef = Some rs →
  registerEnd regRangeDef = Some re →
  Py.int0 rs = Ok regStart →
  Py.int0 re = Ok regEnd →
  0 <= regStart < 65536 →
  0 <= regEnd - regStart + 1 < 65536 →
  sn < 0x100000 ∨ 0x1000000 <= sn < 0x10000000 →
  _generateRequest sn regRangeDef = Raise ValueError
  ∨ _generateRequest sn regRangeDef = Raise IndexError.
Proof.
  intros Hrs Hre Hs He Hstart Hcount Hsn.
  assert (Hcase : sn < 0 ∨ (sn = 0 ∧ 0%nat = 0%nat)
                  ∨ 16 ^ Z.of_nat 0 <= sn < 16 ^ (Z.of_nat 0 + 1)
                  ∨ 16 <= sn < 256
                  ∨ 16 ^ Z.of_nat 2 <= sn < 16 ^ (Z.of_nat 2 + 1)
                  ∨ 4096 <= sn < 65536
                  ∨ 16 ^ Z.of_nat 4 <= sn < 16 ^ (Z.of_nat 4 + 1)
                  ∨ 16 ^ Z.of_nat 6 <= sn < 16 ^ (Z.of_nat 6 + 1)).
  { simpl. lia. }
  destruct Hcase as [H | [H | [H | [H | [H | [H | [H | H]]]]]]].
  - left. apply (generateRequest_serial_raises _ _ rs re regStart regEnd); try assumption.
    by apply serial_field_negative.
  - left. apply (generateRequest_serial_raises _ _ rs re regStart regEnd); try assumption.
    apply (serial_field_odd_digits sn 0); [by left | lia | by exists 0%nat].
  - left. apply (generateRequest_serial_raises _ _ rs re regStart regEnd); try assumption.
    apply (serial_field_odd_digits sn 0); [by right | lia | by exists 0%nat].
  - right. apply (assemble_one sn regRangeDef rs re regStart regEnd Hrs Hre Hs He Hstart Hcount
                    _ (serial_field_two_digits sn H)).
  - left. apply (generateRequest_serial_raises _ _ rs re regStart regEnd); try assumption.
    apply (serial_field_odd_digits sn 2); [by right | lia | by exists 1%nat].
  - right. apply (assemble_two sn regRangeDef rs re regStart regEnd Hrs Hre Hs He Hstart Hcount
                    _ _ (serial_field_four_digits sn H)).
  - left. apply (generateRequest_serial_raises _ _ rs re regStart regEnd); try assumption.
    apply (serial_field_odd_digits sn 4); [by right | lia | by exists 2%nat].
  - left. apply (generateRequest_serial_raises _ _ rs re regStart regEnd); try assumption.
    apply (serial_field_odd_digits sn 6); [by right | lia | by exists 3%nat].
Qed.

Lemma generateRequest_serial_rejected_witness :
  _generateRequest 19088743 pv_range = Raise ValueError
  ∨ _generateRequest 19088743 pv_range = Raise IndexError.
Proof.
  apply (generateRequest_serial_rejected 19088743 pv_range (lit "0x000A") (lit "0x000B") 10 11);
    first [reflexivity | lia].
Defined.

(** * Register keys *)

Lemma digit_in_upper_hexchar (d : Z) :
  0 <= d < 16 → Py.digit_in 16 (Py.upper_char (Py.hexchar d)) = Some d.
Proof.
  intros Hd.
  apply (small_cases d (λ d, Py.digit_in 16 (Py.upper_char (Py.hexchar d)) = Some d) Hd);
    reflexivity.
Qed.

Lemma hexpos_16bit (idx regStart : Z) :
  0 <= idx + regStart < 65536 →
  list_ascii_of_string (hexpos idx regStart)
  = lit "0x" ++ map Py.upper_char
      [Py.hexchar ((idx + regStart) / 4096 mod 16); Py.hexchar ((idx + regStart) / 256 mod 16);
       Py.hexchar ((idx + regStart) / 16 mod 16); Py.hexchar ((idx + regStart) mod 16)].
Proof.
  intros Ha. unfold hexpos. rewrite list_ascii_of_string_of_list_ascii.
  rewrite hex_nonneg by lia.
  change (Py.slice_from (lit "0x" ++ ?ds) 2) with ds.
  by rewrite zfill_hex_digits_16bit.
Qed.

(** X3.  The key under which the register at a 16-bit address is looked
    up reads back, as an integer literal, as that address. *)
Theorem hexpos_reads_back (idx regStart : Z) :
  0 <= idx + regStart < 65536 →
  Py.int0 (list_ascii_of_string (hexpos idx regStart)) = Ok (idx + regStart).
Proof.
  intros Ha. rewrite hexpos_16bit by exact Ha.
  set (a := idx + regStart) in *.
  cbn [lit list_ascii_of_string app map].
  unfold Py.int0, Py.unsigned_literal, Py.nonempty_digits.
  change (Py.code "0" =? 45) with false. change (Py.code "0" =? 43) with false.
  change (Py.code "0" =? 48) with true. change (Py.code "x" =? 120) with true.
  cbn [orb Py.digits_value].
  rewrite !digit_in_upper_hexchar by (apply Z.mod_pos_bound; lia).
  cbn [Py.digits_value]. f_equal. Z.div_mod_to_equations. lia.
Qed.

Lemma hexpos_reads_back_witness :
  Py.int0 (list_ascii_of_string (hexpos 1 10)) = Ok (1 + 10).
Proof. apply (hexpos_reads_back 1 10). lia. Defined.

Lemma upper_char_not_lower (c : ascii) :
  (97 <=? Py.code (Py.upper_char c)) && (Py.code (Py.upper_char c) <=? 122) = false.
Proof. destruct c as [[] [] [] [] [] [] [] []]; reflexivity. Qed.

(** X4.  Past its prefix, a key holds no lower-case letter, at any
    address: an entry of the register map spelled ["0x000a"] is never
    looked up. *)
Theorem hexpos_no_lower_case (idx regStart : Z) :
  Forall (λ c, (97 <=? Py.code c) && (Py.code c <=? 122) = false)
    (drop 2 (list_ascii_of_string (hexpos idx regStart))).
Proof.
  unfold hexpos. rewrite list_ascii_of_string_of_list_ascii.
  cbn [lit list_ascii_of_string app drop]. unfold Py.upper.
  apply Forall_forall. intros c Hc.
  apply list_elem_of_fmap in Hc as (c' & -> & _). apply upper_char_not_lower.
Qed.

(** * What the decoded map holds *)

Lemma reading_known (data : bytes) (idx : Z) (fd : FieldDef) :
  is_Some (reading data idx fd) ↔ known_type (valueType fd).
Proof.
  unfold reading, known_type. destruct (valueType fd) as [ty |].
  - destruct (String.eqb_spec ty "u16") as [-> | ?]; [split; [auto | by eexists] |].
    destruct (String.eqb_spec ty "i16") as [-> | ?]; [split; [auto | by eexists] |].
    destruct (String.eqb_spec ty "u32") as [-> | ?]; [split; [auto | by eexists] |].
    destruct (String.eqb_spec ty "i32") as [-> | ?]; [split; [auto 10 | by eexists] |].
    cbn [orb]. split; [by intros [? ?] |].
    intros [H | [H | [H | H]]]; injection H as ->; contradiction.
  - split; [by intros [? ?] |]. intros [H | [H | [H | H]]]; discriminate H.
Qed.

Lemma stored_offsets_keys (data : bytes) (regStart : Z) (def : RegisterRange) (n : string)
    (l : list Z) :
  ∀ out,
    is_Some (stored_offsets data regStart def l out !! n)
    ↔ is_Some (out !! n)
      ∨ ∃ idx fd, idx ∈ l ∧ registers def !! hexpos idx regStart = Some fd
                  ∧ known_type (valueType fd) ∧ name fd = Some n.
Proof.
  induction l as [| idx l IH]; intros out; cbn [stored_offsets].
  - split; [auto |]. intros [H | (idx & fd & Hin & _)]; [exact H |].
    by apply elem_of_nil in Hin.
  - assert (Hskip : (is_Some (out !! n)
                     ∨ ∃ idx' fd, idx' ∈ l ∧ registers def !! hexpos idx' regStart = Some fd
                                  ∧ known_type (valueType fd) ∧ name fd = Some n)
                    → is_Some (out !! n)
                      ∨ ∃ idx' fd, idx' ∈ idx :: l
                                   ∧ registers def !! hexpos idx' regStart = Some fd
                                   ∧ known_type (valueType fd) ∧ name fd = Some n).
    { intros [H | (idx' & fd & Hin & H)]; [by left |].
      right. exists idx', fd. split; [by right | exact H]. }
    destruct (registers def !! hexpos idx regStart) as [regDef |] eqn:Hdef.
    + destruct (reading data idx regDef) as [val |] eqn:Hval.
      * destruct (name regDef) as [m |] eqn:Hname.
        -- rewrite IH. split.
           ++ intros [H | H]; [| by apply Hskip; right].
              destruct (decide (m = n)) as [Heq | Hne].
              ** right. exists idx, regDef. split; [by left |]. split; [exact Hdef |].
                 split; [| by rewrite Hname, Heq].
                 apply (reading_known data idx regDef). rewrite Hval. by eexists.
              ** left. by rewrite lookup_insert_ne in H.
           ++ intros [H | (idx' & fd & Hin & Hfd & Hk & Hn)].
              ** left. destruct (decide (m = n)) as [-> | Hne].
                 --- rewrite lookup_insert_eq. by eexists.
                 --- by rewrite lookup_insert_ne.
              ** apply elem_of_cons in Hin as [-> | Hin].
                 --- left. rewrite Hdef in Hfd. injection Hfd as <-.
                     rewrite Hname in Hn. injection Hn as ->.
                     rewrite lookup_insert_eq. by eexists.
                 --- right. by exists idx', fd.
        -- rewrite IH. split; [exact Hskip |].
           intros [H | (idx' & fd & Hin & Hfd & Hk & Hn)]; [by left |].
           apply elem_of_cons in Hin as [-> | Hin]; [| right; by exists idx', fd].
           rewrite Hdef in Hfd. injection Hfd as <-. rewrite Hname in Hn. discriminate Hn.
      * rewrite IH. split; [exact Hskip |].
        intros [H | (idx' & fd & Hin & Hfd & Hk & Hn)]; [by left |].
        apply elem_of_cons in Hin as [-> | Hin]; [| right; by exists idx', fd].
        rewrite Hdef in Hfd. injection Hfd as <-.
        apply (reading_known data idx) in Hk.
        rewrite Hval in Hk. by destruct Hk.
    + rewrite IH. split; [exact Hskip |].
      intros [H | (idx' & fd & Hin & Hfd & Hk & Hn)]; [by left |].
      apply elem_of_cons in Hin as [-> | Hin]; [| right; by exists idx', fd].
      rewrite Hdef in Hfd. discriminate.
Qed.

(** X5.  On a range whose registers carry a name and a value type, the
    decoded map holds exactly the names of the registers that lie in the
    range, fit in the payload, are defined in the register map and have
    one of the four value types. *)
Theorem parse_data_keys (data : bytes) (regStart regEnd : Z) (regRangeDef : RegisterRange) :
  conformant regRangeDef →
  Forall is_byte data →
  ∃ output,
    parse_data data regStart regEnd regRangeDef = Ok output
    ∧ ∀ n, is_Some (output !! n)
           ↔ ∃ idx regDef,
               0 <= idx < Z.min (regEnd - regStart + 1) (fitting data)
               ∧ registers regRangeDef !! hexpos idx regStart = Some regDef
               ∧ known_type (valueType regDef)
               ∧ name regDef = Some n.
Proof.
  intros Hconf Hdata. eexists. split; [by apply parse_data_conformant |].
  intros n. rewrite stored_offsets_keys. split.
  - intros [H | (idx & fd & Hin & H)].
    + rewrite lookup_empty in H. by destruct H.
    + exists idx, fd. split; [| exact H]. apply elem_of_seqZ in Hin. lia.
  - intros (idx & fd & Hin & H). right. exists idx, fd. split; [| exact H].
    apply elem_of_seqZ. lia.
Qed.

Lemma parse_data_keys_witness :
  ∃ output,
    parse_data (response [0; 100; 7]) 10 11 pv_range = Ok output
    ∧ ∀ n, is_Some (output !! n)
           ↔ ∃ idx regDef,
               0 <= idx < Z.min (11 - 10 + 1) (fitting (response [0; 100; 7]))
               ∧ registers pv_range !! hexpos idx 10 = Some regDef
               ∧ known_type (valueType regDef)
               ∧ name regDef = Some n.
Proof.
  apply (parse_data_keys (response [0; 100; 7]) 10 11 pv_range).
  - apply pv_range_conformant.
  - apply response_bytes. bytes_listed.
Defined.

Lemma stored_offsets_other (data : bytes) (regStart : Z) (def : RegisterRange) (n : string)
    (l : list Z) :
  (∀ idx fd, idx ∈ l → registers def !! hexpos idx regStart = Some fd → name fd ≠ Some n) →
  ∀ out, stored_offsets data regStart def l out !! n = out !! n.
Proof.
  induction l as [| idx l IH]; intros Hother out; [reflexivity |].
  cbn [stored_offsets].
  assert (Hrest : ∀ idx' fd, idx' ∈ l → registers def !! hexpos idx' regStart = Some fd →
                             name fd ≠ Some n).
  { intros idx' fd Hin. apply Hother. by right. }
  destruct (registers def !! hexpos idx regStart) as [regDef |] eqn:Hdef; [| by apply IH].
  destruct (reading data idx regDef); [| by apply IH].
  destruct (name regDef) as [m |] eqn:Hname; [| by apply IH].
  rewrite IH by exact Hrest. apply lookup_insert_ne.
  intros ->. apply (Hother idx regDef); [by left | exact Hdef | exact Hname].
Qed.

(** The value under a name is the one of the last register of that name. *)
Lemma parse_data_last_write (data : bytes) (regStart regEnd idx : Z)
    (def : RegisterRange) (fd : FieldDef) (n : string) (val : Py.number) :
  conformant def →
  Forall is_byte data →
  0 <= idx <= regEnd - regStart →
  fits data idx →
  registers def !! hexpos idx regStart = Some fd →
  reading data idx fd = Some val →
  name fd = Some n →
  (∀ idx' fd', idx < idx' <= regEnd - regStart →
               registers def !! hexpos idx' regStart = Some fd' → name fd' ≠ Some n) →
  ∃ output, parse_data data regStart regEnd def = Ok output ∧ output !! n = Some val.
Proof.
  intros Hconf Hdata Hidx Hfit Hdef Hval Hname Hlater.
  eexists. split; [by apply parse_data_conformant |].
  apply fits_iff_below in Hfit.
  set (m := Z.min (regEnd - regStart + 1) (fitting data)).
  assert (Hm : idx < m) by (subst m; lia).
  replace m with (idx + (m - idx)) by lia.
  rewrite seqZ_app, stored_offsets_app by lia.
  rewrite (seqZ_cons (0 + idx)) by lia. rewrite Z.add_0_l.
  cbn [stored_offsets]. rewrite Hdef, Hval, Hname.
  rewrite stored_offsets_other; [apply lookup_insert_eq |].
  intros idx' fd' Hin. apply Hlater. apply elem_of_seqZ in Hin. subst m. lia.
Qed.

Lemma from_bytes_two (hi lo : Z) :
  Py.from_bytes_big true [hi; lo] = twos_complement 16 (256 * hi + lo).
Proof.
  unfold Py.from_bytes_big, Py.be_value, twos_complement. cbn [fold_left length].
  replace (256 * (256 * 0 + hi) + lo) with (256 * hi + lo) by lia. reflexivity.
Qed.

Lemma from_bytes_four (b0 b1 b2 b3 : Z) :
  Py.from_bytes_big true [b0; b1; b2; b3]
  = twos_complement 32 (16777216 * b0 + 65536 * b1 + 256 * b2 + b3).
Proof.
  unfold Py.from_bytes_big, Py.be_value, twos_complement. cbn [fold_left length].
  replace (256 * (256 * (256 * (256 * 0 + b0) + b1) + b2) + b3)
    with (16777216 * b0 + 65536 * b1 + 256 * b2 + b3) by lia.
  reflexivity.
Qed.

Lemma data_slice_take (data : bytes) (a : Z) (w : nat) :
  0 <= a → data_slice data a (a + Z.of_nat w) = take w (drop (Z.to_nat a) data).
Proof.
  intros Ha. unfold data_slice, Py.slice. f_equal. lia.
Qed.

Lemma take_drop_fits (data bs : bytes) (idx : Z) (w : nat) :
  0 <= idx → (2 <= w)%nat → length bs = w →
  take w (drop (Z.to_nat (28 + idx * 2)) data) = bs → fits data idx.
Proof.
  intros Hidx Hw Hlen Htake. unfold fits.
  assert (Hl : length (take w (drop (Z.to_nat (28 + idx * 2)) data)) = w)
    by (by rewrite Htake).
  rewrite length_take, length_drop in Hl. lia.
Qed.

(** A 16-bit type reads the two-byte slice, as a signed number. *)
Lemma reading_narrow (data : bytes) (idx : Z) (regDef : FieldDef) :
  valueType regDef = Some "u16"%string ∨ valueType regDef = Some "i16"%string →
  reading data idx regDef
  = Some (scaled (Py.from_bytes_big true
                    (data_slice data (28 + idx * 2) (28 + idx * 2 + 2))) regDef).
Proof. unfold reading. intros [-> | ->]; reflexivity. Qed.

(** X6.  A register of a 16-bit type whose two bytes are in the payload
    is stored as their two's complement reading, high byte first, times
    the factor (the reading itself without one), for [u16] as for [i16],
    provided no later register of the range has the same name. *)
Theorem narrow_register_value (data : bytes) (regStart regEnd idx : Z)
    (regRangeDef : RegisterRange) (regDef : FieldDef) (n : string) (hi lo : Z) :
  conformant regRangeDef →
  Forall is_byte data →
  0 <= idx <= regEnd - regStart →
  registers regRangeDef !! hexpos idx regStart = Some regDef →
  valueType regDef = Some "u16"%string ∨ valueType regDef = Some "i16"%string →
  name regDef = Some n →
  take 2 (drop (Z.to_nat (28 + idx * 2)) data) = [hi; lo] →
  (∀ idx' regDef', idx < idx' <= regEnd - regStart →
                   registers regRangeDef !! hexpos idx' regStart = Some regDef' →
                   name regDef' ≠ Some n) →
  ∃ output,
    parse_data data regStart regEnd regRangeDef = Ok output
    ∧ output !! n = Some (scaled (twos_complement 16 (256 * hi + lo)) regDef).
Proof.
  intros Hconf Hdata Hidx Hdef Htype Hname Hbytes Hlater.
  apply (parse_data_last_write data regStart regEnd idx regRangeDef regDef);
    try assumption.
  - apply (take_drop_fits data [hi; lo] idx 2); [lia | lia | reflexivity | exact Hbytes].
  - rewrite (reading_narrow _ _ _ Htype).
    change (28 + idx * 2 + 2) with (28 + idx * 2 + Z.of_nat 2).
    rewrite data_slice_take by lia. by rewrite Hbytes, from_bytes_two.
Qed.

Lemma narrow_register_value_witness :
  ∃ output,
    parse_data (response [0; 100; 255; 206]) 10 11 pv_range = Ok output
    ∧ output !! "Power_PV2"%string
      = Some (scaled (twos_complement 16 (256 * 255 + 206))
                (u16_field "Power_PV2" (Some (Py.nearest 10)))).
Proof.
  apply (narrow_register_value (response [0; 100; 255; 206]) 10 11 1 pv_range
           (u16_field "Power_PV2" (Some (Py.nearest 10))) "Power_PV2"%string 255 206).
  - apply pv_range_conformant.
  - apply response_bytes. bytes_listed.
  - lia.
  - reflexivity.
  - left. reflexivity.
  - reflexivity.
  - reflexivity.
  - intros idx' regDef' Hidx'. lia.
Defined.

Example negative_power :
  scaled (twos_complement 16 (256 * 255 + 206)) (u16_field "Power_PV2" (Some (Py.nearest 10)))
  = Py.Float (Py.nearest (-500)).
Proof. reflexivity. Qed.

(** X7.  A register of a 32-bit type whose four bytes are in the payload
    is stored as their two's complement reading, high byte first, times
    the factor, for [u32] as for [i32], provided no later register of the
    range has the same name. *)
Theorem wide_register_value (data : bytes) (regStart regEnd idx : Z)
    (regRangeDef : RegisterRange) (regDef : FieldDef) (n : string) (b0 b1 b2 b3 : Z) :
  conformant regRangeDef →
  Forall is_byte data →
  0 <= idx <= regEnd - regStart →
  registers regRangeDef !! hexpos idx regStart = Some regDef →
  valueType regDef = Some "u32"%string ∨ valueType regDef = Some "i32"%string →
  name regDef = Some n →
  take 4 (drop (Z.to_nat (28 + idx * 2)) data) = [b0; b1; b2; b3] →
  (∀ idx' regDef', idx < idx' <= regEnd - regStart →
                   registers regRangeDef !! hexpos idx' regStart = Some regDef' →
                   name regDef' ≠ Some n) →
  ∃ output,
    parse_data data regStart regEnd regRangeDef = Ok output
    ∧ output !! n
      = Some (scaled (twos_complement 32 (16777216 * b0 + 65536 * b1 + 256 * b2 + b3))
                regDef).
Proof.
  intros Hconf Hdata Hidx Hdef Htype Hname Hbytes Hlater.
  apply (parse_data_last_write data regStart regEnd idx regRangeDef regDef);
    try assumption.
  - apply (take_drop_fits data [b0; b1; b2; b3] idx 4);
      [lia | lia | reflexivity | exact Hbytes].
  - rewrite (reading_wide _ _ _ Htype).
    change (28 + idx * 2 + 4) with (28 + idx * 2 + Z.of_nat 4).
    rewrite data_slice_take by lia. by rewrite Hbytes, from_bytes_four.
Qed.

Lemma wide_register_value_witness :
  ∃ output,
    parse_data (response [0; 1; 0; 2]) 16 17 counter_range = Ok output
    ∧ output !! "Counter"%string
      = Some (scaled (twos_complement 32 (16777216 * 0 + 65536 * 1 + 256 * 0 + 2))
                {| name := Some "Counter"%string; valueType := Some "u32"%string;
                   factor := None |}).
Proof.
  apply (wide_register_value (response [0; 1; 0; 2]) 16 17 0 counter_range
           {| name := Some "Counter"%string; valueType := Some "u32"%string;
              factor := None |} "Counter"%string 0 1 0 2).
  - apply counter_range_conformant.
  - apply response_bytes. bytes_listed.
  - lia.
  - reflexivity.
  - left. reflexivity.
  - reflexivity.
  - reflexivity.
  - intros idx' regDef' Hidx' Hdef Hname.
    assert (idx' = 1) as -> by lia. discriminate Hdef.
Defined.

(** * The plausibility test and the sanity check *)

(** X8.  With a system size of zero the plausibility test is off: a
    result that holds both power fields, which add up, is returned
    whatever its values, and ["EnergyTodayTotals"] is not read. *)
Theorem zero_size_accepts (cfg : config) (names : list string) (d : device)
    (output : poll_output) (pv : gmap string Py.number) (p1 p2 power_total : Py.number) :
  Py.truth (Py.Float (mySystemSize cfg)) = false →
  output !! "PVOutput"%string = Some pv →
  pv !! "Power_PV1"%string = Some p1 →
  pv !! "Power_PV2"%string = Some p2 →
  Py.add p1 p2 = Ok power_total →
  check_and_finish cfg names d output = Ok (sanity_loop names output d, Some output).
Proof.
  intros Hzero Hpv Hp1 Hp2 Hsum. unfold check_and_finish, implausible.
  rewrite (subscript_some _ _ _ Hpv), !bind_ok, (subscript_some _ _ _ Hp1), !bind_ok.
  rewrite (subscript_some _ _ _ Hp2), !bind_ok, Hsum, !bind_ok, Hzero.
  by rewrite bind_ok.
Qed.

Lemma zero_size_accepts_witness :
  check_and_finish (sample_config (Py.nearest 0)) sixty_names sixty_fetched.1 sixty_fetched.2
  = Ok (sanity_loop sixty_names sixty_fetched.2 sixty_fetched.1, Some sixty_fetched.2).
Proof.
  apply (zero_size_accepts (sample_config (Py.nearest 0)) sixty_names sixty_fetched.1
           sixty_fetched.2
           {[ "Power_PV1"%string := Py.Float (Py.nearest 1000);
              "Power_PV2"%string := Py.Float (Py.nearest 500) ]}
           (Py.Float (Py.nearest 1000)) (Py.Float (Py.nearest 500))
           (Py.Float (Py.nearest 1500))).
  - reflexivity.
  - vm_compute. reflexivity.
  - vm_compute. reflexivity.
  - vm_compute. reflexivity.
  - vm_compute. reflexivity.
Defined.

Lemma sanity_loop_present (names : list string) (output : poll_output) (d : device) :
  (∀ n, n ∈ names → is_Some (output !! n)) → sanity_loop names output d = d.
Proof.
  induction names as [| n rest IH]; intros Hall; [reflexivity |].
  cbn [sanity_loop]. rewrite bool_decide_eq_true_2 by (apply Hall; by left).
  apply IH. intros m Hm. apply Hall. by right.
Qed.

(** X9.  The sanity check after the fetching loop never fires: when the
    loop ends with the flag set, every range of the list is in the result
    and the check leaves the device as it is. *)
Theorem sanity_check_idle (cfg : config) (names : list string) (d d' : device)
    (out out' : poll_output) :
  fetch_loop cfg names d out = Ok (d', out') →
  _connectedToInverterFlag d' = true →
  sanity_loop names out' d' = d'.
Proof.
  intros Hfetch Hflag. apply sanity_loop_present.
  by destruct (fetch_loop_complete _ _ _ _ _ _ Hfetch Hflag).
Qed.

Lemma sanity_check_idle_witness :
  sanity_loop sixty_names sixty_fetched.2 sixty_fetched.1 = sixty_fetched.1.
Proof.
  apply (sanity_check_idle (sample_config (Py.nearest 5)) sixty_names sixty_connected sixty_fetched.1
           ∅ sixty_fetched.2).
  - vm_compute. reflexivity.
  - reflexivity.
Defined.

(** * The device after a poll *)

Lemma check_and_finish_none_flag (cfg : config) (names : list string) (d d' : device)
    (out : poll_output) :
  check_and_finish cfg names d out = Ok (d', None) → _connectedToInverterFlag d' = false.
Proof.
  unfold check_and_finish. intros H.
  destruct (subscript out "PVOutput"%string) as [pv | e]; [| discriminate].
  cbn [mbind result_bind] in H.
  destruct (subscript pv "Power_PV1"%string) as [p1 | e]; [| discriminate].
  cbn [mbind result_bind] in H.
  destruct (subscript pv "Power_PV2"%string) as [p2 | e]; [| discriminate].
  cbn [mbind result_bind] in H.
  destruct (Py.add p1 p2) as [power_total | e]; [| discriminate].
  cbn [mbind result_bind] in H.
  destruct (implausible cfg out power_total) as [[|] | e];
    cbn [mbind result_bind] in H; try discriminate.
  by injection H as <-.
Qed.

Lemma check_and_finish_some_device (cfg : config) (names : list string) (d d' : device)
    (out out' : poll_output) :
  check_and_finish cfg names d out = Ok (d', Some out') → d' = sanity_loop names out d.
Proof.
  unfold check_and_finish. intros H.
  destruct (subscript out "PVOutput"%string) as [pv | e]; [| discriminate].
  cbn [mbind result_bind] in H.
  destruct (subscript pv "Power_PV1"%string) as [p1 | e]; [| discriminate].
  cbn [mbind result_bind] in H.
  destruct (subscript pv "Power_PV2"%string) as [p2 | e]; [| discriminate].
  cbn [mbind result_bind] in H.
  destruct (Py.add p1 p2) as [power_total | e]; [| discriminate].
  cbn [mbind result_bind] in H.
  destruct (implausible cfg out power_total) as [[|] | e];
    cbn [mbind result_bind] in H; try discriminate.
  by injection H as <- _.
Qed.

Lemma attempt_flag (cfg : config) (names : list string) (d d' : device) (c : Z)
    (r : option poll_output) :
  attempt cfg names d c = Ok (d', r) →
  _connectedToInverterFlag d' = bool_decide (is_Some r).
Proof.
  unfold attempt. intros H.
  destruct (ensure_connected (emit (EvTry c) d)) as [d1 | e]; [| discriminate].
  cbn [mbind result_bind] in H.
  destruct (_connectedToInverterFlag d1) eqn:Hflag1; cbn [negb] in H;
    [| injection H as <- <-; exact Hflag1].
  destruct (fetch_loop cfg names d1 ∅) as [[d2 out] | e] eqn:Hfetch; [| discriminate].
  cbn [mbind result_bind] in H.
  destruct (_connectedToInverterFlag d2) eqn:Hflag2; cbn [negb] in H;
    [| injection H as <- <-; exact Hflag2].
  destruct r as [out' |].
  - apply check_and_finish_some_device in H. subst d'.
    rewrite sanity_loop_present; [exact Hflag2 |].
    by destruct (fetch_loop_complete _ _ _ _ _ _ Hfetch Hflag2).
  - by apply check_and_finish_none_flag in H.
Qed.

Lemma retry_loop_flag (cfg : config) (names : list string) (counters : list Z) :
  ∀ (d d' : device) (r : option poll_output),
    counters ≠ [] →
    retry_loop cfg names d counters = Ok (d', r) →
    _connectedToInverterFlag d' = bool_decide (is_Some r).
Proof.
  induction counters as [| c rest IH]; intros d d' r Hne H; [done |].
  cbn [retry_loop] in H.
  destruct (attempt cfg names d c) as [[d1 [out |]] | e] eqn:Hatt;
    cbn [mbind result_bind] in H; try discriminate.
  - injection H as <- <-. by apply attempt_flag in Hatt.
  - destruct rest as [| c' rest'].
    + injection H as <- <-. by apply attempt_flag in Hatt.
    + by apply (IH d1).
Qed.

(** X10.  When [getRegisterRangeData] returns data the connection flag is
    set and the socket is left open; when it returns [False] the flag is
    cleared. *)
Theorem poll_leaves_flag (cfg : config) (d d' : device) (r : requested)
    (res : option poll_output) :
  getRegisterRangeData cfg d r = Ok (d', res) →
  _connectedToInverterFlag d' = bool_decide (is_Some res).
Proof.
  unfold getRegisterRangeData, poll_from. apply retry_loop_flag. discriminate.
Qed.

Lemma poll_leaves_flag_witness :
  _connectedToInverterFlag five_kwh_poll.1 = bool_decide (is_Some (Some five_kwh_poll.2)).
Proof.
  apply (poll_leaves_flag (sample_config (Py.nearest 5)) (new_device five_kwh_network) five_kwh_poll.1
           (Names ["PVOutput"%string]) (Some five_kwh_poll.2)).
  vm_compute. reflexivity.
Defined.

(** * The ranges of a result *)

Lemma fetch_loop_values (cfg : config) (names : list string) :
  ∀ (d d' : device) (out out' : poll_output),
    fetch_loop cfg names d out = Ok (d', out') →
    ∀ n vals, out' !! n = Some vals →
      out !! n = Some vals
      ∨ (n ∈ names ∧ vals ≠ ∅ ∧ is_Some (sofarProtocol cfg !! n)).
Proof.
  induction names as [| m rest IH]; intros d d' out out' Hrun n vals Hn.
  - injection Hrun as _ <-. by left.
  - apply fetch_loop_cons_inv in Hrun.
    destruct Hrun as (def & req & d1 & sent & Hdef & _ & _ & Hcase).
    destruct Hcase as [(_ & _ & ->) | (_ & d3 & r & _ & Hcase)]; [by left |].
    destruct Hcase as [(vals' & _ & Hne & Hrest) | (_ & _ & ->)]; [| by left].
    destruct (IH _ _ _ _ Hrest n vals Hn) as [Hin | (Hin & Hv & Hk)].
    + destruct (decide (m = n)) as [-> | Hmn].
      * rewrite lookup_insert_eq in Hin. injection Hin as ->.
        right. split; [by left |]. split; [exact Hne | by eexists].
      * rewrite lookup_insert_ne in Hin by exact Hmn. by left.
    + right. split; [by right | by split].
Qed.

(** X11.  Every range of a returned result is a range of the normalised
    list, is defined in the register map and holds at least one value. *)
Theorem poll_result_ranges (cfg : config) (d d' : device) (r : requested)
    (output : poll_output) (n : string) (vals : gmap string Py.number) :
  getRegisterRangeData cfg d r = Ok (d', Some output) →
  output !! n = Some vals →
  n ∈ normalize (sofarProtocol cfg) (unique_names r)
  ∧ is_Some (sofarProtocol cfg !! n)
  ∧ vals ≠ ∅.
Proof.
  unfold getRegisterRangeData, poll_from. intros Hpoll Hn.
  apply retry_loop_some in Hpoll as (d0 & c & Hatt).
  apply attempt_some in Hatt as (d1 & d2 & Hfetch & _ & _).
  destruct (fetch_loop_values _ _ _ _ _ _ Hfetch n vals Hn) as [Hin | (Hin & Hv & Hk)].
  - by rewrite lookup_empty in Hin.
  - by repeat split.
Qed.

Lemma poll_result_ranges_witness :
  "PVOutput"%string ∈ normalize sample_protocol (unique_names (Names ["PVOutput"%string]))
  ∧ is_Some (sample_protocol !! "PVOutput"%string)
  ∧ ({[ "Power_PV1"%string := Py.Float (Py.nearest 1000);
        "Power_PV2"%string := Py.Float (Py.nearest 500) ]} : gmap string Py.number) ≠ ∅.
Proof.
  apply (poll_result_ranges (sample_config (Py.nearest 5)) (new_device five_kwh_network) five_kwh_poll.1
           (Names ["PVOutput"%string]) five_kwh_poll.2).
  - vm_compute. reflexivity.
  - vm_compute. reflexivity.
Defined.

(** * Counting rounds *)

Lemma attempts_emit (e : event) (d : device) :
  attempts (journal (emit e d))
  = (attempts (journal d) + if is_try e then 1 else 0)%nat.
Proof.
  unfold attempts. cbn [emit journal]. rewrite List.filter_app, length_app.
  cbn [List.filter]. by destruct (is_try e).
Qed.

Lemma attempts_hang_up (d : device) :
  attempts (journal (hang_up d)) = attempts (journal d).
Proof. unfold hang_up. cbn [set_flag journal]. rewrite attempts_emit. simpl. lia. Qed.

Lemma attempts_sleep (s : Z) (d : device) :
  attempts (journal (sleep s d)) = attempts (journal d).
Proof. unfold sleep. rewrite attempts_emit. simpl. lia. Qed.

Lemma attempts_connect (d d' : device) :
  _connect d = Ok d' → journal d' = journal d.
Proof.
  unfold _connect. destruct (connect_loop _ _ _) as [[sock flag] | e]; [| discriminate].
  cbn [mbind result_bind]. by intros [= <-].
Qed.

Lemma attempts_sendall (d d' : device) (req : option bytes) (sent : bool) :
  sendall d req = (d', sent) → attempts (journal d') = attempts (journal d).
Proof.
  unfold sendall. destruct req as [frame |]; [| by intros [= <- _]].
  destruct (default false (head (sends (env d)))); intros [= <- _].
  - rewrite attempts_emit. simpl. lia.
  - reflexivity.
Qed.

Lemma attempts_read (d d' : device) (def : RegisterRange) (r : option (gmap string Py.number)) :
  _readRegisterRange d def = Ok (d', r) → attempts (journal d') = attempts (journal d).
Proof.
  unfold _readRegisterRange.
  destruct (negb (_connectedToInverterFlag d) || negb (mySocket d)); [by intros [= <- _] |].
  destruct (registerStart def) as [rs |]; [| by intros [= <- _]].
  destruct (registerEnd def) as [re |]; [| by intros [= <- _]].
  destruct (Py.int0 rs) as [regStart | e]; [| discriminate]. cbn [mbind result_bind].
  destruct (Py.int0 re) as [regEnd | e]; [| discriminate]. cbn [mbind result_bind].
  destruct (recv_loop _ _ _) as [[data rest] how].
  set (d1 := set_env _ d).
  assert (H1 : attempts (journal d1) = attempts (journal d)) by reflexivity.
  set (d2 := match how with
             | ExitBreak => d1
             | ExitPeerClosed => hang_up d1
             | ExitFailed => set_flag false d1
             end).
  assert (H2 : attempts (journal d2) = attempts (journal d)).
  { subst d2. destruct how; [exact H1 | by rewrite attempts_hang_up | exact H1]. }
  set (d3 := match data with
             | [] => hang_up d2
             | _ => d2
             end).
  assert (H3 : attempts (journal d3) = attempts (journal d)).
  { subst d3. destruct data; [by rewrite attempts_hang_up | exact H2]. }
  destruct (negb (_connectedToInverterFlag d3)); [by intros [= <- _] |].
  destruct (parse_data data regStart regEnd def) as [output | e]; [| discriminate].
  rewrite bind_ok. by intros [= <- _].
Qed.

Lemma attempts_fetch_loop (cfg : config) (names : list string) :
  ∀ (d d' : device) (out out' : poll_output),
    fetch_loop cfg names d out = Ok (d', out') →
    attempts (journal d') = attempts (journal d).
Proof.
  induction names as [| m rest IH]; intros d d' out out' Hrun.
  - by injection Hrun as <- _.
  - apply fetch_loop_cons_inv in Hrun.
    destruct Hrun as (def & req & d1 & sent & _ & _ & Hsend & Hcase).
    apply attempts_sendall in Hsend.
    destruct Hcase as [(_ & -> & _) | (_ & d3 & r & Hread & Hcase)];
      [by rewrite attempts_hang_up |].
    apply attempts_read in Hread. rewrite attempts_sleep in Hread.
    destruct Hcase as [(vals & _ & _ & Hrest) | (_ & -> & _)].
    + apply IH in Hrest. lia.
    + rewrite attempts_hang_up. lia.
Qed.

Lemma attempts_sanity_loop (names : list string) (out : poll_output) :
  ∀ d, attempts (journal (sanity_loop names out d)) = attempts (journal d).
Proof.
  induction names as [| n rest IH]; intros d; [reflexivity |].
  cbn [sanity_loop]. case_bool_decide; [apply IH |].
  by rewrite IH, attempts_sleep, attempts_hang_up.
Qed.

Lemma attempts_check (cfg : config) (names : list string) (d d' : device)
    (out : poll_output) (r : option poll_output) :
  check_and_finish cfg names d out = Ok (d', r) →
  attempts (journal d') = attempts (journal d).
Proof.
  unfold check_and_finish. intros H.
  destruct (subscript out "PVOutput"%string) as [pv | e]; [| discriminate].
  cbn [mbind result_bind] in H.
  destruct (subscript pv "Power_PV1"%string) as [p1 | e]; [| discriminate].
  cbn [mbind result_bind] in H.
  destruct (subscript pv "Power_PV2"%string) as [p2 | e]; [| discriminate].
  cbn [mbind result_bind] in H.
  destruct (Py.add p1 p2) as [power_total | e]; [| discriminate].
  cbn [mbind result_bind] in H.
  destruct (implausible cfg out power_total) as [[|] | e];
    cbn [mbind result_bind] in H; try discriminate; injection H as <- _.
  - by rewrite attempts_sleep, attempts_hang_up, attempts_sanity_loop.
  - apply attempts_sanity_loop.
Qed.

Lemma attempts_attempt (cfg : config) (names : list string) (d d' : device) (c : Z)
    (r : option poll_output) :
  attempt cfg names d c = Ok (d', r) →
  attempts (journal d') = S (attempts (journal d)).
Proof.
  unfold attempt, ensure_connected. intros H.
  assert (H0 : attempts (journal (emit (EvTry c) d)) = S (attempts (journal d)))
    by (rewrite attempts_emit; simpl; lia).
  destruct (if negb (_connectedToInverterFlag (emit (EvTry c) d))
            then _connect (emit (EvTry c) d) else Ok (emit (EvTry c) d))
    as [d1 | e] eqn:Hconn; [| discriminate].
  assert (H1 : attempts (journal d1) = S (attempts (journal d))).
  { destruct (negb (_connectedToInverterFlag (emit (EvTry c) d))).
    - apply attempts_connect in Hconn. by rewrite Hconn.
    - by injection Hconn as <-. }
  cbn [mbind result_bind] in H.
  destruct (negb (_connectedToInverterFlag d1));
    [injection H as <- _; by rewrite attempts_sleep |].
  destruct (fetch_loop cfg names d1 ∅) as [[d2 out] | e] eqn:Hfetch; [| discriminate].
  apply attempts_fetch_loop in Hfetch. cbn [mbind result_bind] in H.
  destruct (negb (_connectedToInverterFlag d2));
    [injection H as <- _; rewrite attempts_sleep; lia |].
  apply attempts_check in H. lia.
Qed.

Lemma attempts_retry_loop (cfg : config) (names : list string) (counters : list Z) :
  ∀ (d d' : device) (r : option poll_output),
    retry_loop cfg names d counters = Ok (d', r) →
    (attempts (journal d') <= attempts (journal d) + length counters)%nat
    ∧ (r = None → attempts (journal d') = (attempts (journal d) + length counters)%nat)
    ∧ (is_Some r → (attempts (journal d) < attempts (journal d'))%nat).
Proof.
  induction counters as [| c rest IH]; intros d d' r H.
  - injection H as <- <-. cbn [length]. repeat split; [lia | lia |]. by intros [? ?].
  - cbn [retry_loop] in H.
    destruct (attempt cfg names d c) as [[d1 [out |]] | e] eqn:Hatt;
      cbn [mbind result_bind] in H; try discriminate;
      apply attempts_attempt in Hatt.
    + injection H as <- <-. cbn [length]. repeat split; [lia | discriminate | lia].
    + destruct (IH _ _ _ H) as (Hle & Hnone & Hsome). cbn [length].
      repeat split; [lia | intros Hr; rewrite (Hnone Hr); lia |].
      intros Hr. specialize (Hsome Hr). lia.
Qed.

(** X12.  A poll makes at most nine rounds: it returns [False] after
    exactly nine, and data after at least one and at most nine. *)
Theorem poll_rounds (cfg : config) (d d' : device) (r : requested)
    (res : option poll_output) :
  getRegisterRangeData cfg d r = Ok (d', res) →
  (attempts (journal d') <= attempts (journal d) + 9)%nat
  ∧ (res = None → attempts (journal d') = (attempts (journal d) + 9)%nat)
  ∧ (is_Some res → (attempts (journal d) < attempts (journal d'))%nat).
Proof.
  unfold getRegisterRangeData, poll_from. intros H.
  by apply attempts_retry_loop in H.
Qed.

Lemma poll_rounds_witness :
  (attempts (journal five_kwh_poll.1) <= attempts (journal (new_device five_kwh_network)) + 9)%nat
  ∧ (Some five_kwh_poll.2 = None →
     attempts (journal five_kwh_poll.1)
     = (attempts (journal (new_device five_kwh_network)) + 9)%nat)
  ∧ (is_Some (Some five_kwh_poll.2) →
     (attempts (journal (new_device five_kwh_network)) < attempts (journal five_kwh_poll.1))%nat).
Proof.
  apply (poll_rounds (sample_config (Py.nearest 5)) (new_device five_kwh_network) five_kwh_poll.1
           (Names ["PVOutput"%string]) (Some five_kwh_poll.2)).
  vm_compute. reflexivity.
Defined.

(** * The removal loop *)

Lemma list_remove_at (l : list string) (i : nat) (x : string) :
  NoDup l → l !! i = Some x → list_remove x l = take i l ++ drop (S i) l.
Proof.
  intros Hnd. revert i. induction Hnd as [| y l Hy Hnd IH]; intros i Hi; [done |].
  cbn [list_remove]. destruct i as [| i]; cbn in Hi.
  - injection Hi as ->. by rewrite bool_decide_eq_true_2.
  - rewrite bool_decide_eq_false_2.
    + cbn [take drop app]. f_equal. by apply IH.
    + intros ->. apply Hy. by apply list_elem_of_lookup_2 in Hi.
Qed.

Lemma remove_unknown_loop_pass (proto : gmap string RegisterRange) (fuel : nat) :
  ∀ i l, NoDup l → (length l <= i + fuel)%nat →
         remove_unknown_loop proto fuel i l = take i l ++ drop_and_skip proto (drop i l).
Proof.
  induction fuel as [| fuel IH]; intros i l Hnd Hlen.
  - cbn [remove_unknown_loop]. rewrite drop_ge by lia. rewrite take_ge by lia.
    by rewrite app_nil_r.
  - cbn [remove_unknown_loop]. destruct (l !! i) as [x |] eqn:Hx.
    + rewrite (drop_S _ _ _ Hx). cbn [drop_and_skip].
      destruct (bool_decide (is_Some (proto !! x))).
      * rewrite IH by (assumption || lia).
        rewrite (take_S_r _ _ _ Hx), <- app_assoc. reflexivity.
      * rewrite (list_remove_at l i x Hnd Hx).
        assert (Hi : (i < length l)%nat) by (by apply lookup_lt_Some in Hx).
        rewrite IH.
        -- rewrite take_app_ge by (rewrite length_take; lia).
           rewrite drop_app_ge by (rewrite length_take; lia).
           rewrite length_take. replace (S i - i `min` length l)%nat with 1%nat by lia.
           rewrite <- app_assoc. f_equal.
           destruct (drop (S i) l) as [| y r]; reflexivity.
        -- apply NoDup_app.
           assert (Hsplit : NoDup (take i l ++ x :: drop (S i) l)).
           { by rewrite <- (drop_S _ _ _ Hx), take_drop. }
           apply NoDup_app in Hsplit as (Ht & Hdis & Hd).
           split; [exact Ht |]. split.
           ++ intros z Hz Hz'. apply (Hdis z Hz). by right.
           ++ by apply NoDup_cons in Hd as [_ Hd].
        -- rewrite length_app, length_take, length_drop. lia.
    + apply lookup_ge_None in Hx. rewrite drop_ge by lia. rewrite take_ge by lia.
      by rewrite app_nil_r.
Qed.

(** X13.  On a list without repetition, the loop that is to drop the
    names the register map does not have goes over the list once, drops
    each unknown name it looks at and does not look at the name after a
    dropped one, which stays whether the map has it or not. *)
Theorem remove_unknown_pass (proto : gmap string RegisterRange) (l : list string) :
  NoDup l → remove_unknown proto l = drop_and_skip proto l.
Proof.
  intros Hnd. unfold remove_unknown.
  by rewrite remove_unknown_loop_pass by (assumption || lia).
Qed.

(** Lists of string literals without repetition, and membership in them. *)
Ltac distinct_strings :=
  repeat (apply NoDup_cons_2;
          [ rewrite ?elem_of_cons, elem_of_nil;
            let H := fresh in
            intros H; repeat (destruct H as [H | H]; [discriminate H |]); exact H
          | ]);
  apply NoDup_nil_2.

Ltac listed := rewrite ?elem_of_cons; auto 10.

Lemma remove_unknown_pass_witness :
  remove_unknown sample_protocol ["Foo"; "Bar"; "PVOutput"]%string
  = drop_and_skip sample_protocol ["Foo"; "Bar"; "PVOutput"]%string.
Proof.
  apply remove_unknown_pass. distinct_strings.
Defined.

Lemma drop_and_skip_known (proto : gmap string RegisterRange) (l : list string) :
  (∀ n, n ∈ l → is_Some (proto !! n)) → drop_and_skip proto l = l.
Proof.
  induction l as [| x l IH]; intros Hall; [reflexivity |].
  cbn [drop_and_skip]. rewrite bool_decide_eq_true_2 by (apply Hall; by left).
  f_equal. apply IH. intros n Hn. apply Hall. by right.
Qed.

(** X14.  A list without repetition that holds both ["EnergyTodayTotals"]
    and ["PVOutput"] and only names of the register map is the list the
    rounds work on, unchanged: nothing is added and nothing dropped. *)
Theorem normalize_unchanged (proto : gmap string RegisterRange) (l : list string) :
  NoDup l →
  "EnergyTodayTotals"%string ∈ l →
  "PVOutput"%string ∈ l →
  (∀ n, n ∈ l → is_Some (proto !! n)) →
  normalize proto l = l.
Proof.
  intros Hnd He Hp Hall. unfold normalize.
  assert (Hadd : add_required l = l).
  { unfold add_required, requiredRegRanges. cbn [fold_left].
    rewrite (bool_decide_eq_true_2 _ He). by rewrite (bool_decide_eq_true_2 _ Hp). }
  rewrite Hadd. unfold remove_unknown.
  rewrite remove_unknown_loop_pass by (assumption || lia). by apply drop_and_skip_known.
Qed.

Lemma normalize_unchanged_witness :
  normalize sample_protocol ["GridOutput"; "EnergyTodayTotals"; "PVOutput"]%string
  = ["GridOutput"; "EnergyTodayTotals"; "PVOutput"]%string.
Proof.
  apply normalize_unchanged.
  - distinct_strings.
  - listed.
  - listed.
  - intros n Hn.
    repeat (apply elem_of_cons in Hn as [-> | Hn]; [by eexists |]).
    by apply elem_of_nil in Hn.
Defined.

(** * Receiving *)

(** X15.  The receive loop keeps what it is given, in order: the bytes it
    returns are the bytes it held, followed by the chunks of the outcomes
    it consumed, and the outcomes it did not consume are still to come. *)
Theorem recv_loop_in_order (enough : Z) (script : list recv_outcome) :
  ∀ data0,
    ∃ used,
      script = used ++ (recv_loop enough script data0).1.2
      ∧ (recv_loop enough script data0).1.1 = data0 ++ concat (chunk_bytes <$> used).
Proof.
  induction script as [| o script IH]; intros data0.
  - exists []. cbn. by rewrite app_nil_r.
  - destruct o as [chunk | |]; cbn [recv_loop].
    + destruct chunk as [| b chunk].
      * exists [RecvChunk []]. cbn. by rewrite app_nil_r.
      * destruct (enough <=? Z.of_nat (length (data0 ++ b :: chunk))).
        -- exists [RecvChunk (b :: chunk)]. cbn. by rewrite app_nil_r.
        -- destruct (IH (data0 ++ b :: chunk)) as (used & Hs & Hd).
           exists (RecvChunk (b :: chunk) :: used). split.
           ++ cbn [app]. by rewrite <- Hs.
           ++ rewrite Hd. cbn [fmap list_fmap chunk_bytes concat].
              by rewrite <- app_assoc.
    + exists [RecvTimeout]. cbn. by rewrite app_nil_r.
    + exists [RecvError]. cbn. by rewrite app_nil_r.
Qed.

(** X16.  A connected device whose first chunk is not empty and at least
    as long as the register count plus 15 decodes that chunk alone and,
    where the decoding does not fail, stays connected and returns what
    was decoded; what arrives later is left for the next read. *)
Theorem read_one_chunk (d : device) (regRangeDef : RegisterRange) (rs re : pystr)
    (regStart regEnd : Z) (chunk : bytes) (rest : list recv_outcome) :
  _connectedToInverterFlag d = true →
  mySocket d = true →
  registerStart regRangeDef = Some rs →
  registerEnd regRangeDef = Some re →
  Py.int0 rs = Ok regStart →
  Py.int0 re = Ok regEnd →
  recvs (env d) = RecvChunk chunk :: rest →
  chunk ≠ [] →
  regEnd - regStart + 1 + 15 <= Z.of_nat (length chunk) →
  _readRegisterRange d regRangeDef
  = parse_data chunk regStart regEnd regRangeDef
    ≫= λ output,
         Ok (set_env {| connects := connects (env d); sends := sends (env d);
                        recvs := rest |} d,
             Some output).
Proof.
  intros Hflag Hsock Hrs Hre Hs He Hrecv Hne Hlen. unfold _readRegisterRange.
  rewrite Hflag, Hsock, Hrs, Hre, Hs. cbn [negb orb mbind result_bind].
  rewrite He. cbn [mbind result_bind]. rewrite Hrecv.
  destruct chunk as [| b chunk]; [done |]. cbn [recv_loop app].
  destruct (Z.leb_spec (regEnd - regStart + 1 + 15) (Z.of_nat (length (b :: chunk))));
    [| lia].
  cbn [set_env _connectedToInverterFlag]. rewrite Hflag. reflexivity.
Qed.

Lemma read_one_chunk_witness :
  _readRegisterRange listening_device pv_range
  = parse_data (response [0; 100; 0; 50]) 10 11 pv_range
    ≫= λ output,
         Ok (set_env {| connects := connects (env listening_device);
                        sends := sends (env listening_device); recvs := [RecvTimeout] |}
               listening_device,
             Some output).
Proof.
  apply (read_one_chunk listening_device pv_range (lit "0x000A") (lit "0x000B") 10 11
           (response [0; 100; 0; 50]) [RecvTimeout]);
    first [reflexivity | discriminate | simpl; lia].
Defined.

(** * The script: what it asks for *)

Lemma add_optional_cases (required : list string) (tmp : string) :
  add_optional required tmp = required
  ∨ ∃ a, a ∈ allRegRanges ∧ add_optional required tmp = required ++ [a].
Proof.
  unfold add_optional. destruct (isValidString tmp); [| by left].
  destruct (split_dot _) as [| a [| b [| c r]]]; try by left.
  case_bool_decide; [right; by eexists | by left].
Qed.

Lemma fold_add_optional (pvo_v : list string) :
  ∀ acc n,
    (n ∈ acc → n ∈ fold_left add_optional pvo_v acc)
    ∧ (n ∈ fold_left add_optional pvo_v acc → n ∈ acc ∨ n ∈ allRegRanges).
Proof.
  induction pvo_v as [| tmp rest IH]; intros acc n; cbn [fold_left]; [split; auto |].
  destruct (IH (add_optional acc tmp) n) as [Hin Hout].
  destruct (add_optional_cases acc tmp) as [Heq | (a & Ha & Heq)]; rewrite Heq in *; [split; assumption |].
  split.
  - intros Hn. apply Hin, elem_of_app. by left.
  - intros Hn. destruct (Hout Hn) as [Hacc | Hall]; [| by right].
    apply elem_of_app in Hacc as [Hacc | Hacc]; [by left |].
    apply list_elem_of_singleton in Hacc as ->. by right.
Qed.

Lemma script_ranges_elem (pvo_v : list string) (n : string) :
  (n ∈ script_required → n ∈ script_ranges pvo_v)
  ∧ (n ∈ script_ranges pvo_v → n ∈ allRegRanges).
Proof.
  unfold script_ranges. rewrite elem_of_remove_dups.
  destruct (fold_add_optional pvo_v script_required n) as [Hin Hout].
  split; [exact Hin |]. intros Hn.
  destruct (Hout Hn) as [Hreq | Hall]; [| exact Hall].
  unfold script_required in Hreq. unfold allRegRanges.
  repeat (apply elem_of_cons in Hreq as [-> | Hreq]; [listed |]).
  by apply elem_of_nil in Hreq.
Qed.

Lemma add_required_present (l : list string) :
  "EnergyTodayTotals"%string ∈ l → "PVOutput"%string ∈ l → add_required l = l.
Proof.
  intros He Hp. unfold add_required, requiredRegRanges. cbn [fold_left].
  rewrite (bool_decide_eq_true_2 _ He). by rewrite (bool_decide_eq_true_2 _ Hp).
Qed.

(** X17.  Whatever the six options hold, and in whatever order [set]
    hands the names back, the list the script asks for has no repetition,
    holds ["GridOutput"], ["EnergyTodayTotals"] and ["PVOutput"] and only
    names of [allRegRanges]; the poll adds nothing to it. *)
Theorem script_request (pvo_v l : list string) :
  l ≡ₚ script_ranges pvo_v →
  NoDup l
  ∧ (∀ n, n ∈ script_required → n ∈ l)
  ∧ (∀ n, n ∈ l → n ∈ allRegRanges)
  ∧ add_required (unique_names (Names l)) = l.
Proof.
  intros Hperm.
  assert (Hnd : NoDup l).
  { rewrite Hperm. unfold script_ranges. apply NoDup_remove_dups. }
  assert (Hreq : ∀ n, n ∈ script_required → n ∈ l).
  { intros n Hn. rewrite Hperm. by apply script_ranges_elem. }
  split; [exact Hnd |]. split; [exact Hreq |]. split.
  - intros n Hn. rewrite Hperm in Hn. by apply (script_ranges_elem pvo_v).
  - rewrite unique_names_fixed by exact Hnd.
    apply add_required_present; apply Hreq; unfold script_required; listed.
Qed.

Lemma script_request_witness :
  NoDup ["PVOutput"; "SystemInfo"; "GridOutput"; "EnergyTodayTotals"]%string
  ∧ (∀ n, n ∈ script_required →
          n ∈ ["PVOutput"; "SystemInfo"; "GridOutput"; "EnergyTodayTotals"]%string)
  ∧ (∀ n, n ∈ ["PVOutput"; "SystemInfo"; "GridOutput"; "EnergyTodayTotals"]%string →
          n ∈ allRegRanges)
  ∧ add_required
      (unique_names (Names ["PVOutput"; "SystemInfo"; "GridOutput"; "EnergyTodayTotals"]%string))
    = ["PVOutput"; "SystemInfo"; "GridOutput"; "EnergyTodayTotals"]%string.
Proof.
  apply (script_request
           [""; "SystemInfo.Temperature_Env1"; "Voltage_Phase_R"; " "; "Foo.Bar"; ""]%string).
  change (script_ranges _)
    with ["GridOutput"; "EnergyTodayTotals"; "PVOutput"; "SystemInfo"]%string.
  apply NoDup_Permutation; [distinct_strings | distinct_strings |].
  intros n. rewrite !elem_of_cons. tauto.
Defined.

(** * The script: what it does with the answer *)

Lemma after_poll_checked (cfg : config) (keys : list string) (out : poll_output) :
  checks_passed cfg out →
  ∃ pv p1 p2 powerTotal,
    out !! "PVOutput"%string = Some pv
    ∧ pv !! "Power_PV1"%string = Some p1
    ∧ pv !! "Power_PV2"%string = Some p2
    ∧ Py.add p1 p2 = Ok powerTotal
    ∧ after_poll (mySystemSize cfg) keys (Some out)
      = Ok (if all_read keys out && negb (Py.lt powerTotal (Py.Int 10))
            then Upload powerTotal else Exit1).
Proof.
  intros (pv & p1 & p2 & powerTotal & Hpv & Hp1 & Hp2 & Hsum & Hsize).
  exists pv, p1, p2, powerTotal.
  split; [exact Hpv |]. split; [exact Hp1 |]. split; [exact Hp2 |]. split; [exact Hsum |].
  unfold after_poll.
  rewrite bool_decide_eq_false_2
    by (intros ->; by rewrite lookup_empty in Hpv).
  destruct (all_read keys out); cbn [negb andb]; [| reflexivity].
  destruct (Py.gt (Py.Float (mySystemSize cfg)) (Py.Int 0)) eqn:Hpos.
  - destruct Hsize as (ett & energy & Hett & Henergy & Hle1 & Hle2);
      [by apply positive_size_true |].
    unfold limit in Hle1, Hle2.
    rewrite (subscript_some _ _ _ Hett), bind_ok, (subscript_some _ _ _ Henergy), bind_ok.
    rewrite (mul_int_float 10), !bind_ok, Hle1 by lia.
    rewrite (subscript_some _ _ _ Hpv), !bind_ok, (subscript_some _ _ _ Hp1), !bind_ok.
    rewrite (subscript_some _ _ _ Hp2), !bind_ok, Hsum, !bind_ok.
    destruct (Py.lt powerTotal (Py.Int 10)); cbn [negb]; [reflexivity |].
    by rewrite (mul_int_float 1200), !bind_ok, Hle2 by lia.
  - rewrite bind_ok.
    rewrite (subscript_some _ _ _ Hpv), !bind_ok, (subscript_some _ _ _ Hp1), !bind_ok.
    rewrite (subscript_some _ _ _ Hp2), !bind_ok, Hsum, !bind_ok.
    by destruct (Py.lt powerTotal (Py.Int 10)).
Qed.

(** X18.  After a poll that returned data the script's own tests of the
    energy and of the power against the system size never fire, and no
    subscript of it and no sum fails: it uploads when every range of the
    register map is in the result and the sum of the two strings is not
    less than 10, and leaves with exit code 1 otherwise. *)
Theorem script_after_data (cfg : config) (d d' : device) (r : requested)
    (out : poll_output) :
  getRegisterRangeData cfg d r = Ok (d', Some out) →
  ∃ pv p1 p2 powerTotal,
    out !! "PVOutput"%string = Some pv
    ∧ pv !! "Power_PV1"%string = Some p1
    ∧ pv !! "Power_PV2"%string = Some p2
    ∧ Py.add p1 p2 = Ok powerTotal
    ∧ after_poll (mySystemSize cfg) (range_names (sofarProtocol cfg)) (Some out)
      = Ok (if all_read (range_names (sofarProtocol cfg)) out
               && negb (Py.lt powerTotal (Py.Int 10))
            then Upload powerTotal else Exit1).
Proof.
  unfold getRegisterRangeData, poll_from. intros Hpoll.
  apply retry_loop_some in Hpoll as (d0 & c & Hatt).
  apply attempt_some in Hatt as (d1 & d2 & _ & _ & Hok).
  by apply after_poll_checked.
Qed.

Lemma script_after_data_witness :
  ∃ pv p1 p2 powerTotal,
    five_kwh_poll.2 !! "PVOutput"%string = Some pv
    ∧ pv !! "Power_PV1"%string = Some p1
    ∧ pv !! "Power_PV2"%string = Some p2
    ∧ Py.add p1 p2 = Ok powerTotal
    ∧ after_poll (Py.nearest 5) (range_names sample_protocol) (Some five_kwh_poll.2)
      = Ok (if all_read (range_names sample_protocol) five_kwh_poll.2
               && negb (Py.lt powerTotal (Py.Int 10))
            then Upload powerTotal else Exit1).
Proof.
  apply (script_after_data (sample_config (Py.nearest 5)) (new_device five_kwh_network)
           five_kwh_poll.1 (Names ["PVOutput"%string]) five_kwh_poll.2).
  vm_compute. reflexivity.
Defined.

Lemma add_required_subset (l : list string) (n : string) :
  n ∈ add_required l → n ∈ l ∨ n = "EnergyTodayTotals"%string.
Proof.
  unfold add_required, requiredRegRanges. cbn [fold_left lookup list_lookup default].
  intros Hn.
  repeat (case_bool_decide;
          [| apply elem_of_app in Hn as [Hn | Hn];
             [| apply list_elem_of_singleton in Hn; by right]]).
  all: by left.
Qed.

Lemma all_read_missing (keys : list string) (out : poll_output) (k : string) :
  k ∈ keys → out !! k = None → all_read keys out = false.
Proof.
  induction keys as [| x rest IH]; intros Hk Hnone; [by apply elem_of_nil in Hk |].
  cbn [all_read]. case_bool_decide as Hx; [| reflexivity].
  apply elem_of_cons in Hk as [-> | Hk]; [| by apply IH].
  rewrite Hnone in Hx. by destruct Hx.
Qed.

Lemma range_names_elem (proto : gmap string RegisterRange) (k : string) :
  k ∈ range_names proto ↔ is_Some (proto !! k).
Proof.
  unfold range_names. rewrite list_elem_of_fmap. split.
  - intros ([k' def] & -> & Hin). apply elem_of_map_to_list in Hin. by eexists.
  - intros [def Hdef]. exists (k, def). split; [reflexivity |].
    by apply elem_of_map_to_list.
Qed.

Lemma poll_result_requested (cfg : config) (d d' : device) (r : requested)
    (out : poll_output) (k : string) :
  getRegisterRangeData cfg d r = Ok (d', Some out) →
  is_Some (out !! k) →
  k ∈ names_of r ∨ k = "EnergyTodayTotals"%string.
Proof.
  unfold getRegisterRangeData, poll_from. intros Hpoll Hk.
  apply retry_loop_some in Hpoll as (d0 & c & Hatt).
  apply attempt_some in Hatt as (d1 & d2 & Hfetch & _ & _).
  destruct (fetch_loop_keys _ _ _ _ _ _ Hfetch k Hk) as [[v Hv] | Hin].
  - by rewrite lookup_empty in Hv.
  - unfold normalize, remove_unknown in Hin.
    apply remove_unknown_loop_subset in Hin. apply add_required_subset in Hin.
    destruct Hin as [Hin | Hin]; [left | by right].
    unfold unique_names in Hin. by rewrite elem_of_remove_dups in Hin.
Qed.

Lemma after_poll_missing (size : spec_float) (keys : list string) (res : option poll_output)
    (k : string) :
  k ∈ keys → (∀ out, res = Some out → out !! k = None) →
  after_poll size keys res = Ok Exit1.
Proof.
  intros Hk Hnone. destruct res as [out |]; [| reflexivity].
  unfold after_poll. case_bool_decide; [reflexivity |].
  by rewrite (all_read_missing keys out k Hk (Hnone out eq_refl)).
Qed.

(** X19.  A range of the register map that was not asked for, other than
    ["EnergyTodayTotals"], is in no result, so the script leaves with exit
    code 1 after every poll that comes back, with data or without. *)
Theorem unrequested_range_exits (cfg : config) (d d' : device) (r : requested)
    (res : option poll_output) (k : string) :
  getRegisterRangeData cfg d r = Ok (d', res) →
  is_Some (sofarProtocol cfg !! k) →
  k ∉ names_of r →
  k ≠ "EnergyTodayTotals"%string →
  after_poll (mySystemSize cfg) (range_names (sofarProtocol cfg)) res = Ok Exit1.
Proof.
  intros Hpoll Hk Hnot Hne. apply (after_poll_missing _ _ _ k).
  - by apply range_names_elem.
  - intros out ->. apply eq_None_not_Some. intros Hin.
    by destruct (poll_result_requested _ _ _ _ _ _ Hpoll Hin).
Qed.

Lemma unrequested_range_exits_witness :
  after_poll (Py.nearest 5) (range_names sample_protocol) (Some five_kwh_poll.2) = Ok Exit1.
Proof.
  apply (unrequested_range_exits (sample_config (Py.nearest 5)) (new_device five_kwh_network)
           five_kwh_poll.1 (Names ["PVOutput"%string]) (Some five_kwh_poll.2)
           "GridOutput"%string).
  - vm_compute. reflexivity.
  - by eexists.
  - cbn [names_of]. intros H. apply list_elem_of_singleton in H. discriminate H.
  - discriminate.
Defined.

(** X20.  The script asks for ["SystemInfo"] only when one of its six
    options names it; with a register map that defines a range the script
    did not ask for, the script never uploads: it leaves with exit code 1
    after every poll that comes back. *)
Theorem script_never_uploads (cfg : config) (d d' : device) (pvo_v l : list string)
    (res : option poll_output) (k : string) :
  l ≡ₚ script_ranges pvo_v →
  getRegisterRangeData cfg d (Names l) = Ok (d', res) →
  is_Some (sofarProtocol cfg !! k) →
  k ∉ l →
  after_poll (mySystemSize cfg) (range_names (sofarProtocol cfg)) res = Ok Exit1.
Proof.
  intros Hperm Hpoll Hk Hnot. apply (after_poll_missing _ _ _ k).
  - by apply range_names_elem.
  - intros out ->. apply eq_None_not_Some. intros Hin.
    destruct (poll_result_requested _ _ _ _ _ _ Hpoll Hin) as [Hl | ->]; [done |].
    apply Hnot. rewrite Hperm. apply script_ranges_elem. unfold script_required. listed.
Qed.

Lemma script_never_uploads_witness :
  is_Some (three_range_poll.2)
  ∧ after_poll (Py.nearest 5) (range_names (sofarProtocol (four_range_config (Py.nearest 5)))) three_range_poll.2
    = Ok Exit1.
Proof.
  split; [by eexists |].
  apply (script_never_uploads (four_range_config (Py.nearest 5)) (new_device three_answers)
           three_range_poll.1 [""; ""; ""; ""; ""; ""]%string script_required
           three_range_poll.2 "SystemInfo"%string).
  - reflexivity.
  - vm_compute. reflexivity.
  - by eexists.
  - unfold script_required. rewrite !elem_of_cons, elem_of_nil.
    intros H. repeat (destruct H as [H | H]; [discriminate H |]). exact H.
Defined.

(** * Connecting *)

Lemma connect_loop_connected (addrs : list connect_outcome) (sock : bool) :
  ∀ r, connect_loop addrs sock true = Ok r → r.2 = true.
Proof.
  revert sock. induction addrs as [| [| [msg |]] rest IH]; intros sock r H;
    cbn [connect_loop] in H.
  - by injection H as <-.
  - by apply (IH true).
  - by injection H as <-.
  - discriminate.
Qed.

(** X21.  When [_connect] returns, the flag tells how the first address
    went and nothing else: a later address that fails ends the loop with
    the flag still set, on the socket that failed. *)
Theorem connect_flag_first_address (addrs : list connect_outcome) (sock flag : bool) :
  connect_loop addrs false false = Ok (sock, flag) →
  flag = first_connects addrs.
Proof.
  destruct addrs as [| [| [msg |]] rest]; cbn [connect_loop first_connects]; intros H.
  - by injection H as _ <-.
  - by apply connect_loop_connected in H.
  - by injection H as _ <-.
  - discriminate.
Qed.

Lemma connect_flag_first_address_witness :
  true = first_connects [ConnOk; ConnError (Some (lit "Connection refused"))].
Proof.
  apply (connect_flag_first_address
           [ConnOk; ConnError (Some (lit "Connection refused"))] true true).
  reflexivity.
Defined.
